(** * OCR Studio: the client-side chunking and compression pipeline

    A shallow embedding of the page component of the OCR web application
    (the file that defines [compressImageForOcr], [createPdfChunk],
    [splitPdfForOcr] and the [Home] component with [processOCR]) and of
    the route handler it posts to, and theorems about them.

    Conventions.
    - Byte sizes are [N] (JavaScript numbers holding non-negative
      integers far below 2^53); page numbers and array indexes are [nat].
    - JavaScript strings are [string], one character for one UTF-16
      code unit.  The 256 characters stand for the code units U+0000 to
      U+00FF, with one exception: character 133 stands for U+2026, the
      horizontal ellipsis, which is the only code unit above U+00FF the
      code itself writes (133 is its place in Windows-1252).
      [Js.codeUnit] is that assignment; strings holding other code units
      are outside the model.  The code concatenates strings, measures
      them, cuts them, compares them, tests prefixes and substrings and
      lowers the case of letters, and the model does each of these as
      JavaScript does on the denoted strings.  The string literals of
      this file hold ASCII characters only.
    - A binary string, made of bytes by [String.fromCharCode] and read
      only by [btoa], is the list of its code units, [list Byte.byte].
    - A value read by [JSON.parse] is a [Json.Value]; reading a property
      of it, testing it with [||] and turning it into a string are
      modelled as JavaScript does them, errors included.
    - The browser and the libraries the code calls (image decoding, the
      canvas JPEG encoder, pdf-lib) are a record of functions,
      [Platform]; the code is a function of it.
    - [async] code that touches the component state or the network is a
      program in a small free monad, [Prog]: every state setter, every
      [fetch] and every [sleep] is a node of the program, and a [fetch]
      or a [sleep] is a point where the program is suspended.  The
      awaits of the preparation of a file (decoding, encoding, pdf-lib)
      settle with nothing else happening in between: runs are
      interleaved at their requests and pauses only. *)

From Stdlib Require Import String Ascii List NArith Arith Bool Lia DecimalString DecimalNat.
Import ListNotations.
Open Scope string_scope.

(** ** Strings *)

Module Js.

(** [`${n}`] for a non-negative integer. *)
Definition showNat (n : nat) : string := NilEmpty.string_of_uint (Nat.to_uint n).
Definition showN (n : N) : string := NilEmpty.string_of_uint (N.to_uint n).

(** [s.startsWith(p)] *)
Definition startsWith (s p : string) : bool := String.prefix p s.

(** [s.includes(p)] *)
Fixpoint includes (s p : string) : bool :=
  String.prefix p s ||
  match s with
  | EmptyString => false
  | String _ rest => includes rest p
  end.

(** [s.slice(0, n)] *)
Definition slice0 (s : string) (n : nat) : string := String.substring 0 n s.

Definition newline : string := String (ascii_of_nat 10) EmptyString.

(** The UTF-16 code unit a character stands for. *)
Definition codeUnit (c : ascii) : N :=
  if Ascii.eqb c (ascii_of_nat 133) then 8230%N   (* U+2026 *)
  else N_of_ascii c.

(** The string of the single code unit U+2026 (horizontal ellipsis). *)
Definition ellipsis : string := String (ascii_of_nat 133) EmptyString.

(** [Boolean(s)] for a string: every string but the empty one is truthy. *)
Definition truthy (s : string) : bool :=
  match s with
  | EmptyString => false
  | String _ _ => true
  end.

(** [a || b] where [a] is an optional string property ([undefined] when absent). *)
Definition orElse (a : option string) (b : string) : string :=
  match a with
  | Some s => if truthy s then s else b
  | None => b
  end.

(** [xs.join(sep)] *)
Definition join (sep : string) (xs : list string) : string := String.concat sep xs.

(** The characters of a string, last first. *)
Fixpoint revChars (s : string) (acc : list ascii) : list ascii :=
  match s with
  | EmptyString => acc
  | String c rest => revChars rest (c :: acc)
  end.

Definition ofRevChars (cs : list ascii) : string :=
  fold_left (fun acc c => String c acc) cs EmptyString.

(** The regular expression [/\.[^/.]+$/] matches a dot followed by one or
    more characters that are neither a slash nor a dot, up to the end of
    the string.  [stripExt seen cs] reads the reversed string [cs]:
    [seen] tells whether a character of the class has been read. *)
Fixpoint stripExt (seen : bool) (cs : list ascii) : option (list ascii) :=
  match cs with
  | [] => None
  | c :: rest =>
      if Ascii.eqb c "." then (if seen then Some rest else None)
      else if Ascii.eqb c "/" then None
      else stripExt true rest
  end.

(** [name.replace(/\.[^/.]+$/, "")] *)
Definition dropExtension (name : string) : string :=
  match stripExt false (revChars name []) with
  | Some rest => ofRevChars rest
  | None => name
  end.

End Js.

(** [replaceExtension(name, nextExt)] *)
Definition replaceExtension (name nextExt : string) : string :=
  Js.dropExtension name ++ "." ++ nextExt.

(** ** Results of code that can throw *)

Inductive Result (A : Type) : Type :=
| Ok (a : A)
| Err (msg : string).
Arguments Ok {A} a.
Arguments Err {A} msg.

Definition rbind {A B} (r : Result A) (k : A -> Result B) : Result B :=
  match r with
  | Ok a => k a
  | Err m => Err m
  end.

Declare Scope result_scope.
Delimit Scope result_scope with result.
Notation "x <- e ;; k" := (rbind e (fun x => k))
  (at level 61, e at next level, right associativity) : result_scope.

(** ** Values read by JSON.parse *)

Module Json.

#[local] Set Warnings "-register-all".

(** A parsed JSON value.  A number is kept as the string JavaScript
    makes of it ([String(n)]): it is zero exactly when that string is
    "0".  The members of an object are listed once per key. *)
Inductive Value : Type :=
| JNull
| JBool (b : bool)
| JNumber (shown : string)
| JString (s : string)
| JArray (items : list Value)
| JObject (members : list (string * Value)).

(** [v[key]] for an own property of an object; [None] is [undefined]. *)
Fixpoint lookup (key : string) (members : list (string * Value)) : option Value :=
  match members with
  | [] => None
  | (k, v) :: rest => if String.eqb k key then Some v else lookup key rest
  end.

(** [v.key] for a value that is not null and a key that no prototype
    has: only objects have such a member. *)
Definition member (key : string) (v : Value) : option Value :=
  match v with
  | JObject members => lookup key members
  | _ => None
  end.

(** [Boolean(v)] *)
Definition truthy (v : option Value) : bool :=
  match v with
  | None => false
  | Some JNull => false
  | Some (JBool b) => b
  | Some (JNumber shown) => negb (String.eqb shown "0")
  | Some (JString s) => Js.truthy s
  | Some (JArray _) => true
  | Some (JObject _) => true
  end.

(** [String(v)], which is also what [v + s] makes of [v] for a string
    [s].  A string is itself; an array is its elements joined by commas,
    [null] counting for nothing; an object is "[object Object]", unless
    it has a member [toString]: that member hides the method of the
    prototype and cannot be called, and the conversion throws a
    TypeError, whose message is [notPrimitive]. *)
Fixpoint show (notPrimitive : string) (v : Value) : Result string :=
  match v with
  | JNull => Ok "null"
  | JBool b => Ok (if b then "true" else "false")
  | JNumber shown => Ok shown
  | JString s => Ok s
  | JArray items =>
      match (fix each (items : list Value) : Result (list string) :=
               match items with
               | [] => Ok []
               | item :: rest =>
                   match (match item with
                          | JNull => Ok ""
                          | _ => show notPrimitive item
                          end) with
                   | Err message => Err message
                   | Ok head =>
                       match each rest with
                       | Err message => Err message
                       | Ok tail => Ok (head :: tail)
                       end
                   end
               end) items with
      | Err message => Err message
      | Ok parts => Ok (Js.join "," parts)
      end
  | JObject members =>
      match lookup "toString" members with
      | Some _ => Err notPrimitive
      | None => Ok "[object Object]"
      end
  end.

End Json.

(** ** The size budgets *)

Definition MAX_ERROR_BODY_LENGTH : nat := 500.
Definition OCR_IMAGE_LIMIT_BYTES : N := 10 * 1024 * 1024.
Definition OCR_PDF_LIMIT_BYTES : N := 50 * 1024 * 1024.
Definition OCR_PDF_PAGE_LIMIT : nat := 100.
Definition DROPZONE_MAX_BYTES : N := 200 * 1024 * 1024.
Definition PDF_CHUNK_TARGET_BYTES : N := 45 * 1024 * 1024.
Definition PDF_CHUNK_MAX_PAGES : nat := 40.

(** ** Files *)

(** A decimal literal with one digit after the point, counted in tenths:
    [0.9] is [9], [1] is [10]. *)
Definition Tenths := N.

(** Where the bytes of a file come from.  The code never looks into the
    bytes; it hands them to the platform and reads their length. *)
Inductive Blob : Type :=
| UserBlob (id : N)
    (* bytes of a file the user selected *)
| CanvasJpeg (src : Blob) (width height : N) (quality : Tenths)
    (* canvas.toBlob(..., "image/jpeg", quality) of the image [src] drawn
       on a canvas of that size *)
| PdfSave (src : Blob) (pageIndexes : list nat).
    (* save() of a fresh pdf-lib document holding copies of the pages of
       [src] at [pageIndexes], in that order *)

Record File : Type := mkFile {
  name : string;
  type : string;
  size : N;
  blob : Blob
}.

(** The page indexes of the source document a chunk file holds. *)
Definition pageIndexesOf (f : File) : list nat :=
  match blob f with
  | PdfSave _ idx => idx
  | _ => []
  end.

Record Canvas : Type := mkCanvas { width : N; height : N }.

Record Image : Type := mkImage { naturalWidth : N; naturalHeight : N }.

(** ** The platform *)

Record Platform : Type := mkPlatform {
  (* new Image() with src set to the file: its natural size once loaded,
     or None when onerror fires *)
  decodeImage : File -> option Image;
  (* Math.round(n * scale) in double arithmetic *)
  roundScaled : N -> Tenths -> N;
  (* canvas.getContext("2d") is not null *)
  getContext2d : Canvas -> bool;
  (* the size of the blob canvas.toBlob hands to its callback for the
     image of the file drawn on the canvas, None when it hands null *)
  toBlob : File -> Canvas -> Tenths -> option N;
  (* PDFDocument.load: the page count of the document, or the message of
     the error it throws *)
  pdfLoad : File -> string + nat;
  (* the byte length of save() for a fresh document holding copies of the
     given pages of the file *)
  savedSize : File -> list nat -> N;
  (* JSON.parse(bodyText), None when it throws; the cast to
     OcrApiResponse checks nothing *)
  jsonParse : string -> option Json.Value;
  (* the message of the TypeError of reading the named property of null *)
  nullAccess : string -> string;
  (* the message of the TypeError of turning into a string an object
     that has no callable toString or valueOf *)
  notPrimitive : string
}.

Section Preparation.

Variable plat : Platform.

Local Open Scope result_scope.

(** *** Image compression *)

Definition loadImageElement (file : File) : Result Image :=
  match decodeImage plat file with
  | Some image => Ok image
  | None => Err "Failed to decode image"
  end.

Definition canvasToBlob (file : File) (canvas : Canvas) (quality : Tenths) : Result N :=
  match toBlob plat file canvas quality with
  | Some sz => Ok sz
  | None => Err "Could not encode compressed image"
  end.

Definition scales : list Tenths := [10; 9; 8; 7; 6]%N.
Definition qualities : list Tenths := [9; 8; 7; 6; 5]%N.

Definition canvasFor (image : Image) (scale : Tenths) : Canvas :=
  {| width := N.max 1 (roundScaled plat (naturalWidth image) scale);
     height := N.max 1 (roundScaled plat (naturalHeight image) scale) |}.

Definition compressedFile (file : File) (canvas : Canvas) (quality : Tenths) (sz : N) : File :=
  {| name := replaceExtension (name file) "jpg";
     type := "image/jpeg";
     size := sz;
     blob := CanvasJpeg (blob file) (width canvas) (height canvas) quality |}.

(** [for (const quality of qualities)]: [Ok (Some f)] is the [return]
    inside the loop, [Ok None] is the loop running to its end. *)
Fixpoint qualityLoop (file : File) (canvas : Canvas) (qs : list Tenths)
  : Result (option File) :=
  match qs with
  | [] => Ok None
  | quality :: qs' =>
      sz <- canvasToBlob file canvas quality ;;
      if (sz <=? OCR_IMAGE_LIMIT_BYTES)%N
      then Ok (Some (compressedFile file canvas quality sz))
      else qualityLoop file canvas qs'
  end.

Definition tooLargeMessage : string :=
  "Image is still too large after compression. Please resize it manually and try again.".

(** [for (const scale of scales)] and the [throw] after it. *)
Fixpoint scaleLoop (file : File) (image : Image) (ss : list Tenths) : Result File :=
  match ss with
  | [] => Err tooLargeMessage
  | scale :: ss' =>
      let canvas := canvasFor image scale in
      if negb (getContext2d plat canvas)
      then Err "Could not initialize canvas for image compression"
      else
        found <- qualityLoop file canvas qualities ;;
        match found with
        | Some f => Ok f
        | None => scaleLoop file image ss'
        end
  end.

Definition compressImageForOcr (file : File) : Result File :=
  if (size file <=? OCR_IMAGE_LIMIT_BYTES)%N then Ok file
  else
    image <- loadImageElement file ;;
    scaleLoop file image scales.

(** *** PDF splitting *)

Definition createPdfChunk (source : File) (startPage endPageExclusive : nat)
    (fileName : string) (partNumber : nat) : File :=
  let pageIndexes :=
    map (fun idx => startPage + idx) (seq 0 (endPageExclusive - startPage)) in
  {| name := replaceExtension fileName ("part-" ++ Js.showNat partNumber ++ ".pdf");
     type := "application/pdf";
     size := savedSize plat source pageIndexes;
     blob := PdfSave (blob source) pageIndexes |}.

Definition singlePageMessage : string :=
  "A single PDF page exceeds the OCR API file size limit. Please reduce page resolution and try again.".

(** The inner [while] of [splitPdfForOcr]; [None] when [fuel] iterations
    do not reach the exit of the loop. *)
Fixpoint shrinkLoop (fuel : nat) (file : File) (cursor partNumber : nat)
    (end_ : nat) (chunk : File) : option (nat * File) :=
  if (PDF_CHUNK_TARGET_BYTES <? size chunk)%N && (1 <? end_ - cursor)%nat
  then
    match fuel with
    | O => None
    | S fuel' =>
        let end' := end_ - 1 in
        shrinkLoop fuel' file cursor partNumber end'
          (createPdfChunk file cursor end' (name file) partNumber)
    end
  else Some (end_, chunk).

(** The outer [while]; [None] when [fuel] iterations do not reach its exit. *)
Fixpoint splitLoop (fuel : nat) (file : File) (pageCount : nat)
    (chunks : list File) (cursor partNumber : nat)
  : option (Result (list File * nat)) :=
  if (cursor <? pageCount)%nat
  then
    match fuel with
    | O => None
    | S fuel' =>
        let end0 := Nat.min (cursor + PDF_CHUNK_MAX_PAGES) pageCount in
        let chunk0 := createPdfChunk file cursor end0 (name file) partNumber in
        match shrinkLoop (end0 - cursor) file cursor partNumber end0 chunk0 with
        | None => None
        | Some (end_, chunk) =>
            if (OCR_PDF_LIMIT_BYTES <? size chunk)%N
            then Some (Err singlePageMessage)
            else splitLoop fuel' file pageCount (chunks ++ [chunk])%list end_ (partNumber + 1)
        end
    end
  else Some (Ok (chunks, pageCount)).


(** [splitPdfForOcr], with one unit of fuel per page of the document for
    the outer loop (never used up, as shown below). *)
Definition splitPdfForOcr (file : File) : option (Result (list File * nat)) :=
  match pdfLoad plat file with
  | inl msg => Some (Err msg)
  | inr pageCount => splitLoop pageCount file pageCount [] 0 1
  end.

End Preparation.

(** ** The network boundary *)

(** What the code reads of the Response of [fetch("/api/ocr", ...)]. *)
Record Response : Type := mkResponse {
  status : N;
  contentType : option string;   (* response.headers.get("content-type") *)
  bodyText : string              (* await response.text() *)
}.

(** [response.ok]: the status is in the range 200-299. *)
Definition ok (response : Response) : bool :=
  ((200 <=? status response) && (status response <=? 299))%N.

(** The outcome of awaiting [fetch] and [response.text()]: the promise is
    rejected (a network error) or a response arrives. *)
Inductive FetchResult : Type :=
| Rejected (msg : string)
| Resolved (response : Response).

(** ** The component state *)

Record AppState : Type := mkAppState {
  file : option File;
  text : string;
  isProcessing : bool;
  statusMessage : option string;
  error : option string
}.

(** The state setters of [useState].  ([preview] and [copied] are only
    read by the markup and are left out.) *)
Inductive Update : Type :=
| SetFile (f : option File)
| SetText (t : string)
| SetIsProcessing (b : bool)
| SetStatusMessage (m : option string)
| SetError (e : option string).

Definition apply (u : Update) (s : AppState) : AppState :=
  match u with
  | SetFile f =>
      {| file := f; text := text s; isProcessing := isProcessing s;
         statusMessage := statusMessage s; error := error s |}
  | SetText t =>
      {| file := file s; text := t; isProcessing := isProcessing s;
         statusMessage := statusMessage s; error := error s |}
  | SetIsProcessing b =>
      {| file := file s; text := text s; isProcessing := b;
         statusMessage := statusMessage s; error := error s |}
  | SetStatusMessage m =>
      {| file := file s; text := text s; isProcessing := isProcessing s;
         statusMessage := m; error := error s |}
  | SetError e =>
      {| file := file s; text := text s; isProcessing := isProcessing s;
         statusMessage := statusMessage s; error := e |}
  end.

(** [useState] initial values. *)
Definition initialState : AppState :=
  {| file := None; text := ""; isProcessing := false;
     statusMessage := None; error := None |}.

(** ** Asynchronous programs *)

(** An [async] function body: it returns, throws, never settles, sets a
    piece of state and goes on, or is suspended on the network or on a
    timer and goes on when that settles. *)
Inductive Prog (A : Type) : Type :=
| Ret (a : A)
| Throw (msg : string)
| Hang
| Upd (u : Update) (k : Prog A)
| Fetch (body : File) (k : FetchResult -> Prog A)
| Sleep (ms : N) (k : Prog A).
Arguments Ret {A} a.
Arguments Throw {A} msg.
Arguments Upd {A} u k.
Arguments Hang {A}.
Arguments Fetch {A} body k.
Arguments Sleep {A} ms k.

Fixpoint bind {A B} (p : Prog A) (f : A -> Prog B) : Prog B :=
  match p with
  | Ret a => f a
  | Throw m => Throw m
  | Hang => Hang
  | Upd u k => Upd u (bind k f)
  | Fetch body k => Fetch body (fun r => bind (k r) f)
  | Sleep ms k => Sleep ms (bind k f)
  end.

(** [try { p } catch (err) { h(err.message) }] *)
Fixpoint tryCatch {A} (p : Prog A) (h : string -> Prog A) : Prog A :=
  match p with
  | Ret a => Ret a
  | Throw m => h m
  | Hang => Hang
  | Upd u k => Upd u (tryCatch k h)
  | Fetch body k => Fetch body (fun r => tryCatch (k r) h)
  | Sleep ms k => Sleep ms (tryCatch k h)
  end.

(** [try { p } finally { q }], for a [q] that neither returns nor throws. *)
Fixpoint tryFinally {A} (p : Prog A) (q : Prog unit) : Prog A :=
  match p with
  | Ret a => bind q (fun _ => Ret a)
  | Throw m => bind q (fun _ => Throw m)
  | Hang => Hang
  | Upd u k => Upd u (tryFinally k q)
  | Fetch body k => Fetch body (fun r => tryFinally (k r) q)
  | Sleep ms k => Sleep ms (tryFinally k q)
  end.

Declare Scope prog_scope.
Delimit Scope prog_scope with prog.
Notation "x <- e ;; k" := (bind e (fun x => k))
  (at level 61, e at next level, right associativity) : prog_scope.
Notation "e ;; k" := (bind e (fun _ => k))
  (at level 61, right associativity) : prog_scope.

Definition upd (u : Update) : Prog unit := Upd u (Ret tt).

(** [const sleep = (ms) => new Promise((resolve) => setTimeout(resolve, ms))] *)
Definition sleep (ms : N) : Prog unit := Sleep ms (Ret tt).

(** A synchronous result awaited by an [async] body. *)
Definition liftResult {A} (r : Result A) : Prog A :=
  match r with
  | Ok a => Ret a
  | Err m => Throw m
  end.

(** The same for a loop that was given fuel: out of fuel, the awaited
    promise never settles. *)
Definition liftFuel {A} (r : option (Result A)) : Prog A :=
  match r with
  | Some r' => liftResult r'
  | None => Hang
  end.

Section Pipeline.

Variable plat : Platform.

(** *** submitFileToOcr *)

(** [data.key] for [data.error] and [data.text]: reading a property of
    [null] throws a TypeError. *)
Definition property (key : string) (data : Json.Value) : Result (option Json.Value) :=
  match data with
  | Json.JNull => Err (nullAccess plat key)
  | _ => Ok (Json.member key data)
  end.

(** [String(v || fallback)], and [(v || fallback) + s] up to the string
    [s] added. *)
Definition shownOr (v : option Json.Value) (fallback : string) : Result string :=
  match v with
  | Some value =>
      if Json.truthy v then Json.show (notPrimitive plat) value else Ok fallback
  | None => Ok fallback
  end.

(** What [submitFileToOcr] does with the settled [fetch]. *)
Definition readOcrResponse (res : FetchResult) : Result string :=
  match res with
  | Rejected msg => Err msg
  | Resolved response =>
      let contentType := Js.orElse (contentType response) "" in
      let isJson := Js.includes contentType "application/json" in
      let bodyText := bodyText response in
      let nonJsonError :=
        if (MAX_ERROR_BODY_LENGTH <? String.length bodyText)%nat
        then "Non-JSON response: " ++ Js.slice0 bodyText MAX_ERROR_BODY_LENGTH ++ Js.ellipsis
        else "Non-JSON response: " ++ bodyText in
      let data :=
        if isJson
        then match jsonParse plat bodyText with
             | Some parsed => parsed
             | None => Json.JObject [("error", Json.JString nonJsonError)]
             end
        else Json.JObject [("error", Json.JString nonJsonError)] in
      if negb (ok response)
      then
        let statusHint := " (HTTP " ++ Js.showN (status response) ++ ")" in
        match property "error" data with
        | Err message => Err message
        | Ok error =>
            match shownOr error "OCR processing failed" with
            | Err message => Err message
            | Ok detail => Err (detail ++ statusHint)
            end
        end
      else
        match property "text" data with
        | Err message => Err message
        | Ok text => shownOr text ""
        end
  end.

Definition submitFileToOcr (sourceFile : File) : Prog string :=
  Fetch sourceFile (fun res => liftResult (readOcrResponse res)).

Local Open Scope prog_scope.

(** *** processOCR *)

Definition chunkStatus (i chunks_length : nat) : string :=
  "Processing PDF chunk " ++ Js.showNat (i + 1) ++ "/" ++ Js.showNat chunks_length ++ "...".

(** [for (let i = 0; i < chunks.length; i += 1)], entered at index [i]
    with [rest] the elements of [chunks] from [i] on. *)
Fixpoint submitChunks (chunks_length i : nat) (rest : list File)
    (chunkTexts : list string) : Prog (list string) :=
  match rest with
  | [] => Ret chunkTexts
  | chunk :: rest' =>
      upd (SetStatusMessage (Some (chunkStatus i chunks_length))) ;;
      chunkText <- submitFileToOcr chunk ;;
      let chunkTexts' := (chunkTexts ++ [chunkText])%list in
      (if (i <? chunks_length - 1)%nat then sleep 250 else Ret tt) ;;
      submitChunks chunks_length (i + 1) rest' chunkTexts'
  end.

(** [chunkTexts.filter(Boolean).join("\n\n")] *)
Definition mergeTexts (chunkTexts : list string) : string :=
  Js.join (Js.newline ++ Js.newline) (filter Js.truthy chunkTexts).

(** The part of the PDF branch after its early [return]. *)
Definition splitAndSubmit (fileToProcess : File) : Prog unit :=
  upd (SetStatusMessage (Some "Splitting PDF into OCR-safe chunks...")) ;;
  split <- liftFuel (splitPdfForOcr plat fileToProcess) ;;
  let chunks := fst split in
  let pageCount := snd split in
  (if (OCR_PDF_PAGE_LIMIT <? pageCount)%nat
   then upd (SetStatusMessage (Some
          ("PDF has " ++ Js.showNat pageCount ++ " pages. Processing "
           ++ Js.showNat (length chunks) ++ " chunks...")))
   else Ret tt) ;;
  chunkTexts <- submitChunks (length chunks) 0 chunks [] ;;
  upd (SetText (mergeTexts chunkTexts)).

(** The body of the [try] block. *)
Definition processBody (fileToProcess : File) : Prog unit :=
  if Js.startsWith (type fileToProcess) "image/" then
    preparedImage <- liftResult (compressImageForOcr plat fileToProcess) ;;
    upd (SetStatusMessage (Some
      (if (size preparedImage =? size fileToProcess)%N
       then "Processing image..."
       else "Image compressed. Running OCR..."))) ;;
    imageText <- submitFileToOcr preparedImage ;;
    upd (SetText imageText)
  else if String.eqb (type fileToProcess) "application/pdf" then
    let needsSplitBySize := (OCR_PDF_LIMIT_BYTES <? size fileToProcess)%N in
    if negb needsSplitBySize then
      pageCount <- liftResult (match pdfLoad plat fileToProcess with
                               | inl msg => Err msg
                               | inr n => Ok n
                               end) ;;
      if (pageCount <=? OCR_PDF_PAGE_LIMIT)%nat then
        upd (SetStatusMessage (Some "Processing PDF...")) ;;
        pdfText <- submitFileToOcr fileToProcess ;;
        upd (SetText pdfText)
      else splitAndSubmit fileToProcess
    else splitAndSubmit fileToProcess
  else Throw "Unsupported file type. Please upload an image or PDF.".

Definition processOCR (fileToProcess : option File) : Prog unit :=
  match fileToProcess with
  | None => Ret tt
  | Some f =>
      upd (SetIsProcessing true) ;;
      upd (SetStatusMessage (Some "Preparing file...")) ;;
      upd (SetError None) ;;
      tryFinally
        (tryCatch (processBody f) (fun message => upd (SetError (Some message))))
        (upd (SetIsProcessing false) ;; upd (SetStatusMessage None))
  end.

(** [onDrop], without the preview. *)
Definition onDrop (acceptedFiles : list File) : Prog unit :=
  match acceptedFiles with
  | selectedFile :: _ =>
      upd (SetFile (Some selectedFile)) ;;
      upd (SetError None) ;;
      upd (SetText "")
  | [] => Ret tt
  end.

End Pipeline.

(** ** Running a program to its end *)

Inductive Event : Type :=
| EvUpd (u : Update)
| EvFetch (body : File)
| EvSleep (ms : N).

(** The state of the component, the number of requests sent so far, and
    everything that happened, oldest first. *)
Record World : Type := mkWorld {
  ui : AppState;
  calls : nat;
  trace : list Event
}.

(** The boundary: what the n-th request (counted from 0) settles to. *)
Definition Network := nat -> File -> FetchResult.

Definition initialWorld : World :=
  {| ui := initialState; calls := 0; trace := [] |}.

(** One run with nothing else happening in between.  [None] is a program
    that never settles. *)
Fixpoint run {A} (net : Network) (p : Prog A) (w : World) : option (Result A) * World :=
  match p with
  | Ret a => (Some (Ok a), w)
  | Throw m => (Some (Err m), w)
  | Hang => (None, w)
  | Upd u k =>
      run net k {| ui := apply u (ui w); calls := calls w;
                   trace := trace w ++ [EvUpd u] |}
  | Fetch body k =>
      run net (k (net (calls w) body))
        {| ui := ui w; calls := S (calls w); trace := trace w ++ [EvFetch body] |}
  | Sleep ms k =>
      run net k {| ui := ui w; calls := calls w; trace := trace w ++ [EvSleep ms] |}
  end.

(** The requests of a trace, in order. *)
Fixpoint requests (tr : list Event) : list File :=
  match tr with
  | [] => []
  | EvFetch body :: rest => body :: requests rest
  | _ :: rest => requests rest
  end.

(** The requests and the [setText] calls of a trace, in order. *)
Fixpoint submissionsAndTexts (tr : list Event) : list Event :=
  match tr with
  | [] => []
  | EvFetch body :: rest => EvFetch body :: submissionsAndTexts rest
  | EvUpd (SetText t) :: rest => EvUpd (SetText t) :: submissionsAndTexts rest
  | _ :: rest => submissionsAndTexts rest
  end.

(** The status messages of a trace, in order. *)
Fixpoint statusMessages (tr : list Event) : list (option string) :=
  match tr with
  | [] => []
  | EvUpd (SetStatusMessage m) :: rest => m :: statusMessages rest
  | _ :: rest => statusMessages rest
  end.

(** ** Runs that overlap *)

(** The synchronous stretch of a program: state setters up to the next
    point where it is suspended or ends. *)
Fixpoint advance {A} (p : Prog A) (s : AppState) : Prog A * AppState :=
  match p with
  | Upd u k => advance k (apply u s)
  | _ => (p, s)
  end.

(** A call of [processOCR] in flight.  [generation] is not in the code:
    it numbers the calls, for the statements about superseded runs. *)
Record Task : Type := mkTask {
  generation : nat;
  code : Prog unit
}.

(** The page: the component state, the calls of [processOCR] made so
    far, and the number of the latest one. *)
Record Session : Type := mkSession {
  view : AppState;
  tasks : list Task;
  current : nat
}.

(** The page after its first render.  (The effect of that render calls
    [processOCR(null)], which returns at once; it is not listed.) *)
Definition initialSession : Session :=
  {| view := initialState; tasks := []; current := 0 |}.

Inductive Input : Type :=
| Drop (f : File)                        (* the user selects a file *)
| Clear                                  (* the user presses Clear *)
| Deliver (task : nat) (res : FetchResult)  (* the fetch of a task settles *)
| Wake (task : nat).                     (* the timer of a task fires *)

Fixpoint replaceNth {A} (n : nat) (x : A) (l : list A) : list A :=
  match l, n with
  | [], _ => []
  | _ :: rest, O => x :: rest
  | y :: rest, S n' => y :: replaceNth n' x rest
  end.

Section Page.

Variable plat : Platform.

(** [onDrop] runs, the component renders with the new [file], and the
    effect [useEffect(() => { void processOCR(file) }, [file, processOCR])]
    starts a call, which runs up to its first suspension. *)
Definition selectFile (f : File) (sess : Session) : Session :=
  let s1 := snd (advance (onDrop [f]) (view sess)) in
  let started := advance (processOCR plat (file s1)) s1 in
  {| view := snd started;
     tasks := (tasks sess ++ [{| generation := S (current sess); code := fst started |}])%list;
     current := S (current sess) |}.

Definition resume (i : nat) (g : nat) (p : Prog unit) (sess : Session) : Session :=
  let continued := advance p (view sess) in
  {| view := snd continued;
     tasks := replaceNth i {| generation := g; code := fst continued |} (tasks sess);
     current := current sess |}.

(** [clearAll], without the preview. *)
Definition clearAll : Prog unit :=
  bind (upd (SetFile None)) (fun _ =>
  bind (upd (SetText "")) (fun _ =>
  bind (upd (SetStatusMessage None)) (fun _ =>
  upd (SetError None)))).

(** The Clear button: [clearAll] runs, the component renders without a
    file, and the effect calls [processOCR(null)]. *)
Definition clearFile (sess : Session) : Session :=
  let s1 := snd (advance clearAll (view sess)) in
  let started := advance (processOCR plat (file s1)) s1 in
  {| view := snd started;
     tasks := (tasks sess ++ [{| generation := S (current sess); code := fst started |}])%list;
     current := S (current sess) |}.

(** One thing happens to the page.  The drop zone is rendered only
    while no file is set ([{!file ? <div {...getRootProps()}> ...]), and
    the Clear button only while one is ([{file && <button
    onClick={clearAll}> ...]); a fetch or a timer settles for the task
    that is waiting for it. *)
Definition react (sess : Session) (input : Input) : Session :=
  match input with
  | Drop f =>
      match file (view sess) with
      | None => selectFile f sess
      | Some _ => sess
      end
  | Clear =>
      match file (view sess) with
      | Some _ => clearFile sess
      | None => sess
      end
  | Deliver i res =>
      match nth_error (tasks sess) i with
      | Some {| generation := g; code := Fetch _ k |} => resume i g (k res) sess
      | _ => sess
      end
  | Wake i =>
      match nth_error (tasks sess) i with
      | Some {| generation := g; code := Sleep _ k |} => resume i g k sess
      | _ => sess
      end
  end.

Definition play (inputs : list Input) : Session := fold_left react inputs initialSession.

End Page.

(** ** Vocabulary of the statements *)

(** The chunks [chunks] cover the pages from [cursor] up to [total]: each
    holds a non-empty run of consecutive pages, and the next starts where
    it ends. *)
Fixpoint partitionFrom (cursor total : nat) (chunks : list File) : Prop :=
  match chunks with
  | [] => cursor = total
  | chunk :: rest =>
      exists end_ : nat,
        cursor < end_ /\ end_ <= total /\
        pageIndexesOf chunk = seq cursor (end_ - cursor) /\
        partitionFrom end_ total rest
  end.

(** A chunk fits the target budget, or is one page within the hard limit. *)
Definition withinBudget (chunk : File) : Prop :=
  (size chunk <= PDF_CHUNK_TARGET_BYTES)%N \/
  (length (pageIndexesOf chunk) = 1 /\ (size chunk <= OCR_PDF_LIMIT_BYTES)%N).

(** The chunk the inner loop of [splitPdfForOcr] ends with when the outer
    loop is at [cursor]. *)
Definition candidate (plat : Platform) (file : File) (pageCount cursor partNumber : nat)
  : option (nat * File) :=
  let end0 := Nat.min (cursor + PDF_CHUNK_MAX_PAGES) pageCount in
  shrinkLoop plat (end0 - cursor) file cursor partNumber end0
    (createPdfChunk plat file cursor end0 (name file) partNumber).

(** The values of [chunks], [cursor] and [partNumber] at the head of the
    outer loop of [splitPdfForOcr], iteration after iteration. *)
Inductive Visited (plat : Platform) (file : File) (pageCount : nat)
  : list File -> nat -> nat -> Prop :=
| VisitedFirst : Visited plat file pageCount [] 0 1
| VisitedNext chunks cursor partNumber end_ chunk :
    Visited plat file pageCount chunks cursor partNumber ->
    cursor < pageCount ->
    candidate plat file pageCount cursor partNumber = Some (end_, chunk) ->
    (size chunk <= OCR_PDF_LIMIT_BYTES)%N ->
    Visited plat file pageCount (chunks ++ [chunk]) end_ (partNumber + 1).

(** The combinations of the image compressor in the order the two nested
    loops try them. *)
Definition attempts : list (Tenths * Tenths) := list_prod scales qualities.

(** Given the size [enc scale quality] of each encoding: the combination
    is within the image budget, and the file the compressor builds of it. *)
Definition fits (enc : Tenths -> Tenths -> N) (a : Tenths * Tenths) : bool :=
  (enc (fst a) (snd a) <=? OCR_IMAGE_LIMIT_BYTES)%N.

Definition encoded (plat : Platform) (file : File) (image : Image)
    (enc : Tenths -> Tenths -> N) (a : Tenths * Tenths) : File :=
  compressedFile file (canvasFor plat image (fst a)) (snd a) (enc (fst a) (snd a)).

(** A message names chunk [k] of [n] only if the decimal numerals of [k]
    and of [n] occur in it. *)
Definition referencesChunk (k n : nat) (message : string) : bool :=
  Js.includes message (Js.showNat k) && Js.includes message (Js.showNat n).

(** What the end of a run does to the state: the result is stored by
    [setText] or [setError], then the [finally] block runs. *)
Definition commit (outcome : Result string) (s : AppState) : AppState :=
  let s' := match outcome with
            | Ok t => apply (SetText t) s
            | Err message => apply (SetError (Some message)) s
            end in
  apply (SetStatusMessage None) (apply (SetIsProcessing false) s').

(** What a program does, apart from the state it starts in: how it ends
    and the events it causes, oldest first, when [call] requests were
    sent before it.  (A program never reads the component state.) *)
Fixpoint exec {A} (net : Network) (p : Prog A) (call : nat)
  : option (Result A) * list Event :=
  match p with
  | Ret a => (Some (Ok a), [])
  | Throw m => (Some (Err m), [])
  | Hang => (None, [])
  | Upd u k => let r := exec net k call in (fst r, EvUpd u :: snd r)
  | Fetch body k =>
      let r := exec net (k (net call body)) (S call) in (fst r, EvFetch body :: snd r)
  | Sleep ms k => let r := exec net k call in (fst r, EvSleep ms :: snd r)
  end.

(** The state after the setters of a trace. *)
Fixpoint replay (tr : list Event) (s : AppState) : AppState :=
  match tr with
  | [] => s
  | EvUpd u :: rest => replay rest (apply u s)
  | _ :: rest => replay rest s
  end.

(** The world after the events [tr]. *)
Definition extend (w : World) (tr : list Event) : World :=
  {| ui := replay tr (ui w);
     calls := calls w + length (requests tr);
     trace := (trace w ++ tr)%list |}.

(** What the submitter makes of the answers to [files], sent in order
    from request number [call] on. *)
Fixpoint responses (plat : Platform) (net : Network) (call : nat) (files : list File)
  : list (Result string) :=
  match files with
  | [] => []
  | f :: rest => readOcrResponse plat (net call f) :: responses plat net (S call) rest
  end.

(** The events of the chunk loop for the chunks [files], entered at
    index [i], when every submission succeeds. *)
Fixpoint loopTrace (chunks_length i : nat) (files : list File) : list Event :=
  match files with
  | [] => []
  | chunk :: rest =>
      EvUpd (SetStatusMessage (Some (chunkStatus i chunks_length)))
      :: EvFetch chunk
      :: ((if (i <? chunks_length - 1)%nat then [EvSleep 250] else [])
          ++ loopTrace chunks_length (i + 1) rest)%list
  end.

(** The events of [processOCR] before and after its [try] block, and of
    the PDF branch before its chunk loop. *)
Definition prologue : list Event :=
  [EvUpd (SetIsProcessing true);
   EvUpd (SetStatusMessage (Some "Preparing file..."));
   EvUpd (SetError None)].

Definition epilogue : list Event :=
  [EvUpd (SetIsProcessing false); EvUpd (SetStatusMessage None)].

Definition splitStatus (pageCount chunks_length : nat) : list Event :=
  EvUpd (SetStatusMessage (Some "Splitting PDF into OCR-safe chunks..."))
  :: (if (OCR_PDF_PAGE_LIMIT <? pageCount)%nat
      then [EvUpd (SetStatusMessage (Some
              ("PDF has " ++ Js.showNat pageCount ++ " pages. Processing "
               ++ Js.showNat chunks_length ++ " chunks...")))]
      else []).

(** The name [createPdfChunk] gives part [partNumber] of a file. *)
Definition partName (fileName : string) (partNumber : nat) : string :=
  replaceExtension fileName ("part-" ++ Js.showNat partNumber ++ ".pdf").

(** A file that is submitted as it is: an image within the image budget,
    or a PDF within the byte and the page budget. *)
Definition singleSubmission (plat : Platform) (f : File) : Prop :=
  (Js.startsWith (type f) "image/" = true /\ (size f <= OCR_IMAGE_LIMIT_BYTES)%N)
  \/ (type f = "application/pdf" /\ (size f <= OCR_PDF_LIMIT_BYTES)%N
      /\ exists n, pdfLoad plat f = inr n /\ n <= OCR_PDF_PAGE_LIMIT).

(** A PDF that does not take the single-submission path. *)
Definition needsSplit (plat : Platform) (f : File) : Prop :=
  (OCR_PDF_LIMIT_BYTES < size f)%N \/
  exists pageCount, pdfLoad plat f = inr pageCount /\ OCR_PDF_PAGE_LIMIT < pageCount.

(** *** Runs in flight *)

(** The [try] block of [processOCR] with its [catch] and its [finally],
    around what is left of the body of the [try]. *)
Definition guarded (body : Prog unit) : Prog unit :=
  tryFinally
    (tryCatch body (fun message => upd (SetError (Some message))))
    (bind (upd (SetIsProcessing false)) (fun _ => upd (SetStatusMessage None))).

(** A run that waits for the answer to its only submission: that of an
    image, compressed or not, or of a PDF sent as it is. *)
Definition awaitSingle (plat : Platform) (body : File) : Prog unit :=
  Fetch body (fun res =>
    guarded (bind (liftResult (readOcrResponse plat res)) (fun t => upd (SetText t)))).

(** The chunk loop entered at index [i], followed by the merge. *)
Definition loopFrom (plat : Platform) (chunks_length i : nat) (rest : list File)
    (chunkTexts : list string) : Prog unit :=
  bind (submitChunks plat chunks_length i rest chunkTexts)
    (fun texts => upd (SetText (mergeTexts texts))).

(** A run that waits for the answer to the chunk of index [i]; [rest]
    are the chunks after it and [chunkTexts] the texts of those before. *)
Definition awaitChunk (plat : Platform) (chunks_length i : nat) (chunk : File)
    (rest : list File) (chunkTexts : list string) : Prog unit :=
  Fetch chunk (fun res =>
    guarded
      (bind
         (bind (liftResult (readOcrResponse plat res))
            (fun chunkText =>
               bind (if (i <? chunks_length - 1)%nat then sleep 250 else Ret tt)
                 (fun _ =>
                    submitChunks plat chunks_length (i + 1) rest
                      (chunkTexts ++ [chunkText])%list)))
         (fun texts => upd (SetText (mergeTexts texts))))).

(** A run that pauses before the chunk of index [i]. *)
Definition pausing (plat : Platform) (chunks_length i : nat) (rest : list File)
    (chunkTexts : list string) : Prog unit :=
  Sleep 250 (guarded (loopFrom plat chunks_length i rest chunkTexts)).

(** The chunks the loop submits when the answers are those of [net]:
    each chunk in turn, up to and including the first one whose
    submission fails. *)
Fixpoint submitted (plat : Platform) (net : Network) (call : nat) (chunks : list File)
  : list File :=
  match chunks with
  | [] => []
  | chunk :: rest =>
      chunk :: match readOcrResponse plat (net call chunk) with
               | Ok _ => submitted plat net (S call) rest
               | Err _ => []
               end
  end.

(** The excerpt of a body in the message about a response that is not
    JSON. *)
Definition excerptOf (bodyText : string) : string :=
  if (MAX_ERROR_BODY_LENGTH <? String.length bodyText)%nat
  then Js.slice0 bodyText MAX_ERROR_BODY_LENGTH ++ Js.ellipsis
  else bodyText.

(** The value of [data] in [submitFileToOcr] once the body is read:
    what [JSON.parse] made of the body, or the object that holds the
    message about a response that is not JSON. *)
Definition dataOf (plat : Platform) (response : Response) : Json.Value :=
  let nonJson :=
    Json.JObject
      [("error", Json.JString ("Non-JSON response: " ++ excerptOf (bodyText response)))] in
  if Js.includes (Js.orElse (contentType response) "") "application/json"
  then match jsonParse plat (bodyText response) with
       | Some parsed => parsed
       | None => nonJson
       end
  else nonJson.

(** [ (HTTP status)] *)
Definition statusHint (response : Response) : string :=
  " (HTTP " ++ Js.showN (status response) ++ ")".

(** ** Sample inputs *)

Module Sample.

Definition MiB : N := 1024 * 1024.

Definition quote : string := String (ascii_of_nat 34) EmptyString.

(** A reader of the JSON texts of the samples: [null], and objects whose
    members are strings without quotes, backslashes or control
    characters, under distinct keys and without white space, such as
    [{"text":"..."}] and [{"error":"...","code":"..."}]. *)
Inductive Scan : Type :=
| KeyOpen                          (* a key is to start *)
| InKey (key : string)
| Colon (key : string)             (* the colon is to come *)
| ValueOpen (key : string)         (* the value is to start *)
| InValue (key value : string)
| Separator                        (* a comma or the closing brace is to come *)
| Closed.

Fixpoint scan (state : Scan) (members : list (string * Json.Value)) (s : string)
  : option Json.Value :=
  match s with
  | EmptyString =>
      match state with
      | Closed => Some (Json.JObject members)
      | _ => None
      end
  | String c rest =>
      match state with
      | KeyOpen =>
          if Ascii.eqb c (ascii_of_nat 34) then scan (InKey "") members rest else None
      | InKey key =>
          if Ascii.eqb c (ascii_of_nat 34) then scan (Colon key) members rest
          else if Ascii.eqb c (ascii_of_nat 92) then None
          else scan (InKey (key ++ String c "")) members rest
      | Colon key =>
          if Ascii.eqb c ":" then scan (ValueOpen key) members rest else None
      | ValueOpen key =>
          if Ascii.eqb c (ascii_of_nat 34) then scan (InValue key "") members rest else None
      | InValue key value =>
          if Ascii.eqb c (ascii_of_nat 34)
          then scan Separator (members ++ [(key, Json.JString value)])%list rest
          else if Ascii.eqb c (ascii_of_nat 92) then None
          else scan (InValue key (value ++ String c "")) members rest
      | Separator =>
          if Ascii.eqb c "," then scan KeyOpen members rest
          else if Ascii.eqb c "}" then scan Closed members rest
          else None
      | Closed => None
      end
  end.

Definition parse (s : string) : option Json.Value :=
  if String.eqb s "null" then Some Json.JNull
  else if String.eqb s "{}" then Some (Json.JObject [])
  else
    match s with
    | String c rest => if Ascii.eqb c "{" then scan KeyOpen [] rest else None
    | EmptyString => None
    end.

(** A platform on which every image is 4000 by 3000 pixels and encodes to
    [width * height * quality / 10] bytes, and every PDF has [pages]
    pages of [pageBytes] bytes each. *)
Definition platform (pages : nat) (pageBytes : N) : Platform :=
  {| decodeImage := fun _ => Some {| naturalWidth := 4000; naturalHeight := 3000 |};
     roundScaled := fun n t => ((n * t + 5) / 10)%N;
     getContext2d := fun _ => true;
     toBlob := fun _ canvas quality => Some (width canvas * height canvas * quality / 10)%N;
     pdfLoad := fun _ => inr pages;
     savedSize := fun _ idx => (pageBytes * N.of_nat (length idx))%N;
     jsonParse := parse;
     nullAccess := fun key => "Cannot read properties of null (reading '" ++ key ++ "')";
     notPrimitive := "Cannot convert object to primitive value" |}.

(** The chunks of a split, none when it fails. *)
Definition chunksOf (plat : Platform) (f : File) : list File :=
  match splitPdfForOcr plat f with
  | Some (Ok (chunks, _)) => chunks
  | _ => []
  end.

Definition png (bytes : N) : File :=
  {| name := "scan.png"; type := "image/png"; size := bytes; blob := UserBlob 1 |}.

Definition pdf (bytes : N) : File :=
  {| name := "book.pdf"; type := "application/pdf"; size := bytes; blob := UserBlob 2 |}.

Definition json : option string := Some "application/json".

Definition textBody (t : string) : string :=
  "{" ++ quote ++ "text" ++ quote ++ ":" ++ quote ++ t ++ quote ++ "}".

Definition errorBody (e : string) : string :=
  "{" ++ quote ++ "error" ++ quote ++ ":" ++ quote ++ e ++ quote ++ "}".

Definition okText (t : string) : FetchResult :=
  Resolved {| status := 200; contentType := json; bodyText := textBody t |}.

Definition failure (code : N) (e : string) : FetchResult :=
  Resolved {| status := code; contentType := json; bodyText := errorBody e |}.

(** A boundary that answers the first three requests with the texts
    [one], the empty text and [three]. *)
Definition answersAll : Network :=
  fun call _ =>
    match call with
    | 0 => okText "one"
    | 1 => okText ""
    | _ => okText "three"
    end.

(** A boundary whose second answer is an HTTP 500. *)
Definition failsSecond : Network :=
  fun call _ =>
    match call with
    | 1 => failure 500 "Internal server error"
    | _ => okText "page"
    end.

(** A three-page PDF of 60 MiB whose pages take 46 MiB each, and its
    three one-page chunks. *)
Definition threePages : Platform := platform 3 (46 * MiB).

Definition book : File := pdf (60 * MiB).

Definition part (n : nat) : File := createPdfChunk threePages book (n - 1) n "book.pdf" n.

End Sample.

(** ** Further vocabulary *)

(** Every character of a string passes a test. *)
Fixpoint allChars (p : ascii -> bool) (s : string) : bool :=
  match s with
  | EmptyString => true
  | String c rest => p c && allChars p rest
  end.

Definition notDot (c : ascii) : bool := negb (Ascii.eqb c ".").

(** A character of the class [[^/.]] of the extension pattern. *)
Definition plainChar (c : ascii) : bool :=
  negb (Ascii.eqb c ".") && negb (Ascii.eqb c "/").

(** What the extension pattern takes for an extension after the last
    dot: one character or more, none of them a dot or a slash. *)
Definition isExtension (ext : string) : bool :=
  Js.truthy ext && allChars plainChar ext.

(** ** The rest of the page *)

(** The name [downloadText] gives the download:
    [`${file?.name.replace(/\.[^/.]+$/, "") || "extracted"}.md`]. *)
Definition downloadName (s : AppState) : string :=
  (match file s with
   | Some f =>
       let stem := Js.dropExtension (name f) in
       if Js.truthy stem then stem else "extracted"
   | None => "extracted"
   end) ++ ".md".

(** The requests and the pauses of a trace, in order. *)
Fixpoint requestsAndSleeps (tr : list Event) : list Event :=
  match tr with
  | [] => []
  | EvFetch body :: rest => EvFetch body :: requestsAndSleeps rest
  | EvSleep ms :: rest => EvSleep ms :: requestsAndSleeps rest
  | _ :: rest => requestsAndSleeps rest
  end.

(** Files sent one after the other with a pause of 250 ms between two
    of them. *)
Fixpoint paced (files : list File) : list Event :=
  match files with
  | [] => []
  | f :: rest =>
      EvFetch f :: match rest with
                   | [] => []
                   | _ :: _ => EvSleep 250 :: paced rest
                   end
  end.

(** ** The route handler *)

Module Route.

Definition MAX_ERROR_TEXT_LENGTH : nat := 2000.
Definition MAX_IMAGE_SIZE_BYTES : N := 10 * 1024 * 1024.
Definition MAX_PDF_SIZE_BYTES : N := 50 * 1024 * 1024.

(** [function hasMessage(v: unknown): v is { message: string }] *)
Definition hasMessage (v : Json.Value) : bool :=
  match v with
  | Json.JObject members =>
      match Json.lookup "message" members with
      | Some (Json.JString _) => true
      | _ => false
      end
  | _ => false
  end.

(** What the handler is run in: the environment variable, the bytes of
    an uploaded file, [btoa] of a binary string, what a template literal
    makes of a property a plain object inherits, the upstream OCR
    service called with the key and the data URL, [JSON.parse], and the
    messages of the errors the engine throws. *)
Record Env : Type := mkEnv {
  apiKey : option string;                 (* process.env.ZAI_API_KEY *)
  arrayBuffer : File -> list Byte.byte;   (* await file.arrayBuffer() *)
  btoa : list Byte.byte -> string;
  inherited : string -> option string;
    (* what a plain object gives, through its prototype, under a key
       that is not its own: Some s when the value is truthy, s being
       what a template literal makes of it; None when there is none or
       it is falsy *)
  upstream : string -> string -> Result (N * string);
    (* the fetch: the message of its rejection, or the status and the
       body of the response *)
  parse : string -> option Json.Value;    (* JSON.parse, None when it throws *)
  syntaxError : string -> string;         (* message of the error of json() *)
  nullAccess : string                     (* message of reading a property of null *)
}.

(** What the handler answers: [NextResponse.json(body, { status })]. *)
Inductive Body : Type :=
| ErrorBody (error : string) (code : option string) (details : option string)
    (limits : bool)
| ResultBody (text : Json.Value) (id usage : option Json.Value).

Record Answer : Type := mkAnswer {
  answerStatus : N;
  answerBody : Body
}.

Definition chunkSize : nat := 32 * 256.   (* 0x2000 *)

(** [for (let j = 0; j < subArray.length; j += 1)]; [chunk] is a binary
    string, and [String.fromCharCode(b)] the string of the one unit [b]. *)
Fixpoint innerLoop (subArray : list Byte.byte) (chunk : list Byte.byte) : list Byte.byte :=
  match subArray with
  | [] => chunk
  | b :: rest => innerLoop rest (chunk ++ [b])%list
  end.

(** [for (let i = 0; i < bytes.length; i += chunkSize)]; [None] when
    [fuel] iterations do not reach the end of the loop. *)
Fixpoint outerLoop (fuel : nat) (bytes : list Byte.byte) (i : nat)
    (binary : list Byte.byte) : option (list Byte.byte) :=
  if (i <? length bytes)%nat
  then
    match fuel with
    | O => None
    | S fuel' =>
        let subArray := firstn chunkSize (skipn i bytes) in
        let chunk := innerLoop subArray [] in
        outerLoop fuel' bytes (i + chunkSize) (binary ++ chunk)%list
    end
  else Some binary.

(** [arrayBufferToBase64], with one unit of fuel per byte. *)
Definition arrayBufferToBase64 (env : Env) (buffer : list Byte.byte) : option string :=
  option_map (btoa env) (outerLoop (length buffer) buffer 0 []).

(** [c.toLowerCase()] for one code unit of the model: the letters A to
    Z, and the letters U+00C0 to U+00DE but for the multiplication sign
    U+00D7, are moved by 32; every other one is left as it is. *)
Definition lowerChar (c : ascii) : ascii :=
  let n := nat_of_ascii c in
  if ((65 <=? n) && (n <=? 90))%nat then ascii_of_nat (n + 32)
  else if ((192 <=? n) && (n <=? 222) && negb (n =? 215))%nat then ascii_of_nat (n + 32)
  else c.

Fixpoint toLowerCase (s : string) : string :=
  match s with
  | EmptyString => EmptyString
  | String c rest => String (lowerChar c) (toLowerCase rest)
  end.

(** [name.split('.').pop()]: what follows the last dot, the whole name
    when there is none.  [seg] is the segment read so far. *)
Fixpoint lastSegment (s seg : string) : string :=
  match s with
  | EmptyString => seg
  | String c rest =>
      if Ascii.eqb c "." then lastSegment rest EmptyString
      else lastSegment rest (seg ++ String c EmptyString)
  end.

(** [mimeTypes[key]] as the template literal of the data URL shows it;
    [None] is [undefined].  The table is a plain object: under a key
    that is none of its own it gives what its prototype has there. *)
Definition mimeTypes (env : Env) (key : string) : option string :=
  if String.eqb key "png" then Some "image/png"
  else if String.eqb key "jpg" then Some "image/jpeg"
  else if String.eqb key "jpeg" then Some "image/jpeg"
  else if String.eqb key "webp" then Some "image/webp"
  else if String.eqb key "pdf" then Some "application/pdf"
  else inherited env key.

(** The part of [POST] headed "Determine mime type". *)
Definition mimeTypeOf (env : Env) (file : File) : string :=
  let mimeType := type file in
  if negb (Js.truthy mimeType) || String.eqb mimeType "application/octet-stream"
  then
    let ext := toLowerCase (lastSegment (name file) EmptyString) in
    match mimeTypes env ext with
    | Some found => found
    | None => "image/png"
    end
  else mimeType.

Definition maxSizeOf (file : File) : N :=
  if String.eqb (type file) "application/pdf" then MAX_PDF_SIZE_BYTES
  else MAX_IMAGE_SIZE_BYTES.

Definition plainError (status : N) (message : string) : Answer :=
  {| answerStatus := status; answerBody := ErrorBody message None None false |}.

(** The branch [if (!ocrResponse.ok)]. *)
Definition upstreamFailure (env : Env) (status : N) (errorText : string) : Answer :=
  let errorMessage :=
    if Js.truthy errorText
    then match parse env errorText with
         | Some parsed =>
             if hasMessage parsed
             then match Json.member "message" parsed with
                  | Some (Json.JString m) => Some m
                  | _ => None
                  end
             else None
         | None => None
         end
    else None in
  let safeErrorText :=
    if negb (Js.truthy errorText) then ""
    else if (MAX_ERROR_TEXT_LENGTH <? String.length errorText)%nat
         then Js.slice0 errorText MAX_ERROR_TEXT_LENGTH ++ Js.ellipsis
         else errorText in
  {| answerStatus := status;
     answerBody :=
       ErrorBody
         (Js.orElse errorMessage (Js.orElse (Some safeErrorText) "OCR processing failed"))
         (Some "OCR_API_ERROR")
         (if Js.truthy safeErrorText then Some safeErrorText else None)
         false |}.

(** The end of [POST], after a successful upstream response. *)
Definition upstreamSuccess (env : Env) (body : string) : Answer :=
  match parse env body with
  | None => plainError 500 (syntaxError env body)
  | Some Json.JNull => plainError 500 (nullAccess env)
  | Some result =>
      {| answerStatus := 200;
         answerBody :=
           ResultBody
             (match Json.member "md_results" result with
              | Some v => if Json.truthy (Some v) then v else Json.JString ""
              | None => Json.JString ""
              end)
             (Json.member "id" result)
             (Json.member "usage" result) |}
  end.

(** [POST]; its argument is what [request.formData()] gives, or the
    message of the error it throws, and then [formData.get('file')].
    [None] only when the base64 loop is out of fuel. *)
Definition POST (env : Env) (formData : Result (option File)) : option Answer :=
  match formData with
  | Err message => Some (plainError 500 message)
  | Ok None => Some (plainError 400 "No file provided")
  | Ok (Some file) =>
      let isPdf := String.eqb (type file) "application/pdf" in
      if (maxSizeOf file <? size file)%N
      then Some {| answerStatus := 400;
                   answerBody :=
                     ErrorBody
                       ("File too large. Maximum size is " ++ (if isPdf then "50MB" else "10MB"))
                       (Some "FILE_TOO_LARGE") None true |}
      else
        match arrayBufferToBase64 env (arrayBuffer env file) with
        | None => None
        | Some base64 =>
            let dataUrl := "data:" ++ mimeTypeOf env file ++ ";base64," ++ base64 in
            match apiKey env with
            | None => Some (plainError 500 "API key not configured")
            | Some key =>
                if negb (Js.truthy key)
                then Some (plainError 500 "API key not configured")
                else
                  match upstream env key dataUrl with
                  | Err message => Some (plainError 500 message)
                  | Ok (status, body) =>
                      if negb ((200 <=? status) && (status <=? 299))%N
                      then Some (upstreamFailure env status body)
                      else Some (upstreamSuccess env body)
                  end
            end
        end
  end.

(** The error of a body, if it is an error body. *)
Definition errorOf (body : Body) : option string :=
  match body with
  | ErrorBody error _ _ _ => Some error
  | ResultBody _ _ _ => None
  end.





(** The excerpt of an upstream body in [safeErrorText]. *)
Definition excerptOf (errorText : string) : string :=
  if (MAX_ERROR_TEXT_LENGTH <? String.length errorText)%nat
  then Js.slice0 errorText MAX_ERROR_TEXT_LENGTH ++ Js.ellipsis
  else errorText.

(** The names under which the prototype of a plain object has a
    property and which [toLowerCase] can return: every other name it has
    holds a capital letter. *)
Definition prototypeKeys : list string := ["constructor"; "__proto__"].

End Route.

(** ** More sample inputs *)

Module Sample2.

Definition mdBody (t : string) : string :=
  "{" ++ Sample.quote ++ "md_results" ++ Sample.quote ++ ":" ++ Sample.quote ++ t
  ++ Sample.quote ++ "}".




(** [btoa] of a binary string of three units. *)
Definition digit64 (n : N) : ascii :=
  ascii_of_N (if (n <? 26) then 65 + n
              else if (n <? 52) then 97 + (n - 26)
              else if (n <? 62) then 48 + (n - 52)
              else if (n =? 62) then 43 else 47)%N.

Definition btoa (binary : list Byte.byte) : string :=
  match binary with
  | [a; b; c] =>
      let n := (Byte.to_N a * 65536 + Byte.to_N b * 256 + Byte.to_N c)%N in
      String (digit64 (n / 262144)%N)
        (String (digit64 ((n / 4096) mod 64)%N)
           (String (digit64 ((n / 64) mod 64)%N)
              (String (digit64 (n mod 64)%N) EmptyString)))
  | _ => ""
  end.

(** An environment with a key, in which every file holds the three
    bytes of "OCR", a plain object inherits [constructor] and
    [__proto__], and the upstream service answers [status] with
    [body]. *)
Definition env (status : N) (body : string) : Route.Env :=
  {| Route.apiKey := Some "secret";
     Route.arrayBuffer := fun _ => [Byte.x4f; Byte.x43; Byte.x52];
     Route.btoa := btoa;
     Route.inherited :=
       fun key =>
         if String.eqb key "constructor" then Some "function Object() { [native code] }"
         else if String.eqb key "__proto__" then Some "[object Object]"
         else None;
     Route.upstream := fun _ _ => Ok (status, body);
     Route.parse := Sample.parse;
     Route.syntaxError := fun _ => "Unexpected token";
     Route.nullAccess := "Cannot read properties of null (reading 'md_results')" |}.

(** A platform on which no image decodes. *)
Definition blind : Platform :=
  {| decodeImage := fun _ => None;
     roundScaled := fun n t => ((n * t + 5) / 10)%N;
     getContext2d := fun _ => true;
     toBlob := fun _ _ _ => None;
     pdfLoad := fun _ => inl "Failed to parse PDF document";
     savedSize := fun _ _ => 0%N;
     jsonParse := Sample.parse;
     nullAccess := fun key => "Cannot read properties of null (reading '" ++ key ++ "')";
     notPrimitive := "Cannot convert object to primitive value" |}.

End Sample2.

(** * Facts *)

Open Scope list_scope.
Open Scope nat_scope.

(** ** Lists *)

Lemma find_first (A : Type) (f : A -> bool) (pre : list A) (x : A) (post : list A) :
  f x = true ->
  (forall y, In y pre -> f y = false) ->
  find f (pre ++ x :: post) = Some x.
Proof.
  intros Hx. induction pre as [|y pre IH]; intros Hpre; simpl.
  - now rewrite Hx.
  - rewrite (Hpre y (or_introl eq_refl)). apply IH.
    intros z Hz. apply Hpre. now right.
Qed.

Lemma find_all_false (A : Type) (f : A -> bool) (l : list A) :
  (forall y, In y l -> f y = false) -> find f l = None.
Proof.
  induction l as [|y l IH]; intros H; simpl; [reflexivity|].
  rewrite (H y (or_introl eq_refl)). apply IH. intros z Hz. apply H. now right.
Qed.

Lemma find_app (A : Type) (f : A -> bool) (l1 l2 : list A) :
  find f (l1 ++ l2) =
  match find f l1 with
  | Some x => Some x
  | None => find f l2
  end.
Proof.
  induction l1 as [|y l1 IH]; simpl; [reflexivity|].
  destruct (f y); [reflexivity | exact IH].
Qed.

Lemma map_add_seq (start len : nat) :
  map (fun idx => start + idx) (seq 0 len) = seq start len.
Proof.
  revert start. induction len as [|len IH]; intros start; simpl; [reflexivity|].
  rewrite Nat.add_0_r. f_equal.
  rewrite <- seq_shift, map_map.
  rewrite <- (IH (S start)). apply map_ext. intros a. lia.
Qed.

(** ** Image compression *)

Section Compression.

Variables (plat : Platform) (file : File) (image : Image).
Variable enc : Tenths -> Tenths -> N.

Lemma qualityLoop_find (scale : Tenths) (qs : list Tenths) :
  (forall q, In q qs -> toBlob plat file (canvasFor plat image scale) q = Some (enc scale q)) ->
  qualityLoop plat file (canvasFor plat image scale) qs =
  Ok (option_map (encoded plat file image enc) (find (fits enc) (map (pair scale) qs))).
Proof.
  induction qs as [|q qs IH]; intros H; simpl; [reflexivity|].
  unfold canvasToBlob. rewrite (H q (or_introl eq_refl)). simpl.
  unfold fits at 1. simpl.
  destruct (enc scale q <=? OCR_IMAGE_LIMIT_BYTES)%N; [reflexivity|].
  apply IH. intros q' Hq'. apply H. now right.
Qed.

Lemma scaleLoop_find (ss : list Tenths) :
  (forall s, In s ss -> getContext2d plat (canvasFor plat image s) = true) ->
  (forall s q, In s ss -> In q qualities ->
     toBlob plat file (canvasFor plat image s) q = Some (enc s q)) ->
  scaleLoop plat file image ss =
  match find (fits enc) (list_prod ss qualities) with
  | Some a => Ok (encoded plat file image enc a)
  | None => Err tooLargeMessage
  end.
Proof.
  induction ss as [|s ss IH]; intros Hctx Henc; [reflexivity|].
  cbn [scaleLoop list_prod]. rewrite (Hctx s (or_introl eq_refl)). cbn [negb].
  rewrite qualityLoop_find by (intros q Hq; apply Henc; [now left | exact Hq]).
  rewrite find_app. cbn [rbind].
  destruct (find (fits enc) (map (pair s) qualities)) as [a|]; [reflexivity|].
  cbn [option_map]. apply IH.
  - intros s' Hs'. apply Hctx. now right.
  - intros s' q Hs' Hq. apply Henc; [now right | exact Hq].
Qed.

End Compression.

Lemma compressImageForOcr_small (plat : Platform) (file : File) :
  (size file <=? OCR_IMAGE_LIMIT_BYTES)%N = true ->
  compressImageForOcr plat file = Ok file.
Proof. intros H. unfold compressImageForOcr. now rewrite H. Qed.

(** C9.  An image whose size is at or under the 10 MiB image budget is
    returned by [compressImageForOcr] as it is: the very same file, with
    no decoding and no encoding (the platform is not consulted). *)
Theorem compressImageForOcr_within_budget (plat : Platform) (file : File) :
  (size file <= OCR_IMAGE_LIMIT_BYTES)%N ->
  compressImageForOcr plat file = Ok file.
Proof.
  intros H. apply compressImageForOcr_small. now apply N.leb_le.
Qed.

Lemma compressImageForOcr_within_budget_witness :
  compressImageForOcr (Sample.platform 0 0) (Sample.png (2 * Sample.MiB))
  = Ok (Sample.png (2 * Sample.MiB)).
Proof.
  apply (compressImageForOcr_within_budget (Sample.platform 0 0) (Sample.png (2 * Sample.MiB))).
  vm_compute. discriminate.
Defined.

(** C5.  For an image over the 10 MiB budget that decodes, on a platform
    that hands out a canvas context and an encoding for every attempt:
    the attempts are the scales 1, 0.9, 0.8, 0.7, 0.6 in the outer loop
    and the qualities 0.9, 0.8, 0.7, 0.6, 0.5 in the inner loop; the
    result is the encoding of the first attempt in that order whose size
    is at or under the budget (every attempt before it is over the
    budget); and when every attempt is over the budget the operation
    fails with the message asking for a manual resize. *)
Theorem compressImageForOcr_first_fit (plat : Platform) (file : File) (image : Image)
    (enc : Tenths -> Tenths -> N) :
  (OCR_IMAGE_LIMIT_BYTES < size file)%N ->
  decodeImage plat file = Some image ->
  (forall s, In s scales -> getContext2d plat (canvasFor plat image s) = true) ->
  (forall s q, In s scales -> In q qualities ->
     toBlob plat file (canvasFor plat image s) q = Some (enc s q)) ->
  attempts =
    [(10, 9); (10, 8); (10, 7); (10, 6); (10, 5);
     (9, 9); (9, 8); (9, 7); (9, 6); (9, 5);
     (8, 9); (8, 8); (8, 7); (8, 6); (8, 5);
     (7, 9); (7, 8); (7, 7); (7, 6); (7, 5);
     (6, 9); (6, 8); (6, 7); (6, 6); (6, 5)]%N
  /\ (forall pre scale quality post,
        attempts = pre ++ (scale, quality) :: post ->
        (enc scale quality <= OCR_IMAGE_LIMIT_BYTES)%N ->
        (forall s q, In (s, q) pre -> (OCR_IMAGE_LIMIT_BYTES < enc s q)%N) ->
        compressImageForOcr plat file =
        Ok {| name := replaceExtension (name file) "jpg";
              type := "image/jpeg";
              size := enc scale quality;
              blob := CanvasJpeg (blob file)
                        (N.max 1 (roundScaled plat (naturalWidth image) scale))
                        (N.max 1 (roundScaled plat (naturalHeight image) scale))
                        quality |})
  /\ ((forall s q, In (s, q) attempts -> (OCR_IMAGE_LIMIT_BYTES < enc s q)%N) ->
      compressImageForOcr plat file = Err tooLargeMessage).
Proof.
  intros Hsize Hdec Hctx Henc.
  assert (Hrun : compressImageForOcr plat file =
                 match find (fits enc) attempts with
                 | Some a => Ok (encoded plat file image enc a)
                 | None => Err tooLargeMessage
                 end).
  { unfold compressImageForOcr, loadImageElement.
    apply N.leb_gt in Hsize. rewrite Hsize, Hdec. cbn [rbind].
    now apply scaleLoop_find. }
  split; [reflexivity|]. split.
  - intros pre scale quality post Hsplit Hfit Hpre.
    rewrite Hrun, Hsplit, find_first; [reflexivity | |].
    + unfold fits. now apply N.leb_le.
    + intros [s q] Hin. unfold fits. apply N.leb_gt. now apply Hpre.
  - intros Hall. rewrite Hrun, find_all_false; [reflexivity|].
    intros [s q] Hin. unfold fits. apply N.leb_gt. now apply Hall.
Qed.

Lemma compressImageForOcr_first_fit_witness :
  compressImageForOcr (Sample.platform 0 0) (Sample.png (12 * Sample.MiB))
  = Ok {| name := "scan.jpg"; type := "image/jpeg"; size := 9600000;
          blob := CanvasJpeg (UserBlob 1) 4000 3000 8%N |}.
Proof.
  pose proof (compressImageForOcr_first_fit (Sample.platform 0 0)
                (Sample.png (12 * Sample.MiB))
                {| naturalWidth := 4000; naturalHeight := 3000 |}
                (fun s q => (N.max 1 ((4000 * s + 5) / 10)
                             * N.max 1 ((3000 * s + 5) / 10) * q / 10)%N)) as H.
  destruct H as [_ [Hfirst _]].
  - vm_compute. reflexivity.
  - reflexivity.
  - intros s _. reflexivity.
  - intros s q _ _. reflexivity.
  - apply (Hfirst [(10, 9)%N] 10%N 8%N
             (tl (tl attempts))).
    + reflexivity.
    + vm_compute. discriminate.
    + intros s q [Heq | []]. inversion Heq. vm_compute. reflexivity.
Defined.

(** ** PDF splitting *)

Section Split.

Variables (plat : Platform) (file : File) (pageCount : nat).

Lemma pageIndexesOf_createPdfChunk (startPage endPage : nat) (fileName : string) (part : nat) :
  pageIndexesOf (createPdfChunk plat file startPage endPage fileName part)
  = seq startPage (endPage - startPage).
Proof. unfold pageIndexesOf, createPdfChunk. simpl. apply map_add_seq. Qed.

(** The inner loop, given one unit of fuel per page it may drop, ends;
    it ends on a chunk of the pages from [cursor] to an end page that is
    past [cursor] and not past the one it started from; and that chunk
    fits the target or is a single page. *)
Lemma shrinkLoop_spec (fuel cursor part : nat) :
  forall end_ : nat,
    cursor < end_ -> end_ - cursor <= S fuel ->
    exists end' : nat,
      shrinkLoop plat fuel file cursor part end_
        (createPdfChunk plat file cursor end_ (name file) part)
      = Some (end', createPdfChunk plat file cursor end' (name file) part)
      /\ cursor < end' /\ end' <= end_
      /\ ((size (createPdfChunk plat file cursor end' (name file) part)
           <= PDF_CHUNK_TARGET_BYTES)%N
          \/ end' = cursor + 1).
Proof.
  induction fuel as [|fuel IH]; intros end_ Hlt Hfuel.
  - exists end_. cbn [shrinkLoop].
    replace (1 <? end_ - cursor) with false by (symmetry; apply Nat.ltb_ge; lia).
    rewrite andb_false_r. repeat split; try lia.
  - cbn [shrinkLoop].
    destruct (PDF_CHUNK_TARGET_BYTES <? size _)%N eqn:Hbig; cbn [andb].
    + destruct (1 <? end_ - cursor) eqn:Hmany.
      * apply Nat.ltb_lt in Hmany.
        destruct (IH (end_ - 1)) as [end' [Hrun [H1 [H2 H3]]]]; [lia | lia |].
        exists end'. rewrite Hrun. repeat split; try lia; try exact H3.
      * apply Nat.ltb_ge in Hmany. exists end_. repeat split; try lia.
    + apply N.ltb_ge in Hbig. exists end_. repeat split; try lia; try (now left).
Qed.

Lemma candidate_spec (cursor part : nat) :
  cursor < pageCount ->
  exists end_ : nat,
    candidate plat file pageCount cursor part
    = Some (end_, createPdfChunk plat file cursor end_ (name file) part)
    /\ cursor < end_ /\ end_ <= pageCount /\ end_ <= cursor + PDF_CHUNK_MAX_PAGES
    /\ ((size (createPdfChunk plat file cursor end_ (name file) part)
         <= PDF_CHUNK_TARGET_BYTES)%N
        \/ end_ = cursor + 1).
Proof.
  intros Hlt. unfold candidate.
  set (end0 := Nat.min (cursor + PDF_CHUNK_MAX_PAGES) pageCount).
  assert (Hend0 : cursor < end0 /\ end0 <= pageCount /\ end0 <= cursor + PDF_CHUNK_MAX_PAGES).
  { unfold end0, PDF_CHUNK_MAX_PAGES. lia. }
  destruct (shrinkLoop_spec (end0 - cursor) cursor part end0) as [end' [Hrun [H1 [H2 H3]]]];
    [lia | lia |].
  exists end'. rewrite Hrun. repeat split; try lia; try exact H3.
Qed.

Lemma splitLoop_step (fuel : nat) (chunks : list File) (cursor part : nat) :
  cursor < pageCount ->
  splitLoop plat (S fuel) file pageCount chunks cursor part =
  match candidate plat file pageCount cursor part with
  | None => None
  | Some (end_, chunk) =>
      if (OCR_PDF_LIMIT_BYTES <? size chunk)%N
      then Some (Err singlePageMessage)
      else splitLoop plat fuel file pageCount (chunks ++ [chunk]) end_ (part + 1)
  end.
Proof.
  intros Hlt. cbn [splitLoop].
  apply Nat.ltb_lt in Hlt. rewrite Hlt. reflexivity.
Qed.

Lemma splitLoop_done (fuel : nat) (chunks : list File) (cursor part : nat) :
  pageCount <= cursor ->
  splitLoop plat fuel file pageCount chunks cursor part = Some (Ok (chunks, pageCount)).
Proof.
  intros Hge. apply Nat.ltb_ge in Hge.
  destruct fuel; cbn [splitLoop]; now rewrite Hge.
Qed.

(** What the outer loop returns, given one unit of fuel per page left. *)
Lemma splitLoop_spec (fuel : nat) :
  forall (chunks : list File) (cursor part : nat),
    cursor <= pageCount -> pageCount - cursor <= fuel ->
    exists r,
      splitLoop plat fuel file pageCount chunks cursor part = Some r /\
      match r with
      | Ok (all, n) =>
          n = pageCount /\
          exists new, all = chunks ++ new
                      /\ partitionFrom cursor pageCount new
                      /\ Forall withinBudget new
      | Err message => message = singlePageMessage
      end.
Proof.
  induction fuel as [|fuel IH]; intros chunks cursor part Hle Hfuel.
  - rewrite splitLoop_done by lia. eexists. split; [reflexivity|].
    split; [reflexivity|]. exists []. rewrite app_nil_r.
    repeat split; [simpl; lia | constructor].
  - destruct (Nat.eq_dec cursor pageCount) as [Heq | Hne].
    + rewrite splitLoop_done by lia. eexists. split; [reflexivity|].
      split; [reflexivity|]. exists []. rewrite app_nil_r.
      repeat split; [simpl; lia | constructor].
    + rewrite splitLoop_step by lia.
      destruct (candidate_spec cursor part) as [end_ [Hc [H1 [H2 [H3 H4]]]]]; [lia|].
      rewrite Hc. set (chunk := createPdfChunk plat file cursor end_ (name file) part) in *.
      destruct (OCR_PDF_LIMIT_BYTES <? size chunk)%N eqn:Hhard.
      * eexists. split; reflexivity.
      * apply N.ltb_ge in Hhard.
        destruct (IH (chunks ++ [chunk]) end_ (part + 1)) as [r [Hrun Hr]]; [lia | lia |].
        exists r. split; [exact Hrun|].
        destruct r as [[all n] | message]; [|exact Hr].
        destruct Hr as [Hn [new [Hall [Hpart Hbudget]]]].
        split; [exact Hn|]. exists (chunk :: new).
        split; [now rewrite Hall, <- app_assoc|]. split.
        -- cbn [partitionFrom]. exists end_. repeat split; try lia; [|exact Hpart].
           apply pageIndexesOf_createPdfChunk.
        -- constructor; [|exact Hbudget]. unfold withinBudget.
           destruct H4 as [H4 | H4]; [now left | right]. split; [|exact Hhard].
           unfold chunk. rewrite pageIndexesOf_createPdfChunk, length_seq. lia.
Qed.

(** More fuel than one unit per page left changes nothing. *)
Lemma splitLoop_fuel (fuel : nat) :
  forall (fuel' : nat) (chunks : list File) (cursor part : nat),
    pageCount - cursor <= fuel -> pageCount - cursor <= fuel' ->
    splitLoop plat fuel file pageCount chunks cursor part
    = splitLoop plat fuel' file pageCount chunks cursor part.
Proof.
  induction fuel as [|fuel IH]; intros fuel' chunks cursor part H H'.
  - now rewrite !splitLoop_done by lia.
  - destruct (le_lt_dec pageCount cursor) as [Hge | Hlt].
    + now rewrite !splitLoop_done by lia.
    + destruct fuel' as [|fuel']; [lia|].
      rewrite !splitLoop_step by lia.
      destruct (candidate_spec cursor part) as [end_ [Hc [H1 _]]]; [lia|].
      rewrite Hc. destruct (OCR_PDF_LIMIT_BYTES <? size _)%N; [reflexivity|].
      apply IH; lia.
Qed.

(** From every head of the outer loop the run goes on as the loop does. *)
Lemma visited_run (chunks : list File) (cursor part : nat) :
  Visited plat file pageCount chunks cursor part ->
  cursor <= pageCount /\
  splitLoop plat pageCount file pageCount [] 0 1
  = splitLoop plat (pageCount - cursor) file pageCount chunks cursor part.
Proof.
  induction 1 as [|chunks cursor part end_ chunk Hv [IHle IHrun] Hlt Hc Hhard].
  - split; [lia|]. now rewrite Nat.sub_0_r.
  - destruct (candidate_spec cursor part) as [end' [Hc' [H1 [H2 _]]]]; [exact Hlt|].
    rewrite Hc in Hc'. injection Hc' as Hend Hchunk. subst end'.
    split; [exact H2|]. rewrite IHrun.
    replace (pageCount - cursor) with (S (pageCount - cursor - 1)) by lia.
    rewrite splitLoop_step, Hc by exact Hlt.
    apply N.leb_le in Hhard. rewrite N.ltb_antisym, Hhard. cbn [negb].
    apply splitLoop_fuel; lia.
Qed.

Lemma shrinkLoop_name (fuel cursor part : nat) :
  forall (end_ : nat) (chunk : File) (end' : nat) (chunk' : File),
    shrinkLoop plat fuel file cursor part end_ chunk = Some (end', chunk') ->
    name chunk = partName (name file) part ->
    name chunk' = partName (name file) part.
Proof.
  induction fuel as [|fuel IH]; intros end_ chunk end' chunk' Hrun Hname;
    cbn [shrinkLoop] in Hrun;
    destruct ((PDF_CHUNK_TARGET_BYTES <? size chunk)%N && (1 <? end_ - cursor));
    try discriminate; try (injection Hrun as _ Hc; now subst chunk').
  eapply IH; [exact Hrun | reflexivity].
Qed.

(** The chunks are named part 1, part 2, ... in the order they are made. *)
Lemma splitLoop_names (fuel : nat) :
  forall (chunks : list File) (cursor part : nat) (all : list File) (n : nat),
    splitLoop plat fuel file pageCount chunks cursor part = Some (Ok (all, n)) ->
    exists new,
      all = chunks ++ new /\
      map name new = map (partName (name file)) (seq part (length new)).
Proof.
  induction fuel as [|fuel IH]; intros chunks cursor part all n Hrun;
    cbn [splitLoop] in Hrun; destruct (cursor <? pageCount);
    try discriminate;
    try (injection Hrun as Hall _; exists []; now rewrite app_nil_r).
  destruct (shrinkLoop plat _ file cursor part _ _) as [[end_ chunk] |] eqn:Hshrink;
    [|discriminate].
  destruct (OCR_PDF_LIMIT_BYTES <? size chunk)%N; [discriminate|].
  destruct (IH _ _ _ _ _ Hrun) as [new [Hall Hnames]].
  exists (chunk :: new). split; [now rewrite Hall, <- app_assoc|].
  cbn [map length seq]. f_equal.
  - eapply shrinkLoop_name; [exact Hshrink | reflexivity].
  - now rewrite Hnames, Nat.add_1_r.
Qed.

End Split.

Lemma partitionFrom_concat (total : nat) (chunks : list File) :
  forall cursor : nat,
    partitionFrom cursor total chunks ->
    cursor <= total /\
    concat (map pageIndexesOf chunks) = seq cursor (total - cursor).
Proof.
  induction chunks as [|chunk rest IH]; intros cursor H; simpl in H.
  - subst. split; [lia|]. now rewrite Nat.sub_diag.
  - destruct H as [end_ [H1 [H2 [H3 H4]]]].
    destruct (IH end_ H4) as [_ IHc]. split; [lia|].
    cbn [map concat]. rewrite H3, IHc.
    replace (total - cursor) with ((end_ - cursor) + (total - end_)) by lia.
    rewrite seq_app. do 2 f_equal. lia.
Qed.

(** C1.  When [splitPdfForOcr] returns, the chunks partition the pages of
    the document: the first chunk starts at page 0, every chunk holds the
    pages from its start up to an end page past its start, the next chunk
    starts at that end page, and the last one ends at the page count; so
    the page indexes of the chunks, read in order, are 0, 1, ...,
    pageCount - 1, each page once.  The page count returned is the one
    of the loaded document. *)
Theorem splitPdfForOcr_partition (plat : Platform) (file : File)
    (chunks : list File) (pageCount : nat) :
  splitPdfForOcr plat file = Some (Ok (chunks, pageCount)) ->
  pdfLoad plat file = inr pageCount
  /\ partitionFrom 0 pageCount chunks
  /\ concat (map pageIndexesOf chunks) = seq 0 pageCount
  /\ NoDup (concat (map pageIndexesOf chunks))
  /\ (forall page, In page (concat (map pageIndexesOf chunks)) <-> page < pageCount).
Proof.
  unfold splitPdfForOcr. intros Hrun.
  destruct (pdfLoad plat file) as [message | n]; [discriminate|].
  destruct (splitLoop_spec plat file n n [] 0 1) as [r [Hr Hspec]]; [lia | lia |].
  rewrite Hr in Hrun. injection Hrun as Hrun. subst r.
  destruct Hspec as [Hn [new [Hall [Hpart _]]]]. simpl in Hall. subst new n.
  destruct (partitionFrom_concat pageCount chunks 0 Hpart) as [_ Hcat].
  rewrite Nat.sub_0_r in Hcat.
  repeat split; try assumption.
  - rewrite Hcat. apply seq_NoDup.
  - rewrite Hcat, in_seq. lia.
  - rewrite Hcat, in_seq. lia.
Qed.

Lemma splitPdfForOcr_partition_witness :
  concat (map pageIndexesOf
            (Sample.chunksOf (Sample.platform 120 Sample.MiB) (Sample.pdf (60 * Sample.MiB))))
  = seq 0 120.
Proof.
  destruct (splitPdfForOcr_partition (Sample.platform 120 Sample.MiB)
              (Sample.pdf (60 * Sample.MiB))
              (Sample.chunksOf (Sample.platform 120 Sample.MiB) (Sample.pdf (60 * Sample.MiB)))
              120)
    as [_ [_ [Hcat _]]].
  - vm_compute. reflexivity.
  - exact Hcat.
Defined.

(** C2.  Every chunk [splitPdfForOcr] returns is at most the 45 MiB
    target, or is a single page of at most the 50 MiB hard limit.  And
    when the outer loop, at any of its iterations, ends its inner loop on
    a chunk over the hard limit, that chunk is a single page and the
    whole split fails with the message about a single page: no chunks
    are returned. *)
Theorem splitPdfForOcr_budget (plat : Platform) (file : File) :
  (forall chunks pageCount,
      splitPdfForOcr plat file = Some (Ok (chunks, pageCount)) ->
      Forall withinBudget chunks)
  /\ (forall pageCount chunks cursor part end_ chunk,
         pdfLoad plat file = inr pageCount ->
         Visited plat file pageCount chunks cursor part ->
         cursor < pageCount ->
         candidate plat file pageCount cursor part = Some (end_, chunk) ->
         (OCR_PDF_LIMIT_BYTES < size chunk)%N ->
         pageIndexesOf chunk = [cursor]
         /\ splitPdfForOcr plat file = Some (Err singlePageMessage)).
Proof.
  split.
  - intros chunks pageCount. unfold splitPdfForOcr. intros Hrun.
    destruct (pdfLoad plat file) as [message | n]; [discriminate|].
    destruct (splitLoop_spec plat file n n [] 0 1) as [r [Hr Hspec]]; [lia | lia |].
    rewrite Hr in Hrun. injection Hrun as Hrun. subst r.
    destruct Hspec as [_ [new [Hall [_ Hbudget]]]]. simpl in Hall. now subst new.
  - intros pageCount chunks cursor part end_ chunk Hload Hv Hlt Hc Hhard.
    destruct (candidate_spec plat file pageCount cursor part Hlt)
      as [end' [Hc' [H1 [H2 [H3 H4]]]]].
    rewrite Hc in Hc'. injection Hc' as Hend Hchunk. subst end'.
    assert (Hone : end_ = cursor + 1).
    { destruct H4 as [H4 | H4]; [|exact H4]. rewrite <- Hchunk in H4.
      unfold PDF_CHUNK_TARGET_BYTES, OCR_PDF_LIMIT_BYTES in *. lia. }
    split.
    + rewrite Hchunk, pageIndexesOf_createPdfChunk, Hone.
      replace (cursor + 1 - cursor) with 1 by lia. reflexivity.
    + unfold splitPdfForOcr. rewrite Hload.
      destruct (visited_run plat file pageCount chunks cursor part Hv) as [_ Hrun].
      rewrite Hrun.
      replace (pageCount - cursor) with (S (pageCount - cursor - 1)) by lia.
      rewrite splitLoop_step, Hc by exact Hlt.
      apply N.ltb_lt in Hhard. now rewrite Hhard.
Qed.

Lemma splitPdfForOcr_budget_witness :
  Forall withinBudget
    (Sample.chunksOf (Sample.platform 3 (46 * Sample.MiB)) (Sample.pdf (60 * Sample.MiB)))
  /\ splitPdfForOcr (Sample.platform 1 (55 * Sample.MiB)) (Sample.pdf (60 * Sample.MiB))
     = Some (Err singlePageMessage).
Proof.
  split.
  - apply (proj1 (splitPdfForOcr_budget (Sample.platform 3 (46 * Sample.MiB))
                    (Sample.pdf (60 * Sample.MiB)))
             _ 3).
    vm_compute. reflexivity.
  - apply (proj2 (splitPdfForOcr_budget (Sample.platform 1 (55 * Sample.MiB))
                    (Sample.pdf (60 * Sample.MiB)))
             1 [] 0 1 1
             (createPdfChunk (Sample.platform 1 (55 * Sample.MiB))
                (Sample.pdf (60 * Sample.MiB)) 0 1 "book.pdf" 1)).
    + reflexivity.
    + constructor.
    + lia.
    + vm_compute. reflexivity.
    + vm_compute. reflexivity.
Defined.



(** ** Programs *)

Section Programs.

Variable net : Network.

Lemma exec_bind (A B : Type) (p : Prog A) (f : A -> Prog B) :
  forall call : nat,
    exec net (bind p f) call =
    match exec net p call with
    | (Some (Ok a), tr) =>
        let r := exec net (f a) (call + length (requests tr)) in (fst r, tr ++ snd r)
    | (Some (Err m), tr) => (Some (Err m), tr)
    | (None, tr) => (None, tr)
    end.
Proof.
  induction p as [a | m | | u k IH | body k IH | ms k IH]; intros call; cbn [bind exec].
  - cbn [requests length app]. rewrite Nat.add_0_r. now destruct (exec net (f a) call).
  - reflexivity.
  - reflexivity.
  - rewrite IH. destruct (exec net k call) as [[[a | m] |] tr]; reflexivity.
  - rewrite IH. destruct (exec net (k (net call body)) (S call)) as [[[a | m] |] tr];
      cbn [fst snd requests length]; try reflexivity.
    now rewrite Nat.add_succ_r.
  - rewrite IH. destruct (exec net k call) as [[[a | m] |] tr]; reflexivity.
Qed.

Lemma exec_tryCatch (A : Type) (p : Prog A) (h : string -> Prog A) :
  forall call : nat,
    exec net (tryCatch p h) call =
    match exec net p call with
    | (Some (Err m), tr) =>
        let r := exec net (h m) (call + length (requests tr)) in (fst r, tr ++ snd r)
    | other => other
    end.
Proof.
  induction p as [a | m | | u k IH | body k IH | ms k IH]; intros call; cbn [tryCatch exec].
  - reflexivity.
  - cbn [requests length app]. rewrite Nat.add_0_r. now destruct (exec net (h m) call).
  - reflexivity.
  - rewrite IH. destruct (exec net k call) as [[[a | m] |] tr]; reflexivity.
  - rewrite IH. destruct (exec net (k (net call body)) (S call)) as [[[a | m] |] tr];
      cbn [fst snd requests length]; try reflexivity.
    now rewrite Nat.add_succ_r.
  - rewrite IH. destruct (exec net k call) as [[[a | m] |] tr]; reflexivity.
Qed.

(** For a [finally] block made of state setters only. *)
Lemma exec_tryFinally (A : Type) (p : Prog A) (q : Prog unit) (qtr : list Event) :
  (forall call, exec net q call = (Some (Ok tt), qtr)) ->
  forall call : nat,
    exec net (tryFinally p q) call =
    match exec net p call with
    | (Some r, tr) => (Some r, tr ++ qtr)
    | (None, tr) => (None, tr)
    end.
Proof.
  intros Hq.
  induction p as [a | m | | u k IH | body k IH | ms k IH]; intros call; cbn [tryFinally exec].
  - rewrite exec_bind, Hq. cbn [exec fst snd app]. now rewrite app_nil_r.
  - rewrite exec_bind, Hq. cbn [exec fst snd app]. now rewrite app_nil_r.
  - reflexivity.
  - rewrite IH. destruct (exec net k call) as [[r |] tr]; reflexivity.
  - rewrite IH. destruct (exec net (k (net call body)) (S call)) as [[r |] tr]; reflexivity.
  - rewrite IH. destruct (exec net k call) as [[r |] tr]; reflexivity.
Qed.

(** A run ends as [exec] says, in the world extended by its events. *)
Lemma run_exec (A : Type) (p : Prog A) :
  forall w : World,
    run net p w = (fst (exec net p (calls w)), extend w (snd (exec net p (calls w)))).
Proof.
  assert (Hnil : forall w, extend w [] = w).
  { intros [s c tr]. unfold extend. cbn. now rewrite Nat.add_0_r, app_nil_r. }
  induction p as [a | m | | u k IH | body k IH | ms k IH]; intros w; cbn [run exec fst snd];
    try (now rewrite Hnil).
  - rewrite IH. cbn [calls]. f_equal. unfold extend. cbn [ui calls trace replay requests].
    now rewrite <- app_assoc.
  - rewrite IH. cbn [calls]. f_equal. unfold extend. cbn [ui calls trace replay requests length].
    now rewrite <- app_assoc, Nat.add_succ_r.
  - rewrite IH. cbn [calls]. f_equal. unfold extend. cbn [ui calls trace replay requests].
    now rewrite <- app_assoc.
Qed.

End Programs.

(** ** The pipeline *)

Section PipelineFacts.

Variables (plat : Platform) (net : Network).

Lemma exec_submitChunks_cons (n i : nat) (chunk : File) (rest : list File)
    (texts : list string) (call : nat) :
  exec net (submitChunks plat n i (chunk :: rest) texts) call =
  match readOcrResponse plat (net call chunk) with
  | Ok t =>
      let r := exec net (submitChunks plat n (i + 1) rest (texts ++ [t])) (S call) in
      (fst r, loopTrace n i [chunk] ++ snd r)
  | Err m =>
      (Some (Err m), [EvUpd (SetStatusMessage (Some (chunkStatus i n))); EvFetch chunk])
  end.
Proof.
  cbn [submitChunks upd bind submitFileToOcr exec loopTrace].
  destruct (readOcrResponse plat (net call chunk)) as [t | m]; cbn [liftResult bind exec fst snd].
  - destruct (i <? n - 1); reflexivity.
  - reflexivity.
Qed.

Lemma loopTrace_app (n : nat) (pre post : list File) :
  forall i : nat,
    loopTrace n i (pre ++ post) = loopTrace n i pre ++ loopTrace n (i + length pre) post.
Proof.
  induction pre as [|c pre IH]; intros i; cbn [app loopTrace length].
  - now rewrite Nat.add_0_r.
  - rewrite IH. replace (i + 1 + length pre) with (i + S (length pre)) by lia.
    now rewrite <- app_assoc.
Qed.

(** The chunk loop when every submission succeeds. *)
Lemma exec_submitChunks_ok (n : nat) (rest : list File) :
  forall (i : nat) (texts : list string) (call : nat) (ts : list string),
    responses plat net call rest = map Ok ts ->
    exec net (submitChunks plat n i rest texts) call
    = (Some (Ok (texts ++ ts)), loopTrace n i rest).
Proof.
  induction rest as [|c rest IH]; intros i texts call ts H.
  - destruct ts; [|discriminate]. cbn. now rewrite app_nil_r.
  - destruct ts as [|t ts]; [discriminate|]. cbn [responses map] in H.
    injection H as Hc Hrest.
    rewrite exec_submitChunks_cons, Hc. cbn zeta.
    rewrite (IH (i + 1) (texts ++ [t]) (S call) ts Hrest). cbn [fst snd].
    rewrite <- app_assoc. cbn [app].
    change (c :: rest) with ([c] ++ rest). rewrite loopTrace_app. reflexivity.
Qed.

(** The chunk loop when the submissions before [chunk] succeed and that
    of [chunk] fails. *)
Lemma exec_submitChunks_fail (n : nat) (pre : list File) :
  forall (i : nat) (texts : list string) (call : nat) (ts : list string)
         (chunk : File) (post : list File) (m : string),
    responses plat net call pre = map Ok ts ->
    readOcrResponse plat (net (call + length pre) chunk) = Err m ->
    exec net (submitChunks plat n i (pre ++ chunk :: post) texts) call
    = (Some (Err m),
       loopTrace n i pre
       ++ [EvUpd (SetStatusMessage (Some (chunkStatus (i + length pre) n))); EvFetch chunk]).
Proof.
  induction pre as [|c pre IH]; intros i texts call ts chunk post m Hpre Hfail.
  - cbn [app length] in *. rewrite Nat.add_0_r in *.
    now rewrite exec_submitChunks_cons, Hfail.
  - destruct ts as [|t ts]; [discriminate|]. cbn [responses map] in Hpre.
    injection Hpre as Hc Hrest. cbn [app length] in *.
    rewrite exec_submitChunks_cons, Hc. cbn zeta.
    rewrite (IH (i + 1) (texts ++ [t]) (S call) ts chunk post m Hrest)
      by (now rewrite Nat.add_succ_comm).
    cbn [fst snd]. change (c :: pre) with ([c] ++ pre). rewrite loopTrace_app.
    cbn [length]. replace (i + 1 + length pre) with (i + S (length pre)) by lia.
    now rewrite <- app_assoc.
Qed.

Lemma exec_processOCR (f : File) (call : nat) :
  exec net (processOCR plat (Some f)) call =
  match exec net (processBody plat f) call with
  | (Some (Ok _), tr) => (Some (Ok tt), prologue ++ tr ++ epilogue)
  | (Some (Err m), tr) =>
      (Some (Ok tt), prologue ++ tr ++ [EvUpd (SetError (Some m))] ++ epilogue)
  | (None, tr) => (None, prologue ++ tr)
  end.
Proof.
  unfold processOCR. cbn [upd bind exec fst snd].
  rewrite (exec_tryFinally net _ _ _ epilogue) by reflexivity.
  rewrite exec_tryCatch.
  destruct (exec net (processBody plat f) call) as [[[[] | m] |] tr];
    cbn [upd exec fst snd prologue app]; try reflexivity.
  now rewrite <- app_assoc.
Qed.

Lemma exec_splitAndSubmit (f : File) (chunks : list File) (pageCount call : nat) :
  splitPdfForOcr plat f = Some (Ok (chunks, pageCount)) ->
  exec net (splitAndSubmit plat f) call =
  match exec net (submitChunks plat (length chunks) 0 chunks []) call with
  | (Some (Ok ts), tr) =>
      (Some (Ok tt),
       splitStatus pageCount (length chunks) ++ tr ++ [EvUpd (SetText (mergeTexts ts))])
  | (Some (Err m), tr) => (Some (Err m), splitStatus pageCount (length chunks) ++ tr)
  | (None, tr) => (None, splitStatus pageCount (length chunks) ++ tr)
  end.
Proof.
  intros Hsplit. unfold splitAndSubmit, splitStatus. rewrite Hsplit.
  cbn [upd bind liftFuel liftResult exec fst snd].
  rewrite exec_bind.
  destruct (OCR_PDF_PAGE_LIMIT <? pageCount);
    cbn [upd exec fst snd requests length app]; rewrite Nat.add_0_r, exec_bind;
    destruct (exec net (submitChunks plat (length chunks) 0 chunks []) call)
      as [[[ts | m] |] tr]; reflexivity.
Qed.

Lemma processBody_split (f : File) :
  type f = "application/pdf" -> needsSplit plat f ->
  processBody plat f = splitAndSubmit plat f.
Proof.
  intros Htype Hneeds. unfold processBody. rewrite Htype.
  change (Js.startsWith "application/pdf" "image/") with false.
  change ("application/pdf" =? "application/pdf")%string with true. cbv iota.
  destruct (OCR_PDF_LIMIT_BYTES <? size f)%N eqn:Hsize; [reflexivity|]. cbn [negb].
  destruct Hneeds as [Hbig | [n [Hload Hpages]]].
  - apply N.ltb_lt in Hbig. congruence.
  - rewrite Hload. cbn [liftResult bind].
    replace (n <=? OCR_PDF_PAGE_LIMIT) with false; [reflexivity|].
    symmetry. apply Nat.leb_gt. exact Hpages.
Qed.

Lemma processBody_pdf_fast (f : File) (n : nat) :
  type f = "application/pdf" ->
  (size f <= OCR_PDF_LIMIT_BYTES)%N ->
  pdfLoad plat f = inr n -> n <= OCR_PDF_PAGE_LIMIT ->
  processBody plat f =
  Upd (SetStatusMessage (Some "Processing PDF..."))
    (Fetch f (fun res => bind (liftResult (readOcrResponse plat res))
                           (fun pdfText => upd (SetText pdfText)))).
Proof.
  intros Htype Hsize Hload Hpages. unfold processBody. rewrite Htype.
  change (Js.startsWith "application/pdf" "image/") with false.
  change ("application/pdf" =? "application/pdf")%string with true. cbv iota.
  apply N.ltb_ge in Hsize. rewrite Hsize, Hload. cbn [negb liftResult bind].
  apply Nat.leb_le in Hpages. rewrite Hpages. reflexivity.
Qed.

Lemma processBody_image_fast (f : File) :
  Js.startsWith (type f) "image/" = true ->
  (size f <= OCR_IMAGE_LIMIT_BYTES)%N ->
  processBody plat f =
  Upd (SetStatusMessage (Some "Processing image..."))
    (Fetch f (fun res => bind (liftResult (readOcrResponse plat res))
                           (fun imageText => upd (SetText imageText)))).
Proof.
  intros Htype Hsize. unfold processBody. rewrite Htype.
  rewrite compressImageForOcr_small by (now apply N.leb_le).
  cbn [liftResult bind upd submitFileToOcr]. now rewrite N.eqb_refl.
Qed.

End PipelineFacts.

(** ** Traces *)

Lemma requests_app (a b : list Event) : requests (a ++ b) = requests a ++ requests b.
Proof.
  induction a as [|[u | body | ms] a IH]; cbn [app requests]; now rewrite ?IH.
Qed.

Lemma submissionsAndTexts_app (a b : list Event) :
  submissionsAndTexts (a ++ b) = submissionsAndTexts a ++ submissionsAndTexts b.
Proof.
  induction a as [|[[] | body | ms] a IH]; cbn [app submissionsAndTexts]; now rewrite ?IH.
Qed.

Lemma statusMessages_app (a b : list Event) :
  statusMessages (a ++ b) = statusMessages a ++ statusMessages b.
Proof.
  induction a as [|[[] | body | ms] a IH]; cbn [app statusMessages]; now rewrite ?IH.
Qed.

Lemma replay_app (a b : list Event) :
  forall s, replay (a ++ b) s = replay b (replay a s).
Proof.
  induction a as [|[u | body | ms] a IH]; intros s; cbn [app replay]; now rewrite ?IH.
Qed.

Lemma requests_loopTrace (n : nat) (files : list File) :
  forall i, requests (loopTrace n i files) = files.
Proof.
  induction files as [|c files IH]; intros i; cbn [loopTrace requests]; [reflexivity|].
  rewrite requests_app, IH. now destruct (i <? n - 1).
Qed.

Lemma submissionsAndTexts_loopTrace (n : nat) (files : list File) :
  forall i, submissionsAndTexts (loopTrace n i files) = map EvFetch files.
Proof.
  induction files as [|c files IH]; intros i; cbn [loopTrace submissionsAndTexts map];
    [reflexivity|].
  rewrite submissionsAndTexts_app, IH. now destruct (i <? n - 1).
Qed.

Lemma statusMessages_loopTrace (n : nat) (files : list File) :
  forall i,
    statusMessages (loopTrace n i files)
    = map (fun j => Some (chunkStatus j n)) (seq i (length files)).
Proof.
  induction files as [|c files IH]; intros i; cbn [loopTrace statusMessages map seq length];
    [reflexivity|].
  rewrite statusMessages_app, IH, Nat.add_1_r. now destruct (i <? n - 1).
Qed.

(** The chunk loop and the status lines before it leave the text, the
    error and the file as they are. *)
Lemma replay_loopTrace (n : nat) (files : list File) :
  forall i s,
    text (replay (loopTrace n i files) s) = text s
    /\ error (replay (loopTrace n i files) s) = error s
    /\ isProcessing (replay (loopTrace n i files) s) = isProcessing s
    /\ file (replay (loopTrace n i files) s) = file s.
Proof.
  induction files as [|c files IH]; intros i s; cbn [loopTrace replay]; [now repeat split|].
  rewrite replay_app.
  destruct (IH (i + 1)
              (replay (if i <? n - 1 then [EvSleep 250] else [])
                 (apply (SetStatusMessage (Some (chunkStatus i n))) s)))
    as [H1 [H2 [H3 H4]]].
  rewrite H1, H2, H3, H4. now destruct (i <? n - 1).
Qed.

Lemma replay_splitStatus (pageCount n : nat) (s : AppState) :
  text (replay (splitStatus pageCount n) s) = text s
  /\ error (replay (splitStatus pageCount n) s) = error s
  /\ isProcessing (replay (splitStatus pageCount n) s) = isProcessing s
  /\ file (replay (splitStatus pageCount n) s) = file s.
Proof.
  unfold splitStatus. now destruct (OCR_PDF_PAGE_LIMIT <? pageCount).
Qed.

Lemma responses_app (plat : Platform) (net : Network) (pre post : list File) :
  forall call,
    responses plat net call (pre ++ post)
    = responses plat net call pre ++ responses plat net (call + length pre) post.
Proof.
  induction pre as [|c pre IH]; intros call; cbn [app responses length].
  - now rewrite Nat.add_0_r.
  - now rewrite IH, Nat.add_succ_comm.
Qed.

(** Projections of a trace around the status lines of the PDF branch. *)
Ltac split_status_cases pageCount :=
  unfold splitStatus; destruct (OCR_PDF_PAGE_LIMIT <? pageCount);
  cbn [submissionsAndTexts requests statusMessages prologue epilogue app];
  rewrite ?app_nil_r; reflexivity.

(** ** Runs of the PDF branch *)

Section SplitRuns.

Variables (plat : Platform) (net : Network) (f : File) (w : World).
Variables (chunks : list File) (pageCount : nat).

Hypothesis Htype : type f = "application/pdf".
Hypothesis Hneeds : needsSplit plat f.
Hypothesis Hsplit : splitPdfForOcr plat f = Some (Ok (chunks, pageCount)).

Lemma run_split_success (ts : list string) :
  responses plat net (calls w) chunks = map Ok ts ->
  run net (processOCR plat (Some f)) w =
  (Some (Ok tt),
   extend w (prologue
             ++ (splitStatus pageCount (length chunks)
                 ++ loopTrace (length chunks) 0 chunks
                 ++ [EvUpd (SetText (mergeTexts ts))])
             ++ epilogue)).
Proof.
  intros Hok. rewrite run_exec, exec_processOCR.
  rewrite (processBody_split plat f Htype Hneeds).
  rewrite (exec_splitAndSubmit plat net f chunks pageCount (calls w) Hsplit).
  now rewrite (exec_submitChunks_ok plat net (length chunks) chunks 0 [] (calls w) ts Hok).
Qed.

Lemma run_split_failure (pre : list File) (chunk : File) (post : list File)
    (ts : list string) (m : string) :
  chunks = pre ++ chunk :: post ->
  responses plat net (calls w) pre = map Ok ts ->
  readOcrResponse plat (net (calls w + length pre) chunk) = Err m ->
  run net (processOCR plat (Some f)) w =
  (Some (Ok tt),
   extend w (prologue
             ++ (splitStatus pageCount (length chunks)
                 ++ loopTrace (length chunks) 0 pre
                 ++ [EvUpd (SetStatusMessage (Some (chunkStatus (length pre) (length chunks))));
                     EvFetch chunk])
             ++ [EvUpd (SetError (Some m))] ++ epilogue)).
Proof.
  intros Hchunks Hpre Hfail. rewrite run_exec, exec_processOCR.
  rewrite (processBody_split plat f Htype Hneeds).
  rewrite (exec_splitAndSubmit plat net f chunks pageCount (calls w) Hsplit).
  assert (Hexec := exec_submitChunks_fail plat net (length chunks) pre 0 [] (calls w) ts
                     chunk post m Hpre Hfail).
  rewrite <- Hchunks in Hexec. now rewrite Hexec.
Qed.

Lemma split_names : map name chunks = map (partName (name f)) (seq 1 (length chunks)).
Proof.
  unfold splitPdfForOcr in Hsplit.
  destruct (pdfLoad plat f) as [message | n]; [discriminate|].
  destruct (splitLoop_names plat f n n [] 0 1 chunks pageCount) as [new [Hall Hnames]].
  - destruct (splitLoop plat n f n [] 0 1) as [r |]; [|discriminate].
    now injection Hsplit as ->.
  - cbn [app] in Hall. now subst new.
Qed.

End SplitRuns.

(** ** The submitter *)

(** The only error of [String(v)] is the TypeError of an object that
    cannot be made a string. *)
Lemma show_array_error (notPrimitive : string) (items : list Json.Value) :
  Forall (fun item => forall m, Json.show notPrimitive item = Err m -> m = notPrimitive)
    items ->
  forall m, Json.show notPrimitive (Json.JArray items) = Err m -> m = notPrimitive.
Proof.
  intros Hall. cbn [Json.show].
  induction Hall as [|item items Hitem _ IH]; intros m; [discriminate|].
  match type of IH with
  | forall m, match ?e with Ok _ => _ | Err _ => _ end = _ -> _ =>
      change (match
                match (match item with
                       | Json.JNull => Ok ""%string
                       | _ => Json.show notPrimitive item
                       end) with
                | Err message => Err message
                | Ok head =>
                    match e with
                    | Err message => Err message
                    | Ok tail => Ok (head :: tail)
                    end
                end
              with
              | Err message => Err message
              | Ok parts => Ok (Js.join "," parts)
              end = Err m -> m = notPrimitive);
      destruct e as [tail | message]
  end.
  - destruct item; cbn [Json.show] in *;
      try discriminate;
      match goal with
      | |- match match ?e with Ok _ => _ | Err _ => _ end with _ => _ end = _ -> _ =>
          destruct e eqn:He; [discriminate|]
      end;
      intros E; injection E as <-; now apply Hitem.
  - specialize (IH message eq_refl). subst message.
    destruct item; cbn [Json.show] in *;
      try (intros E; now injection E);
      match goal with
      | |- match match ?e with Ok _ => _ | Err _ => _ end with _ => _ end = _ -> _ =>
          destruct e eqn:He
      end;
      intros E; injection E as <-; try reflexivity; now apply Hitem.
Qed.

Lemma show_error (notPrimitive : string) :
  forall v m, Json.show notPrimitive v = Err m -> m = notPrimitive.
Proof.
  fix IH 1. intros v. destruct v as [| b | shown | s | items | members];
    try (intros m; cbn [Json.show]; discriminate).
  - apply show_array_error.
    revert items. fix IHitems 1. intros [|item items]; constructor;
      [apply IH | apply IHitems].
  - intros m. cbn [Json.show].
    destruct (Json.lookup "toString" members); [|discriminate].
    intros H. now injection H.
Qed.

(** [submitFileToOcr] after the body is read. *)
Lemma readOcrResponse_resolved (plat : Platform) (response : Response) :
  readOcrResponse plat (Resolved response)
  = if negb (ok response)
    then match property plat "error" (dataOf plat response) with
         | Err message => Err message
         | Ok error =>
             match shownOr plat error "OCR processing failed" with
             | Err message => Err message
             | Ok detail => Err (detail ++ statusHint response)%string
             end
         end
    else match property plat "text" (dataOf plat response) with
         | Err message => Err message
         | Ok text => shownOr plat text ""
         end.
Proof.
  unfold readOcrResponse, dataOf, excerptOf, statusHint.
  destruct (MAX_ERROR_BODY_LENGTH <? String.length (bodyText response)); reflexivity.
Qed.

Lemma property_error (plat : Platform) (key : string) (data : Json.Value) (m : string) :
  property plat key data = Err m -> data = Json.JNull /\ m = nullAccess plat key.
Proof.
  destruct data; cbn [property]; try discriminate. intros H. injection H as <-. now split.
Qed.

Lemma shownOr_error (plat : Platform) (v : option Json.Value) (fallback m : string) :
  shownOr plat v fallback = Err m -> m = notPrimitive plat.
Proof.
  unfold shownOr. destruct v as [value|]; [|discriminate].
  destruct (Json.truthy (Some value)); [|discriminate]. apply show_error.
Qed.

(** The messages of a failed submission that was answered. *)
Lemma readOcrResponse_error_shape (plat : Platform) (response : Response) (m : string) :
  readOcrResponse plat (Resolved response) = Err m ->
  (ok response = false /\ exists detail, m = (detail ++ statusHint response)%string)
  \/ (dataOf plat response = Json.JNull
      /\ m = nullAccess plat (if ok response then "text" else "error")%string)
  \/ m = notPrimitive plat.
Proof.
  rewrite readOcrResponse_resolved. destruct (ok response); cbn [negb].
  - destruct (property plat "text" (dataOf plat response)) as [text | message] eqn:Hp.
    + intros H. right. right. exact (shownOr_error plat _ _ _ H).
    + intros H. injection H as <-. right. left. exact (property_error plat _ _ _ Hp).
  - destruct (property plat "error" (dataOf plat response)) as [error | message] eqn:Hp.
    + destruct (shownOr plat error "OCR processing failed") as [detail | message] eqn:Hs.
      * intros H. injection H as <-. left. split; [reflexivity | now eexists].
      * intros H. injection H as <-. right. right. exact (shownOr_error plat _ _ _ Hs).
    + intros H. injection H as <-. right. left. exact (property_error plat _ _ _ Hp).
Qed.

Lemma mergeTexts_drops_empty (before after : list string) :
  mergeTexts (before ++ "" :: after) = mergeTexts (before ++ after).
Proof.
  unfold mergeTexts. now rewrite !filter_app.
Qed.


(** C3, as the code has it.  When the submissions of the chunks before
    chunk k succeed and that of chunk k fails: the run ends without
    calling [setText], so the text is left as it was; chunks 1 to k are
    the only ones submitted; the error shown is the message the
    submitter made of that answer alone, and carries no chunk number:
    the message of the rejection for a rejected fetch; for a response,
    a detail followed by the status hint when the status is not 2xx, or
    the message of the TypeError the engine throws when the JSON body is
    [null] or when the property read cannot be made a string.  The last
    status line set before the failure is "Processing PDF chunk k/n...",
    and the [finally] block then clears the status line. *)
Theorem processOCR_chunk_failure (plat : Platform) (net : Network) (f : File)
    (w : World) (pre : list File) (chunk : File) (post : list File)
    (pageCount : nat) (ts : list string) (m : string) :
  type f = "application/pdf" ->
  needsSplit plat f ->
  splitPdfForOcr plat f = Some (Ok (pre ++ chunk :: post, pageCount)) ->
  responses plat net (calls w) pre = map Ok ts ->
  readOcrResponse plat (net (calls w + length pre) chunk) = Err m ->
  let result := run net (processOCR plat (Some f)) w in
  let k := length pre + 1 in
  let n := length (pre ++ chunk :: post) in
  fst result = Some (Ok tt)
  /\ text (ui (snd result)) = text (ui w)
  /\ error (ui (snd result)) = Some m
  /\ statusMessage (ui (snd result)) = None
  /\ isProcessing (ui (snd result)) = false
  /\ (forall message,
         net (calls w + length pre) chunk = Rejected message -> m = message)
  /\ (forall response,
         net (calls w + length pre) chunk = Resolved response ->
         (ok response = false
          /\ exists detail,
               m = (detail ++ " (HTTP " ++ Js.showN (status response) ++ ")")%string)
         \/ (dataOf plat response = Json.JNull
             /\ m = nullAccess plat (if ok response then "text" else "error")%string)
         \/ m = notPrimitive plat)
  /\ exists tr,
       trace (snd result) = trace w ++ tr
       /\ requests tr = pre ++ [chunk]
       /\ submissionsAndTexts tr = map EvFetch (pre ++ [chunk])
       /\ exists earlier,
            statusMessages tr =
            earlier
            ++ [Some ("Processing PDF chunk " ++ Js.showNat k ++ "/" ++ Js.showNat n ++ "...")%string;
                None].
Proof.
  intros Htype Hneeds Hsplit Hpre Hfail result k n. unfold result.
  rewrite (run_split_failure plat net f w (pre ++ chunk :: post) pageCount Htype Hneeds
             Hsplit pre chunk post ts m eq_refl Hpre Hfail).
  cbn [fst snd extend ui trace]. repeat split.
  - rewrite !replay_app. cbn [epilogue replay apply text].
    rewrite (proj1 (replay_loopTrace _ _ _ _)).
    rewrite (proj1 (replay_splitStatus _ _ _)). reflexivity.
  - now rewrite !replay_app.
  - now rewrite !replay_app.
  - now rewrite !replay_app.
  - intros message Hres. rewrite Hres in Hfail. cbn [readOcrResponse] in Hfail.
    now injection Hfail.
  - intros response Hres. rewrite Hres in Hfail.
    exact (readOcrResponse_error_shape plat response m Hfail).
  - eexists. split; [reflexivity|]. split; [|split].
    + rewrite !requests_app, requests_loopTrace.
      split_status_cases pageCount.
    + rewrite !submissionsAndTexts_app, submissionsAndTexts_loopTrace, map_app.
      split_status_cases pageCount.
    + rewrite !statusMessages_app. cbn [statusMessages epilogue app].
      exists (statusMessages prologue
              ++ statusMessages (splitStatus pageCount (length (pre ++ chunk :: post)))
              ++ statusMessages (loopTrace (length (pre ++ chunk :: post)) 0 pre)).
      rewrite <- !app_assoc. reflexivity.
Qed.


Lemma processOCR_chunk_failure_witness :
  let result := run Sample.failsSecond (processOCR Sample.threePages (Some Sample.book))
                  initialWorld in
  text (ui (snd result)) = ""%string
  /\ error (ui (snd result)) = Some "Internal server error (HTTP 500)"%string.
Proof.
  destruct (processOCR_chunk_failure Sample.threePages Sample.failsSecond Sample.book
              initialWorld [Sample.part 1] (Sample.part 2) [Sample.part 3] 3
              ["page"]%string "Internal server error (HTTP 500)"%string)
    as [_ [Htext [Herror _]]].
  - reflexivity.
  - left. vm_compute. reflexivity.
  - vm_compute. reflexivity.
  - vm_compute. reflexivity.
  - vm_compute. reflexivity.
  - split; [exact Htext | exact Herror].
Defined.

(** C3, as stated, fails: chunk 2 of 3 is answered with an HTTP 500, and
    the error shown is the message of the boundary with the status hint;
    neither numeral, 2 or 3, occurs in it. *)
Lemma chunk_failure_error_names_no_chunk :
  let plat := Sample.threePages in
  let result := run Sample.failsSecond (processOCR plat (Some Sample.book)) initialWorld in
  Sample.chunksOf plat Sample.book = [Sample.part 1; Sample.part 2; Sample.part 3]
  /\ readOcrResponse plat (Sample.failsSecond 0 (Sample.part 1)) = Ok "page"%string
  /\ readOcrResponse plat (Sample.failsSecond 1 (Sample.part 2))
     = Err "Internal server error (HTTP 500)"%string
  /\ exists message,
       error (ui (snd result)) = Some message
       /\ referencesChunk 2 3 message = false.
Proof.
  repeat split; try (vm_compute; reflexivity).
  exists "Internal server error (HTTP 500)"%string. split; vm_compute; reflexivity.
Qed.

(** C8.  A PDF of at most 50 MiB whose document has at most 100 pages
    takes the single-submission path: the run sends exactly one request,
    whose body is the file it was given (the same name, type, size and
    bytes); no status line about splitting is set; and the run ends with
    the answer to that request stored, the text on success and the error
    on failure. *)
Theorem processOCR_pdf_fast_path (plat : Platform) (net : Network) (f : File)
    (w : World) (n : nat) :
  type f = "application/pdf" ->
  (size f <= OCR_PDF_LIMIT_BYTES)%N ->
  pdfLoad plat f = inr n ->
  n <= OCR_PDF_PAGE_LIMIT ->
  let result := run net (processOCR plat (Some f)) w in
  fst result = Some (Ok tt)
  /\ calls (snd result) = calls w + 1
  /\ ui (snd result)
     = commit (readOcrResponse plat (net (calls w) f)) (apply (SetError None) (ui w))
  /\ exists tr,
       trace (snd result) = trace w ++ tr
       /\ requests tr = [f]
       /\ statusMessages tr
          = [Some "Preparing file..."; Some "Processing PDF..."; None]%string.
Proof.
  intros Htype Hsize Hload Hpages result. unfold result.
  rewrite run_exec, exec_processOCR.
  rewrite (processBody_pdf_fast plat f n Htype Hsize Hload Hpages).
  cbn [exec fst snd].
  destruct (readOcrResponse plat (net (calls w) f)) as [t | m];
    cbn [liftResult bind upd exec fst snd extend ui calls trace];
    (repeat split; [eexists; split; [reflexivity | now split]]).
Qed.

Lemma processOCR_pdf_fast_path_witness :
  requests (trace (snd (run Sample.answersAll
                          (processOCR (Sample.platform 12 Sample.MiB)
                             (Some (Sample.pdf (12 * Sample.MiB))))
                          initialWorld)))
  = [Sample.pdf (12 * Sample.MiB)].
Proof.
  destruct (processOCR_pdf_fast_path (Sample.platform 12 Sample.MiB) Sample.answersAll
              (Sample.pdf (12 * Sample.MiB)) initialWorld 12)
    as [_ [_ [_ [tr [Htrace [Hreq _]]]]]].
  - reflexivity.
  - vm_compute. discriminate.
  - reflexivity.
  - unfold OCR_PDF_PAGE_LIMIT. lia.
  - rewrite Htrace. exact Hreq.
Defined.

(** C10, as the code has it.  Take a response with a 2xx status and a
    JSON content type whose body parses.  When the parsed value is not
    [null] and its [text] is missing or falsy (undefined, the empty
    string, zero, false or null), [submitFileToOcr] returns the empty
    string, not an error, and the merge drops that fragment: in a split
    run where one chunk is answered so and the others succeed, every
    chunk is submitted, no error is shown, and the text is the merge of
    the other fragments.  When the parsed value is [null], which has no
    [text] either, reading [data.text] throws: the submission fails with
    the message of that TypeError, and a split run in which a chunk is
    answered so stops there, shows that message as the error and stores
    no text. *)
Theorem submitFileToOcr_missing_text (plat : Platform) (net : Network)
    (response : Response) (data : Json.Value) :
  ok response = true ->
  Js.includes (Js.orElse (contentType response) "") "application/json" = true ->
  jsonParse plat (bodyText response) = Some data ->
  (data <> Json.JNull ->
   Json.truthy (Json.member "text" data) = false ->
   readOcrResponse plat (Resolved response) = Ok ""%string
   /\ (forall f call,
          net call f = Resolved response ->
          exec net (submitFileToOcr plat f) call = (Some (Ok ""%string), [EvFetch f]))
   /\ (forall f w pre chunk post pageCount tsPre tsPost,
          type f = "application/pdf" ->
          needsSplit plat f ->
          splitPdfForOcr plat f = Some (Ok (pre ++ chunk :: post, pageCount)) ->
          responses plat net (calls w) pre = map Ok tsPre ->
          net (calls w + length pre) chunk = Resolved response ->
          responses plat net (calls w + length pre + 1) post = map Ok tsPost ->
          let result := run net (processOCR plat (Some f)) w in
          error (ui (snd result)) = None
          /\ text (ui (snd result)) = mergeTexts (tsPre ++ tsPost)
          /\ exists tr,
               trace (snd result) = trace w ++ tr
               /\ requests tr = pre ++ chunk :: post))
  /\ (data = Json.JNull ->
      readOcrResponse plat (Resolved response) = Err (nullAccess plat "text")
      /\ (forall f w pre chunk post pageCount tsPre,
             type f = "application/pdf" ->
             needsSplit plat f ->
             splitPdfForOcr plat f = Some (Ok (pre ++ chunk :: post, pageCount)) ->
             responses plat net (calls w) pre = map Ok tsPre ->
             net (calls w + length pre) chunk = Resolved response ->
             let result := run net (processOCR plat (Some f)) w in
             error (ui (snd result)) = Some (nullAccess plat "text")
             /\ text (ui (snd result)) = text (ui w)
             /\ exists tr,
                  trace (snd result) = trace w ++ tr
                  /\ requests tr = pre ++ [chunk]))
  /\ (forall before after,
         mergeTexts (before ++ ""%string :: after) = mergeTexts (before ++ after)).
Proof.
  intros Hok Hjson Hparse.
  assert (Hdata : dataOf plat response = data)
    by (unfold dataOf; now rewrite Hjson, Hparse).
  split; [|split; [|exact mergeTexts_drops_empty]].
  - intros Hnull Htext.
    assert (Hread : readOcrResponse plat (Resolved response) = Ok ""%string).
    { rewrite readOcrResponse_resolved, Hok, Hdata. cbn [negb].
      replace (property plat "text" data) with (@Ok (option Json.Value) (Json.member "text" data))
        by (destruct data; try reflexivity; congruence).
      unfold shownOr. destruct (Json.member "text" data) as [value|]; [|reflexivity].
      now rewrite Htext. }
    split; [exact Hread|]. split.
    + intros f call Hnet. cbn [submitFileToOcr exec]. now rewrite Hnet, Hread.
    + intros f w pre chunk post pageCount tsPre tsPost Htype Hneeds Hsplit Hpre Hnet Hpost
        result.
      assert (Hall : responses plat net (calls w) (pre ++ chunk :: post)
                     = map Ok (tsPre ++ ""%string :: tsPost)).
      { rewrite responses_app, Hpre, map_app. cbn [responses map].
        rewrite Hnet, Hread. now rewrite <- Nat.add_1_r, Hpost. }
      unfold result.
      rewrite (run_split_success plat net f w (pre ++ chunk :: post) pageCount
                 Htype Hneeds Hsplit _ Hall).
      cbn [fst snd extend ui trace]. repeat split.
      * rewrite !replay_app. cbn [epilogue replay apply error].
        rewrite (proj1 (proj2 (replay_loopTrace _ _ _ _))).
        rewrite (proj1 (proj2 (replay_splitStatus _ _ _))). reflexivity.
      * rewrite !replay_app. cbn [epilogue replay apply text].
        apply mergeTexts_drops_empty.
      * eexists. split; [reflexivity|].
        rewrite !requests_app, requests_loopTrace.
        split_status_cases pageCount.
  - intros ->.
    assert (Hread : readOcrResponse plat (Resolved response) = Err (nullAccess plat "text")).
    { rewrite readOcrResponse_resolved, Hok, Hdata. reflexivity. }
    split; [exact Hread|].
    intros f w pre chunk post pageCount tsPre Htype Hneeds Hsplit Hpre Hnet result.
    rewrite <- Hnet in Hread. unfold result.
    rewrite (run_split_failure plat net f w (pre ++ chunk :: post) pageCount Htype Hneeds
               Hsplit pre chunk post tsPre _ eq_refl Hpre Hread).
    cbn [fst snd extend ui trace]. repeat split.
    + now rewrite !replay_app.
    + rewrite !replay_app. cbn [epilogue replay apply text].
      rewrite (proj1 (replay_loopTrace _ _ _ _)).
      rewrite (proj1 (replay_splitStatus _ _ _)). reflexivity.
    + eexists. split; [reflexivity|].
      rewrite !requests_app, requests_loopTrace.
      split_status_cases pageCount.
Qed.

Lemma submitFileToOcr_missing_text_witness :
  readOcrResponse Sample.threePages
    (Resolved {| status := 200; contentType := Sample.json; bodyText := "{}" |})
  = Ok ""%string.
Proof.
  destruct (submitFileToOcr_missing_text Sample.threePages Sample.answersAll
              {| status := 200; contentType := Sample.json; bodyText := "{}" |}
              (Json.JObject []))
    as [Hmissing _].
  - reflexivity.
  - reflexivity.
  - reflexivity.
  - destruct Hmissing as [Hread _]; [discriminate | reflexivity | exact Hread].
Defined.

(** C10, as stated, fails: the JSON body [null] has no [text] field; a
    200 response that carries it makes the submission fail with the
    message of a TypeError, and the run of an image answered so ends
    with that message as its error and no text. *)
Lemma missing_text_of_null_is_an_error :
  let plat := Sample.threePages in
  let response := {| status := 200; contentType := Sample.json; bodyText := "null" |} in
  let result := run (fun _ _ => Resolved response) (processOCR plat (Some (Sample.png 100)))
                  initialWorld in
  ok response = true
  /\ jsonParse plat (bodyText response) = Some Json.JNull
  /\ readOcrResponse plat (Resolved response)
     = Err "Cannot read properties of null (reading 'text')"%string
  /\ readOcrResponse plat (Resolved response) <> Ok ""%string
  /\ error (ui (snd result)) = Some "Cannot read properties of null (reading 'text')"%string
  /\ text (ui (snd result)) = ""%string.
Proof.
  vm_compute. repeat split. discriminate.
Qed.

(** * Further facts *)

(** ** Strings and file names *)

(** No two characters stand for the same code unit. *)
Lemma codeUnit_injective (a b : ascii) : Js.codeUnit a = Js.codeUnit b -> a = b.
Proof.
  assert (Hsmall : forall c, N_of_ascii c <> 8230%N).
  { intros c H. pose proof (N_ascii_bounded c) as Hc. rewrite H in Hc. discriminate. }
  unfold Js.codeUnit.
  destruct (Ascii.eqb_spec a (ascii_of_nat 133)) as [-> | Ha];
    destruct (Ascii.eqb_spec b (ascii_of_nat 133)) as [-> | Hb]; intros H.
  - reflexivity.
  - symmetry in H. now apply Hsmall in H.
  - now apply Hsmall in H.
  - rewrite <- (ascii_N_embedding a), <- (ascii_N_embedding b). now rewrite H.
Qed.

(** The ellipsis is the one code unit U+2026. *)
Lemma ellipsis_codeUnits :
  map Js.codeUnit (list_ascii_of_string Js.ellipsis) = [8230%N].
Proof. reflexivity. Qed.

Lemma append_nil_r (s : string) : (s ++ "")%string = s.
Proof. induction s as [|c s IH]; cbn; now rewrite ?IH. Qed.

Lemma append_assoc (a b c : string) : ((a ++ b) ++ c)%string = (a ++ (b ++ c))%string.
Proof. induction a as [|x a IH]; cbn; now rewrite ?IH. Qed.

Lemma list_ascii_of_string_append (a b : string) :
  list_ascii_of_string (a ++ b)%string = list_ascii_of_string a ++ list_ascii_of_string b.
Proof. induction a as [|x a IH]; cbn; now rewrite ?IH. Qed.

Lemma string_of_list_ascii_app (a b : list ascii) :
  string_of_list_ascii (a ++ b) = (string_of_list_ascii a ++ string_of_list_ascii b)%string.
Proof. induction a as [|x a IH]; cbn; now rewrite ?IH. Qed.

Lemma append_inv_head (a x y : string) : (a ++ x)%string = (a ++ y)%string -> x = y.
Proof. induction a as [|c a IH]; cbn; intros H; [exact H | injection H as H; auto]. Qed.

Lemma append_inv_tail (x y c : string) : (x ++ c)%string = (y ++ c)%string -> x = y.
Proof.
  intros H. apply (f_equal list_ascii_of_string) in H.
  rewrite !list_ascii_of_string_append in H. apply app_inv_tail in H.
  rewrite <- (string_of_list_ascii_of_string x), <- (string_of_list_ascii_of_string y).
  now rewrite H.
Qed.

Lemma allChars_forallb (p : ascii -> bool) (s : string) :
  allChars p s = forallb p (list_ascii_of_string s).
Proof. induction s as [|c s IH]; cbn; now rewrite ?IH. Qed.

Lemma forallb_rev (A : Type) (p : A -> bool) (l : list A) :
  forallb p (rev l) = forallb p l.
Proof.
  induction l as [|x l IH]; cbn; [reflexivity|].
  rewrite forallb_app, IH. cbn. rewrite andb_true_r. apply andb_comm.
Qed.

Lemma revChars_spec (s : string) :
  forall acc, Js.revChars s acc = rev (list_ascii_of_string s) ++ acc.
Proof.
  induction s as [|c s IH]; intros acc; cbn; [reflexivity|].
  now rewrite IH, <- app_assoc.
Qed.

Lemma ofRevChars_spec (cs : list ascii) :
  Js.ofRevChars cs = string_of_list_ascii (rev cs).
Proof.
  unfold Js.ofRevChars.
  assert (H : forall acc,
             fold_left (fun acc c => String c acc) cs acc
             = (string_of_list_ascii (rev cs) ++ acc)%string).
  { induction cs as [|c cs IH]; intros acc; cbn; [reflexivity|].
    rewrite IH, string_of_list_ascii_app, append_assoc. reflexivity. }
  now rewrite H, append_nil_r.
Qed.

Lemma stripExt_extension (l : list ascii) :
  forall seen rest,
    forallb plainChar l = true ->
    l <> [] \/ seen = true ->
    Js.stripExt seen (l ++ "."%char :: rest) = Some rest.
Proof.
  induction l as [|c l IH]; intros seen rest Hplain Hseen; cbn.
  - destruct Hseen as [H | ->]; [now contradiction H | reflexivity].
  - cbn in Hplain. apply andb_true_iff in Hplain. destruct Hplain as [Hc Hl].
    unfold plainChar in Hc. apply andb_true_iff in Hc. destruct Hc as [Hdot Hslash].
    apply negb_true_iff in Hdot, Hslash. rewrite Hdot, Hslash.
    apply IH; [exact Hl | now right].
Qed.

Lemma stripExt_no_dot (l : list ascii) :
  forall seen tail,
    forallb notDot l = true ->
    tail = [] \/ (exists rest, tail = "/"%char :: rest)
    \/ (l = [] /\ seen = false /\ exists rest, tail = "."%char :: rest) ->
    Js.stripExt seen (l ++ tail) = None.
Proof.
  induction l as [|c l IH]; intros seen tail Hl Htail; cbn.
  - destruct Htail as [-> | [[rest ->] | [_ [-> [rest ->]]]]]; reflexivity.
  - cbn in Hl. apply andb_true_iff in Hl. destruct Hl as [Hc Hl].
    unfold notDot in Hc. apply negb_true_iff in Hc. rewrite Hc.
    destruct (Ascii.eqb c "/"); [reflexivity|].
    apply IH; [exact Hl|].
    destruct Htail as [-> | [[rest ->] | [H _]]]; [now left | right; left; now exists rest | discriminate].
Qed.

Lemma dropExtension_extension (base ext : string) :
  isExtension ext = true ->
  Js.dropExtension (base ++ "." ++ ext)%string = base.
Proof.
  unfold isExtension. intros H. apply andb_true_iff in H. destruct H as [Hne Hplain].
  unfold Js.dropExtension. rewrite revChars_spec, app_nil_r.
  rewrite list_ascii_of_string_append. cbn [append list_ascii_of_string].
  rewrite rev_app_distr. cbn [rev]. rewrite <- app_assoc. cbn [app].
  rewrite stripExt_extension.
  - now rewrite ofRevChars_spec, rev_involutive, string_of_list_ascii_of_string.
  - now rewrite forallb_rev, <- allChars_forallb.
  - left. destruct ext; [discriminate|]. cbn. intros E.
    now apply app_eq_nil in E.
Qed.

Lemma dropExtension_no_dot (leaf : string) :
  allChars notDot leaf = true ->
  Js.dropExtension leaf = leaf
  /\ (forall dir, Js.dropExtension (dir ++ "/" ++ leaf)%string = (dir ++ "/" ++ leaf)%string)
  /\ (forall base, Js.dropExtension (base ++ ".")%string = (base ++ ".")%string).
Proof.
  intros H. rewrite allChars_forallb, <- forallb_rev in H. unfold Js.dropExtension.
  split; [|split].
  - rewrite revChars_spec. rewrite stripExt_no_dot; [reflexivity | exact H | now left].
  - intros dir. rewrite revChars_spec, app_nil_r, list_ascii_of_string_append.
    cbn [append list_ascii_of_string]. rewrite rev_app_distr. cbn [rev].
    rewrite <- app_assoc. cbn [app].
    rewrite stripExt_no_dot; [reflexivity | exact H | right; left; now eexists].
  - intros base. rewrite revChars_spec, app_nil_r, list_ascii_of_string_append.
    cbn [list_ascii_of_string]. rewrite rev_app_distr. cbn [rev app].
    reflexivity.
Qed.

(** X1.  [replaceExtension] swaps the extension: for a name that ends
    in a dot and an extension (one character or more, none of them a
    dot or a slash), whatever comes before that dot is kept, dots and
    slashes included, and the new extension takes the place of the old
    one. *)
Theorem replaceExtension_swaps (base ext next : string) :
  isExtension ext = true ->
  replaceExtension (base ++ "." ++ ext)%string next = (base ++ "." ++ next)%string.
Proof.
  intros H. unfold replaceExtension. now rewrite dropExtension_extension.
Qed.

Lemma replaceExtension_swaps_witness :
  replaceExtension ("scans/2024.05/page.tar" ++ "." ++ "gz")%string "jpg"
  = ("scans/2024.05/page.tar" ++ "." ++ "jpg")%string.
Proof.
  apply (replaceExtension_swaps "scans/2024.05/page.tar" "gz" "jpg"). reflexivity.
Defined.

(** X2.  [replaceExtension] appends when there is nothing to swap: a
    name without a dot, a name whose last path segment has no dot (even
    when a directory before it has one), and a name that ends in a dot
    all keep every character and get a dot and the new extension
    appended. *)
Theorem replaceExtension_appends (leaf next : string) :
  allChars notDot leaf = true ->
  replaceExtension leaf next = (leaf ++ "." ++ next)%string
  /\ (forall dir,
         replaceExtension (dir ++ "/" ++ leaf)%string next
         = ((dir ++ "/" ++ leaf) ++ "." ++ next)%string)
  /\ (forall base,
         replaceExtension (base ++ ".")%string next = ((base ++ ".") ++ "." ++ next)%string).
Proof.
  intros H. destruct (dropExtension_no_dot leaf H) as [H1 [H2 H3]].
  unfold replaceExtension. split; [|split].
  - now rewrite H1.
  - intros dir. now rewrite H2.
  - intros base. now rewrite H3.
Qed.

Lemma replaceExtension_appends_witness :
  replaceExtension ("v1.2" ++ "/" ++ "README")%string "jpg"
  = (("v1.2" ++ "/" ++ "README") ++ "." ++ "jpg")%string.
Proof.
  apply (proj1 (proj2 (replaceExtension_appends "README" "jpg" eq_refl)) "v1.2").
Defined.

(** X3.  Replacing the extension twice is replacing it once: after a
    first replacement by an extension, a second replacement gives the
    name the second replacement alone gives. *)
Theorem replaceExtension_twice (name ext next : string) :
  isExtension ext = true ->
  replaceExtension (replaceExtension name ext) next = replaceExtension name next.
Proof.
  intros H. unfold replaceExtension at 2.
  unfold replaceExtension at 1. now rewrite dropExtension_extension.
Qed.

Lemma replaceExtension_twice_witness :
  replaceExtension (replaceExtension "a.b/scan.png" "jpg") "md"
  = replaceExtension "a.b/scan.png" "md".
Proof.
  apply (replaceExtension_twice "a.b/scan.png" "jpg" "md"). reflexivity.
Defined.

Lemma showNat_inj (n m : nat) : Js.showNat n = Js.showNat m -> n = m.
Proof.
  unfold Js.showNat. intros H. apply (f_equal NilEmpty.uint_of_string) in H.
  rewrite !NilEmpty.usu in H. injection H as H.
  now apply DecimalNat.Unsigned.to_uint_inj.
Qed.

Lemma partName_spec (fileName : string) (p : nat) :
  partName fileName p
  = (Js.dropExtension fileName ++ ".part-" ++ Js.showNat p ++ ".pdf")%string.
Proof. reflexivity. Qed.

Lemma partName_inj (fileName : string) (p q : nat) :
  partName fileName p = partName fileName q -> p = q.
Proof.
  rewrite !partName_spec. intros H. apply append_inv_head in H.
  change (".part-" ++ Js.showNat p ++ ".pdf")%string
    with (".part-" ++ (Js.showNat p ++ ".pdf"))%string in H.
  apply (append_inv_head ".part-") in H. apply append_inv_tail in H.
  now apply showNat_inj.
Qed.

Lemma nth_error_seq_eq (len : nat) :
  forall start i x, nth_error (seq start len) i = Some x -> x = start + i.
Proof.
  induction len as [|len IH]; intros start i x H; destruct i; cbn in H; try discriminate.
  - injection H as <-. lia.
  - apply IH in H. lia.
Qed.

Lemma NoDup_map_injective (A B : Type) (g : A -> B) (l : list A) :
  (forall x y, g x = g y -> x = y) -> NoDup l -> NoDup (map g l).
Proof.
  intros Hinj. induction 1 as [|x l Hx Hl IH]; cbn; constructor; [|exact IH].
  intros Hin. apply in_map_iff in Hin. destruct Hin as [y [Heq Hy]].
  apply Hinj in Heq. now subst y.
Qed.

Section SplitShape.

Variables (plat : Platform) (file : File) (pageCount : nat).

(** Every chunk the outer loop accepts was made by [createPdfChunk] for
    a range of 1 to 40 pages, and is within the hard limit. *)
Lemma splitLoop_shape (fuel : nat) :
  forall (chunks : list File) (cursor part : nat) (all : list File) (n : nat),
    pageCount - cursor <= fuel ->
    splitLoop plat fuel file pageCount chunks cursor part = Some (Ok (all, n)) ->
    exists new,
      all = chunks ++ new /\
      Forall (fun c =>
                (exists s e p,
                    c = createPdfChunk plat file s e (name file) p
                    /\ s < e /\ e <= s + PDF_CHUNK_MAX_PAGES /\ e <= pageCount)
                /\ (size c <= OCR_PDF_LIMIT_BYTES)%N) new.
Proof.
  induction fuel as [|fuel IH]; intros chunks cursor part all n Hfuel Hrun.
  - rewrite splitLoop_done in Hrun by lia. injection Hrun as <- _.
    exists []. now rewrite app_nil_r.
  - destruct (le_lt_dec pageCount cursor) as [Hge | Hlt].
    + rewrite splitLoop_done in Hrun by lia. injection Hrun as <- _.
      exists []. now rewrite app_nil_r.
    + rewrite splitLoop_step in Hrun by exact Hlt.
      destruct (candidate_spec plat file pageCount cursor part Hlt)
        as [end_ [Hc [H1 [H2 [H3 _]]]]].
      rewrite Hc in Hrun.
      destruct (OCR_PDF_LIMIT_BYTES <? size _)%N eqn:Hhard; [discriminate|].
      apply N.ltb_ge in Hhard.
      assert (Hleft : pageCount - end_ <= fuel) by lia.
      destruct (IH _ _ _ _ _ Hleft Hrun) as [new [Hall Hnew]].
      exists (createPdfChunk plat file cursor end_ (name file) part :: new).
      split; [now rewrite Hall, <- app_assoc|].
      constructor; [|exact Hnew]. split; [|exact Hhard].
      exists cursor, end_, part. repeat split; assumption.
Qed.

End SplitShape.

(** X4.  The chunks of a split are PDF files named after the source:
    chunk number i (counted from 1) is called as the source with its
    extension dropped, followed by ".part-i.pdf"; no two chunks of one
    split have the same name. *)
Theorem splitPdfForOcr_chunk_names (plat : Platform) (f : File)
    (chunks : list File) (pageCount : nat) :
  splitPdfForOcr plat f = Some (Ok (chunks, pageCount)) ->
  (forall i c,
      nth_error chunks i = Some c ->
      name c = (Js.dropExtension (name f) ++ ".part-" ++ Js.showNat (i + 1) ++ ".pdf")%string
      /\ type c = "application/pdf"%string)
  /\ NoDup (map name chunks).
Proof.
  intros Hsplit.
  pose proof (split_names plat f chunks pageCount Hsplit) as Hnames.
  assert (Hshape : Forall (fun c => type c = "application/pdf"%string) chunks).
  { unfold splitPdfForOcr in Hsplit.
    destruct (pdfLoad plat f) as [message | n]; [discriminate|].
    destruct (splitLoop_shape plat f n n [] 0 1 chunks pageCount) as [new [Hall Hnew]];
      [lia | exact Hsplit |].
    cbn [app] in Hall. subst new.
    eapply Forall_impl; [|exact Hnew].
    intros c [[s [e [p [-> _]]]] _]. reflexivity. }
  split.
  - intros i c Hnth. split.
    + pose proof (map_nth_error name i chunks Hnth) as Hn.
      rewrite Hnames, nth_error_map in Hn.
      destruct (nth_error (seq 1 (length chunks)) i) as [p|] eqn:Hp; [|discriminate].
      injection Hn as Hname.
      apply nth_error_seq_eq in Hp. subst p.
      rewrite Nat.add_comm in Hname. now rewrite <- Hname, partName_spec.
    + rewrite Forall_forall in Hshape. apply Hshape.
      eapply nth_error_In. exact Hnth.
  - rewrite Hnames. apply NoDup_map_injective; [apply partName_inj | apply seq_NoDup].
Qed.

Lemma splitPdfForOcr_chunk_names_witness :
  NoDup (map name (Sample.chunksOf Sample.threePages Sample.book)).
Proof.
  apply (splitPdfForOcr_chunk_names Sample.threePages Sample.book
           (Sample.chunksOf Sample.threePages Sample.book) 3).
  vm_compute. reflexivity.
Defined.

(** ** Image compression: what comes out *)

Section CompressionResults.

Variables (plat : Platform) (file : File).

Lemma qualityLoop_some (canvas : Canvas) (qs : list Tenths) (f' : File) :
  qualityLoop plat file canvas qs = Ok (Some f') ->
  exists q sz,
    In q qs /\ f' = compressedFile file canvas q sz /\ (sz <= OCR_IMAGE_LIMIT_BYTES)%N.
Proof.
  induction qs as [|q qs IH]; cbn [qualityLoop]; [discriminate|].
  unfold canvasToBlob. destruct (toBlob plat file canvas q) as [sz|]; cbn [rbind];
    [|discriminate].
  destruct (sz <=? OCR_IMAGE_LIMIT_BYTES)%N eqn:Hfit.
  - intros H. injection H as <-. exists q, sz. apply N.leb_le in Hfit.
    repeat split; [now left | exact Hfit].
  - intros H. destruct (IH H) as [q' [sz' [Hin Hrest]]].
    exists q', sz'. split; [now right | exact Hrest].
Qed.

Lemma qualityLoop_err (canvas : Canvas) (qs : list Tenths) (m : string) :
  qualityLoop plat file canvas qs = Err m ->
  m = "Could not encode compressed image"%string.
Proof.
  induction qs as [|q qs IH]; cbn [qualityLoop]; [discriminate|].
  unfold canvasToBlob. destruct (toBlob plat file canvas q) as [sz|]; cbn [rbind].
  - destruct (sz <=? OCR_IMAGE_LIMIT_BYTES)%N; [discriminate | exact IH].
  - intros H. now injection H as <-.
Qed.

Lemma scaleLoop_ok (image : Image) (ss : list Tenths) (f' : File) :
  scaleLoop plat file image ss = Ok f' ->
  exists s q sz,
    In s ss /\ In q qualities
    /\ f' = compressedFile file (canvasFor plat image s) q sz
    /\ (sz <= OCR_IMAGE_LIMIT_BYTES)%N.
Proof.
  induction ss as [|s ss IH]; cbn [scaleLoop]; [discriminate|].
  destruct (getContext2d plat (canvasFor plat image s)); cbn [negb]; [|discriminate].
  destruct (qualityLoop plat file (canvasFor plat image s) qualities) as [[found|] | m] eqn:Hq;
    cbn [rbind]; [| |discriminate].
  - intros H. injection H as <-.
    destruct (qualityLoop_some _ _ _ Hq) as [q [sz [Hin [Hf Hsz]]]].
    exists s, q, sz. repeat split; [now left | exact Hin | exact Hf | exact Hsz].
  - intros H. destruct (IH H) as [s' [q [sz [Hs Hrest]]]].
    exists s', q, sz. split; [now right | exact Hrest].
Qed.

Lemma scaleLoop_err (image : Image) (ss : list Tenths) (m : string) :
  scaleLoop plat file image ss = Err m ->
  m = "Could not initialize canvas for image compression"%string
  \/ m = "Could not encode compressed image"%string
  \/ m = tooLargeMessage.
Proof.
  induction ss as [|s ss IH]; cbn [scaleLoop].
  - intros H. injection H as <-. now right; right.
  - destruct (getContext2d plat (canvasFor plat image s)); cbn [negb].
    + destruct (qualityLoop plat file (canvasFor plat image s) qualities)
        as [[found|] | m'] eqn:Hq; cbn [rbind]; [discriminate | exact IH |].
      intros H. injection H as <-. right; left. exact (qualityLoop_err _ _ _ Hq).
    + intros H. injection H as <-. now left.
Qed.

End CompressionResults.

(** X5.  Whatever [compressImageForOcr] returns is within the 10 MiB
    image budget.  It is the input file itself, or, for an input over the
    budget, a JPEG named as the input with the extension "jpg", encoded
    at one of the five qualities from a canvas at least one pixel wide
    and one pixel high. *)
Theorem compressImageForOcr_result (plat : Platform) (file f' : File) :
  compressImageForOcr plat file = Ok f' ->
  (size f' <= OCR_IMAGE_LIMIT_BYTES)%N
  /\ (f' = file
      \/ ((OCR_IMAGE_LIMIT_BYTES < size file)%N
          /\ type f' = "image/jpeg"%string
          /\ name f' = replaceExtension (name file) "jpg"
          /\ exists w h q,
               blob f' = CanvasJpeg (blob file) w h q
               /\ In q qualities /\ (1 <= w)%N /\ (1 <= h)%N)).
Proof.
  unfold compressImageForOcr.
  destruct (size file <=? OCR_IMAGE_LIMIT_BYTES)%N eqn:Hsize.
  - intros H. injection H as <-. apply N.leb_le in Hsize. split; [exact Hsize | now left].
  - apply N.leb_gt in Hsize. unfold loadImageElement.
    destruct (decodeImage plat file) as [image|]; cbn [rbind]; [|discriminate].
    intros H. destruct (scaleLoop_ok plat file image scales f' H)
      as [s [q [sz [_ [Hq [-> Hsz]]]]]].
    split; [exact Hsz | right]. repeat split; [exact Hsize|].
    eexists _, _, q. cbn [compressedFile blob canvasFor width height].
    repeat split; [exact Hq | apply N.le_max_l | apply N.le_max_l].
Qed.

Lemma compressImageForOcr_result_witness :
  (size {| name := "scan.jpg"; type := "image/jpeg"; size := 9600000;
           blob := CanvasJpeg (UserBlob 1) 4000 3000 8%N |}
   <= OCR_IMAGE_LIMIT_BYTES)%N.
Proof.
  apply (compressImageForOcr_result (Sample.platform 0 0) (Sample.png (12 * Sample.MiB))
           {| name := "scan.jpg"; type := "image/jpeg"; size := 9600000;
              blob := CanvasJpeg (UserBlob 1) 4000 3000 8%N |}).
  vm_compute. reflexivity.
Defined.

(** X6.  [compressImageForOcr] fails only for an image over the budget,
    and only with one of four messages: the image does not decode, the
    canvas gives no 2d context, the canvas gives no blob, or every
    attempt is over the budget.  An image over the budget that does not
    decode fails with the first of them. *)
Theorem compressImageForOcr_errors (plat : Platform) (file : File) :
  (forall m,
      compressImageForOcr plat file = Err m ->
      (OCR_IMAGE_LIMIT_BYTES < size file)%N
      /\ (m = "Failed to decode image"%string
          \/ m = "Could not initialize canvas for image compression"%string
          \/ m = "Could not encode compressed image"%string
          \/ m = "Image is still too large after compression. Please resize it manually and try again."%string))
  /\ ((OCR_IMAGE_LIMIT_BYTES < size file)%N ->
      decodeImage plat file = None ->
      compressImageForOcr plat file = Err "Failed to decode image"%string).
Proof.
  unfold compressImageForOcr, loadImageElement. split.
  - intros m. destruct (size file <=? OCR_IMAGE_LIMIT_BYTES)%N eqn:Hsize; [discriminate|].
    apply N.leb_gt in Hsize. split; [exact Hsize|].
    destruct (decodeImage plat file) as [image|]; cbn [rbind] in *.
    + right. exact (scaleLoop_err plat file image scales m H).
    + injection H as <-. now left.
  - intros Hsize Hdec. apply N.leb_gt in Hsize. now rewrite Hsize, Hdec.
Qed.

(** ** PDF splitting: sizes and counts *)

Lemma concat_length_bounds (A : Type) (lo hi : nat) (ls : list (list A)) :
  Forall (fun l => lo <= length l /\ length l <= hi) ls ->
  lo * length ls <= length (concat ls) /\ length (concat ls) <= hi * length ls.
Proof.
  induction 1 as [|l ls [Hlo Hhi] _ [IHlo IHhi]]; cbn [concat length]; [lia|].
  rewrite length_app. nia.
Qed.

(** X7.  Every chunk of a split holds at least one page and at most 40,
    is at most 50 MiB, and its size is the size of the saved document of
    exactly its pages.  So a document of [pageCount] pages gives at most
    [pageCount] chunks and at least [pageCount / 40]. *)
Theorem splitPdfForOcr_chunk_bounds (plat : Platform) (f : File)
    (chunks : list File) (pageCount : nat) :
  splitPdfForOcr plat f = Some (Ok (chunks, pageCount)) ->
  Forall (fun c =>
            1 <= length (pageIndexesOf c)
            /\ length (pageIndexesOf c) <= PDF_CHUNK_MAX_PAGES
            /\ (size c <= OCR_PDF_LIMIT_BYTES)%N
            /\ size c = savedSize plat f (pageIndexesOf c)) chunks
  /\ length chunks <= pageCount
  /\ pageCount <= PDF_CHUNK_MAX_PAGES * length chunks.
Proof.
  intros Hsplit.
  assert (Hpages : length (concat (map pageIndexesOf chunks)) = pageCount).
  { unfold splitPdfForOcr in Hsplit.
    destruct (pdfLoad plat f) as [message | n]; [discriminate|].
    destruct (splitLoop_spec plat f n n [] 0 1) as [r [Hr Hspec]]; [lia | lia |].
    rewrite Hr in Hsplit. injection Hsplit as ->.
    destruct Hspec as [-> [new [Hall [Hpart _]]]]. cbn [app] in Hall. subst new.
    destruct (partitionFrom_concat n chunks 0 Hpart) as [_ ->].
    rewrite length_seq. lia. }
  assert (Hshape : Forall (fun c =>
                             1 <= length (pageIndexesOf c)
                             /\ length (pageIndexesOf c) <= PDF_CHUNK_MAX_PAGES
                             /\ (size c <= OCR_PDF_LIMIT_BYTES)%N
                             /\ size c = savedSize plat f (pageIndexesOf c)) chunks).
  { unfold splitPdfForOcr in Hsplit.
    destruct (pdfLoad plat f) as [message | n]; [discriminate|].
    destruct (splitLoop_shape plat f n n [] 0 1 chunks pageCount) as [new [Hall Hnew]];
      [lia | exact Hsplit |].
    cbn [app] in Hall. subst new.
    eapply Forall_impl; [|exact Hnew].
    intros c [[s [e [p [Hc [H1 [H2 _]]]]]] Hsize].
    rewrite Hc in *. rewrite pageIndexesOf_createPdfChunk, length_seq.
    split; [lia | split; [lia | split; [exact Hsize|]]].
    unfold createPdfChunk. cbn [size]. now rewrite map_add_seq. }
  split; [exact Hshape|].
  destruct (concat_length_bounds nat 1 PDF_CHUNK_MAX_PAGES (map pageIndexesOf chunks))
    as [Hlo Hhi].
  - rewrite Forall_map. eapply Forall_impl; [|exact Hshape].
    intros c [H1 [H2 _]]. now split.
  - rewrite length_map in Hlo, Hhi. lia.
Qed.

Lemma splitPdfForOcr_chunk_bounds_witness :
  length (Sample.chunksOf (Sample.platform 120 Sample.MiB) (Sample.pdf (60 * Sample.MiB)))
  <= 120.
Proof.
  apply (splitPdfForOcr_chunk_bounds (Sample.platform 120 Sample.MiB)
           (Sample.pdf (60 * Sample.MiB))
           (Sample.chunksOf (Sample.platform 120 Sample.MiB) (Sample.pdf (60 * Sample.MiB)))
           120).
  vm_compute. reflexivity.
Defined.

Lemma blocks_more (x : nat) : (x + 40 + 39) / 40 = S ((x + 39) / 40).
Proof.
  replace (x + 40 + 39) with ((x + 39) + 1 * 40) by lia.
  rewrite Nat.div_add by lia. lia.
Qed.

Lemma blocks_last (d : nat) : 1 <= d -> d < 40 -> (d + 39) / 40 = 1.
Proof.
  intros. symmetry. apply (Nat.div_unique (d + 39) 40 1 (d - 1)); lia.
Qed.

Section RegularSplit.

Variables (plat : Platform) (file : File) (pageCount : nat).

Hypothesis Hfits :
  forall start len,
    len <= PDF_CHUNK_MAX_PAGES ->
    (savedSize plat file (seq start len) <= PDF_CHUNK_TARGET_BYTES)%N.

Lemma candidate_fits (cursor part : nat) :
  cursor < pageCount ->
  candidate plat file pageCount cursor part
  = Some (Nat.min (cursor + PDF_CHUNK_MAX_PAGES) pageCount,
          createPdfChunk plat file cursor
            (Nat.min (cursor + PDF_CHUNK_MAX_PAGES) pageCount) (name file) part).
Proof.
  intros Hlt. unfold candidate.
  set (end0 := Nat.min (cursor + PDF_CHUNK_MAX_PAGES) pageCount).
  assert (Hsize : (PDF_CHUNK_TARGET_BYTES
                   <? size (createPdfChunk plat file cursor end0 (name file) part))%N = false).
  { apply N.ltb_ge. unfold createPdfChunk. cbn [size]. rewrite map_add_seq.
    apply Hfits. unfold end0. lia. }
  destruct (end0 - cursor); cbn [shrinkLoop]; now rewrite Hsize.
Qed.

Lemma splitLoop_blocks (fuel : nat) :
  forall (chunks : list File) (cursor part : nat),
    cursor <= pageCount -> pageCount - cursor <= fuel ->
    exists new,
      splitLoop plat fuel file pageCount chunks cursor part
      = Some (Ok (chunks ++ new, pageCount))
      /\ length new = (pageCount - cursor + 39) / 40
      /\ forall i c,
           nth_error new i = Some c ->
           pageIndexesOf c
           = seq (cursor + 40 * i) (Nat.min 40 (pageCount - (cursor + 40 * i))).
Proof.
  induction fuel as [|fuel IH]; intros chunks cursor part Hle Hfuel.
  - exists []. rewrite splitLoop_done, app_nil_r by lia.
    replace (pageCount - cursor) with 0 by lia.
    repeat split. intros [|i] c H; discriminate.
  - destruct (Nat.eq_dec cursor pageCount) as [Heq | Hne].
    + exists []. rewrite splitLoop_done, app_nil_r by lia.
      replace (pageCount - cursor) with 0 by lia.
      repeat split. intros [|i] c H; discriminate.
    + assert (Hlt : cursor < pageCount) by lia.
      rewrite splitLoop_step, candidate_fits by exact Hlt.
      set (end_ := Nat.min (cursor + PDF_CHUNK_MAX_PAGES) pageCount).
      set (chunk := createPdfChunk plat file cursor end_ (name file) part).
      assert (Hend : cursor < end_ /\ end_ <= pageCount
                     /\ end_ - cursor = Nat.min 40 (pageCount - cursor)).
      { unfold end_, PDF_CHUNK_MAX_PAGES. lia. }
      assert (Hhard : (OCR_PDF_LIMIT_BYTES <? size chunk)%N = false).
      { apply N.ltb_ge. unfold chunk, createPdfChunk. cbn [size]. rewrite map_add_seq.
        apply N.le_trans with PDF_CHUNK_TARGET_BYTES.
        - apply Hfits. unfold end_. lia.
        - unfold PDF_CHUNK_TARGET_BYTES, OCR_PDF_LIMIT_BYTES. lia. }
      rewrite Hhard.
      destruct (IH (chunks ++ [chunk]) end_ (part + 1)) as [new [Hrun [Hlen Hnth]]];
        [lia | lia |].
      exists (chunk :: new). rewrite Hrun, <- app_assoc. split; [reflexivity|].
      destruct (le_lt_dec (cursor + 40) pageCount) as [Hfull | Hlast].
      * assert (Hend40 : end_ = cursor + 40) by (unfold end_, PDF_CHUNK_MAX_PAGES; lia).
        split.
        -- cbn [length]. rewrite Hlen, Hend40.
           replace (pageCount - cursor) with (pageCount - (cursor + 40) + 40) by lia.
           now rewrite blocks_more.
        -- intros [|i] c Hc; cbn [nth_error] in Hc.
           ++ injection Hc as <-. unfold chunk.
              rewrite pageIndexesOf_createPdfChunk, Nat.mul_0_r, Nat.add_0_r.
              f_equal. lia.
           ++ rewrite (Hnth i c Hc), Hend40. f_equal; [lia | f_equal; lia].
      * assert (Hendp : end_ = pageCount) by (unfold end_, PDF_CHUNK_MAX_PAGES; lia).
        rewrite Hendp, Nat.sub_diag in Hlen. cbn in Hlen.
        destruct new; [|discriminate]. split.
        -- cbn [length]. now rewrite blocks_last by lia.
        -- intros [|i] c Hc; cbn [nth_error] in Hc.
           ++ injection Hc as <-. unfold chunk.
              rewrite pageIndexesOf_createPdfChunk, Nat.mul_0_r, Nat.add_0_r.
              f_equal. lia.
           ++ now destruct i.
Qed.

End RegularSplit.

(** X8.  When every run of up to 40 pages of a document saves to at
    most the 45 MiB target, the split never fails and cuts the document
    into blocks of 40 pages: there are [pageCount / 40] chunks, rounded
    up, and chunk number i (counted from 0) holds the pages from 40 i up
    to 40 i + 40, or up to the last page for the last chunk. *)
Theorem splitPdfForOcr_regular (plat : Platform) (f : File) (pageCount : nat) :
  pdfLoad plat f = inr pageCount ->
  (forall start len,
      len <= PDF_CHUNK_MAX_PAGES ->
      (savedSize plat f (seq start len) <= PDF_CHUNK_TARGET_BYTES)%N) ->
  exists chunks,
    splitPdfForOcr plat f = Some (Ok (chunks, pageCount))
    /\ length chunks = (pageCount + 39) / 40
    /\ forall i c,
         nth_error chunks i = Some c ->
         pageIndexesOf c = seq (40 * i) (Nat.min 40 (pageCount - 40 * i)).
Proof.
  intros Hload Hfits. unfold splitPdfForOcr. rewrite Hload.
  destruct (splitLoop_blocks plat f pageCount Hfits pageCount [] 0 1)
    as [new [Hrun [Hlen Hnth]]]; [lia | lia |].
  exists new. cbn [app] in Hrun. rewrite Nat.sub_0_r in Hlen.
  repeat split; [exact Hrun | exact Hlen | exact Hnth].
Qed.

Lemma splitPdfForOcr_regular_witness :
  exists chunks,
    splitPdfForOcr (Sample.platform 120 Sample.MiB) (Sample.pdf (60 * Sample.MiB))
    = Some (Ok (chunks, 120))
    /\ length chunks = (120 + 39) / 40.
Proof.
  destruct (splitPdfForOcr_regular (Sample.platform 120 Sample.MiB)
              (Sample.pdf (60 * Sample.MiB)) 120)
    as [chunks [Hrun [Hlen _]]].
  - reflexivity.
  - intros start len Hlen. cbn [savedSize Sample.platform]. rewrite length_seq.
    unfold PDF_CHUNK_MAX_PAGES in Hlen. unfold PDF_CHUNK_TARGET_BYTES, Sample.MiB. lia.
  - exists chunks. split; [exact Hrun | exact Hlen].
Defined.

(** ** The pipeline, branch by branch *)

Section Branches.

Variables (plat : Platform) (net : Network).

(** The submissions of a list of files all succeed, or there is a first
    one that fails. *)
Lemma responses_dichotomy (files : list File) :
  forall call,
    (exists ts, responses plat net call files = map Ok ts)
    \/ (exists pre c post ts m,
           files = pre ++ c :: post
           /\ responses plat net call pre = map Ok ts
           /\ readOcrResponse plat (net (call + length pre) c) = Err m).
Proof.
  induction files as [|f files IH]; intros call.
  - left. now exists [].
  - destruct (readOcrResponse plat (net call f)) as [t | m] eqn:Hf.
    + destruct (IH (S call)) as [[ts Hts] | [pre [c [post [ts [m [Hfiles [Hpre Hc]]]]]]]].
      * left. exists (t :: ts). cbn [responses map]. now rewrite Hf, Hts.
      * right. exists (f :: pre), c, post, (t :: ts), m. cbn [responses map length app].
        rewrite Hf, Hpre, Hfiles. repeat split. now rewrite Nat.add_succ_r.
    + right. exists [], f, files, [], m. cbn [length app responses map].
      rewrite Nat.add_0_r. now repeat split.
Qed.

(** The requests and the pauses of the chunk loop. *)
Lemma paced_loopTrace (files : list File) :
  forall i, requestsAndSleeps (loopTrace (i + length files) i files) = paced files.
Proof.
  induction files as [|c files IH]; intros i; [reflexivity|].
  cbn [loopTrace requestsAndSleeps length paced].
  replace (i + S (length files)) with (i + 1 + length files) by lia.
  destruct files as [|c' files].
  - cbn [length]. replace (i + 1 + 0 - 1) with i by lia.
    now rewrite Nat.ltb_irrefl.
  - replace (i <? i + 1 + length (c' :: files) - 1) with true
      by (symmetry; apply Nat.ltb_lt; cbn [length]; lia).
    cbn [app requestsAndSleeps]. now rewrite IH.
Qed.

Lemma paced_loopTrace_fail (pre : list File) :
  forall c (post : list File) i n,
    n = i + length pre + S (length post) ->
    requestsAndSleeps (loopTrace n i pre) ++ [EvFetch c] = paced (pre ++ [c]).
Proof.
  induction pre as [|p pre IH]; intros c post i n Hn; [reflexivity|].
  cbn [loopTrace requestsAndSleeps length app paced].
  replace (i <? n - 1) with true by (symmetry; apply Nat.ltb_lt; cbn [length] in Hn; lia).
  cbn [app requestsAndSleeps].
  rewrite (IH c post (i + 1) n) by (cbn [length] in Hn; lia).
  now destruct pre.
Qed.

(** What [submitted] is, by the answers. *)
Lemma submitted_all (chunks : list File) :
  forall call ts,
    responses plat net call chunks = map Ok ts -> submitted plat net call chunks = chunks.
Proof.
  induction chunks as [|c chunks IH]; intros call ts H; [reflexivity|].
  cbn [responses submitted] in *. destruct ts as [|t ts]; [discriminate|].
  cbn [map] in H. injection H as Hc Hrest. rewrite Hc. now rewrite (IH _ _ Hrest).
Qed.

Lemma submitted_fail (pre : list File) :
  forall call c post ts m,
    responses plat net call pre = map Ok ts ->
    readOcrResponse plat (net (call + length pre) c) = Err m ->
    submitted plat net call (pre ++ c :: post) = pre ++ [c].
Proof.
  induction pre as [|p pre IH]; intros call c post ts m Hpre Hc.
  - cbn [app submitted length] in *. rewrite Nat.add_0_r in Hc. now rewrite Hc.
  - cbn [app submitted responses length] in *. destruct ts as [|t ts]; [discriminate|].
    cbn [map] in Hpre. injection Hpre as Hp Hrest. rewrite Hp.
    rewrite (IH (S call) c post ts m Hrest); [reflexivity|].
    now rewrite Nat.add_succ_comm.
Qed.

(** The chunk loop for any answers: it ends, having sent the first
    chunks of the list, in order, with a pause between two requests. *)
Lemma exec_submitChunks_any (chunks : list File) (call : nat) :
  exists r tr k,
    exec net (submitChunks plat (length chunks) 0 chunks []) call = (Some r, tr)
    /\ requests tr = firstn k chunks
    /\ requestsAndSleeps tr = paced (firstn k chunks)
    /\ submissionsAndTexts tr = map EvFetch (firstn k chunks)
    /\ (forall ts, r = Ok ts -> k = length chunks)
    /\ k <= length chunks
    /\ (chunks <> [] -> 1 <= k).
Proof.
  pose proof paced_loopTrace as Hpaced.
  pose proof paced_loopTrace_fail as Hpaced_fail.
  destruct (responses_dichotomy chunks call)
    as [[ts Hts] | [pre [c [post [ts [m [Hfiles [Hpre Hc]]]]]]]].
  - exists (Ok ts), (loopTrace (length chunks) 0 chunks), (length chunks).
    rewrite (exec_submitChunks_ok plat net (length chunks) chunks 0 [] call ts Hts).
    rewrite firstn_all, requests_loopTrace, submissionsAndTexts_loopTrace.
    repeat split; [exact (Hpaced chunks 0) | lia |].
    destruct chunks; [congruence | cbn; lia].
  - exists (Err m),
      (loopTrace (length chunks) 0 pre
       ++ [EvUpd (SetStatusMessage (Some (chunkStatus (0 + length pre) (length chunks))));
           EvFetch c]),
      (S (length pre)).
    assert (Hfirst : firstn (S (length pre)) chunks = pre ++ [c]).
    { rewrite Hfiles. change (c :: post) with ([c] ++ post). rewrite app_assoc.
      replace (S (length pre)) with (length (pre ++ [c]))
        by (rewrite length_app; cbn; lia).
      now rewrite firstn_app, firstn_all, Nat.sub_diag, app_nil_r. }
    rewrite Hfirst. split; [|split; [|split; [|split; [|split; [|split]]]]].
    + rewrite Hfiles at 2.
      exact (exec_submitChunks_fail plat net (length chunks) pre 0 [] call ts c post m Hpre Hc).
    + now rewrite requests_app, requests_loopTrace.
    + replace (requestsAndSleeps
                 (loopTrace (length chunks) 0 pre
                  ++ [EvUpd (SetStatusMessage
                               (Some (chunkStatus (0 + length pre) (length chunks))));
                      EvFetch c]))
        with (requestsAndSleeps (loopTrace (length chunks) 0 pre) ++ [EvFetch c]).
      * apply (Hpaced_fail pre c post 0). rewrite Hfiles, length_app. cbn [length]. lia.
      * clear. induction (loopTrace (length chunks) 0 pre) as [|[u | b | ms] l IH];
          cbn [app requestsAndSleeps]; now rewrite ?IH.
    + now rewrite submissionsAndTexts_app, submissionsAndTexts_loopTrace, map_app.
    + discriminate.
    + rewrite Hfiles, length_app. cbn [length]. lia.
    + lia.
Qed.

Lemma splitPdfForOcr_settles (f : File) : exists r, splitPdfForOcr plat f = Some r.
Proof.
  unfold splitPdfForOcr. destruct (pdfLoad plat f) as [message | n]; [now eexists|].
  destruct (splitLoop_spec plat f n n [] 0 1) as [r [Hr _]]; [lia | lia |].
  now exists r.
Qed.

(** A single submission followed by [setText]. *)
Lemma exec_single (statusLine : string) (f : File) (call : nat) :
  exec net
    (Upd (SetStatusMessage (Some statusLine))
       (Fetch f (fun res => bind (liftResult (readOcrResponse plat res))
                              (fun t => upd (SetText t)))))
    call
  = match readOcrResponse plat (net call f) with
    | Ok t =>
        (Some (Ok tt),
         [EvUpd (SetStatusMessage (Some statusLine)); EvFetch f; EvUpd (SetText t)])
    | Err m =>
        (Some (Err m), [EvUpd (SetStatusMessage (Some statusLine)); EvFetch f])
    end.
Proof.
  cbn [exec]. now destruct (readOcrResponse plat (net call f)).
Qed.

Lemma image_is_not_pdf (t : string) :
  Js.startsWith t "image/" = true -> String.eqb t "application/pdf" = false.
Proof.
  unfold Js.startsWith. destruct t as [|c t]; [discriminate|]. cbn [String.prefix].
  destruct (ascii_dec "i" c) as [<- | Hne]; [reflexivity | discriminate].
Qed.

Lemma processBody_image (f f' : File) :
  Js.startsWith (type f) "image/" = true ->
  compressImageForOcr plat f = Ok f' ->
  processBody plat f =
  Upd (SetStatusMessage
         (Some (if (size f <=? OCR_IMAGE_LIMIT_BYTES)%N
                then "Processing image..."
                else "Image compressed. Running OCR...")%string))
    (Fetch f' (fun res => bind (liftResult (readOcrResponse plat res))
                            (fun t => upd (SetText t)))).
Proof.
  intros Htype Hcompress. unfold processBody. rewrite Htype, Hcompress.
  cbn [liftResult bind upd submitFileToOcr].
  replace (size f' =? size f)%N with (size f <=? OCR_IMAGE_LIMIT_BYTES)%N; [reflexivity|].
  unfold compressImageForOcr in Hcompress.
  destruct (size f <=? OCR_IMAGE_LIMIT_BYTES)%N eqn:Hsize.
  - injection Hcompress as <-. symmetry. apply N.eqb_refl.
  - apply N.leb_gt in Hsize. unfold loadImageElement in Hcompress.
    destruct (decodeImage plat f) as [image|]; cbn [rbind] in Hcompress; [|discriminate].
    destruct (scaleLoop_ok plat f image scales f' Hcompress)
      as [s [q [sz [_ [_ [-> Hsz]]]]]].
    cbn [compressedFile size]. symmetry. apply N.eqb_neq. lia.
Qed.

Lemma processBody_image_failure (f : File) (m : string) :
  Js.startsWith (type f) "image/" = true ->
  compressImageForOcr plat f = Err m ->
  processBody plat f = Throw m.
Proof.
  intros Htype Hcompress. unfold processBody. now rewrite Htype, Hcompress.
Qed.

Lemma processBody_unsupported (f : File) :
  Js.startsWith (type f) "image/" = false ->
  type f <> "application/pdf"%string ->
  processBody plat f = Throw "Unsupported file type. Please upload an image or PDF.".
Proof.
  intros Himage Hpdf. unfold processBody. rewrite Himage.
  apply String.eqb_neq in Hpdf. now rewrite Hpdf.
Qed.

(** The PDF branch, whatever the file is. *)
Lemma processBody_pdf (f : File) :
  type f = "application/pdf"%string ->
  processBody plat f =
  (if (OCR_PDF_LIMIT_BYTES <? size f)%N then splitAndSubmit plat f
   else match pdfLoad plat f with
        | inl message => Throw message
        | inr n =>
            if n <=? OCR_PDF_PAGE_LIMIT
            then Upd (SetStatusMessage (Some "Processing PDF..."%string))
                   (Fetch f (fun res => bind (liftResult (readOcrResponse plat res))
                                          (fun t => upd (SetText t))))
            else splitAndSubmit plat f
        end).
Proof.
  intros Htype. unfold processBody. rewrite Htype.
  change (Js.startsWith "application/pdf" "image/") with false.
  change ("application/pdf" =? "application/pdf")%string with true. cbv iota.
  destruct (OCR_PDF_LIMIT_BYTES <? size f)%N; cbn [negb]; [reflexivity|].
  destruct (pdfLoad plat f) as [message | n]; cbn [liftResult bind]; [reflexivity|].
  now destruct (n <=? OCR_PDF_PAGE_LIMIT).
Qed.

Lemma exec_splitAndSubmit_failure (f : File) (m : string) (call : nat) :
  splitPdfForOcr plat f = Some (Err m) ->
  exec net (splitAndSubmit plat f) call
  = (Some (Err m),
     [EvUpd (SetStatusMessage (Some "Splitting PDF into OCR-safe chunks..."%string))]).
Proof.
  intros Hsplit. unfold splitAndSubmit. now rewrite Hsplit.
Qed.

End Branches.

Lemma requestsAndSleeps_app (a b : list Event) :
  requestsAndSleeps (a ++ b) = requestsAndSleeps a ++ requestsAndSleeps b.
Proof.
  induction a as [|[u | body | ms] a IH]; cbn [app requestsAndSleeps]; now rewrite ?IH.
Qed.

Lemma requests_splitStatus (pageCount n : nat) :
  requests (splitStatus pageCount n) = []
  /\ requestsAndSleeps (splitStatus pageCount n) = [].
Proof. unfold splitStatus. now destruct (OCR_PDF_PAGE_LIMIT <? pageCount). Qed.

Lemma Forall_firstn_of (A : Type) (P : A -> Prop) (k : nat) (l : list A) :
  Forall P l -> Forall P (firstn k l).
Proof.
  intros H. rewrite <- (firstn_skipn k l) in H. now apply Forall_app in H.
Qed.

Section Requests.

Variables (plat : Platform) (net : Network).

(** A request the route handler does not turn down for its size. *)
Let accepted (q : File) : Prop := (size q <= Route.maxSizeOf q)%N.

Lemma split_chunks_accepted (f : File) (chunks : list File) (pageCount : nat) :
  splitPdfForOcr plat f = Some (Ok (chunks, pageCount)) -> Forall accepted chunks.
Proof.
  unfold splitPdfForOcr. intros Hsplit.
  destruct (pdfLoad plat f) as [message | n]; [discriminate|].
  destruct (splitLoop_shape plat f n n [] 0 1 chunks pageCount) as [new [Hall Hnew]];
    [lia | exact Hsplit |].
  cbn [app] in Hall. subst new. eapply Forall_impl; [|exact Hnew].
  intros c [[s [e [p [-> _]]]] Hsize]. exact Hsize.
Qed.

Lemma exec_splitAndSubmit_settles (f : File) (call : nat) :
  exists r tr,
    exec net (splitAndSubmit plat f) call = (Some r, tr)
    /\ Forall accepted (requests tr).
Proof.
  destruct (splitPdfForOcr_settles plat f) as [[[chunks pageCount] | m] Hsplit].
  - rewrite (exec_splitAndSubmit plat net f chunks pageCount call Hsplit).
    destruct (exec_submitChunks_any plat net chunks call)
      as [r [tr [k [Hexec [Hreq _]]]]].
    rewrite Hexec.
    assert (Hacc : Forall accepted (requests tr)).
    { rewrite Hreq. apply Forall_firstn_of.
      exact (split_chunks_accepted f chunks pageCount Hsplit). }
    destruct r as [ts | m]; eexists _, _; (split; [reflexivity|]);
      rewrite !requests_app, (proj1 (requests_splitStatus _ _)); cbn [app requests];
      now rewrite ?app_nil_r.
  - rewrite (exec_splitAndSubmit_failure plat net f m call Hsplit).
    eexists _, _. split; [reflexivity | constructor].
Qed.

Lemma exec_processBody_settles (f : File) (call : nat) :
  exists r tr,
    exec net (processBody plat f) call = (Some r, tr)
    /\ Forall accepted (requests tr).
Proof.
  destruct (Js.startsWith (type f) "image/") eqn:Himage.
  - destruct (compressImageForOcr plat f) as [f' | m] eqn:Hc.
    + rewrite (processBody_image plat f f' Himage Hc), exec_single.
      assert (Hacc : accepted f').
      { unfold accepted, Route.maxSizeOf.
        unfold compressImageForOcr in Hc.
        destruct (size f <=? OCR_IMAGE_LIMIT_BYTES)%N eqn:Hsize.
        - injection Hc as <-. rewrite (image_is_not_pdf _ Himage).
          now apply N.leb_le in Hsize.
        - unfold loadImageElement in Hc.
          destruct (decodeImage plat f) as [image|]; cbn [rbind] in Hc; [|discriminate].
          destruct (scaleLoop_ok plat f image scales f' Hc)
            as [s [q [sz [_ [_ [-> Hsz]]]]]].
          exact Hsz. }
      destruct (readOcrResponse plat (net call f')); eexists _, _;
        (split; [reflexivity|]); cbn [requests]; now constructor.
    + rewrite (processBody_image_failure plat f m Himage Hc).
      eexists _, _. split; [reflexivity | constructor].
  - destruct (String.eqb_spec (type f) "application/pdf") as [Hpdf | Hother].
    + rewrite (processBody_pdf plat f Hpdf).
      destruct (OCR_PDF_LIMIT_BYTES <? size f)%N eqn:Hsize;
        [apply exec_splitAndSubmit_settles|].
      destruct (pdfLoad plat f) as [message | n].
      * eexists _, _. split; [reflexivity | constructor].
      * destruct (n <=? OCR_PDF_PAGE_LIMIT); [|apply exec_splitAndSubmit_settles].
        rewrite exec_single.
        assert (Hacc : accepted f).
        { unfold accepted, Route.maxSizeOf. rewrite Hpdf. cbn. now apply N.ltb_ge in Hsize. }
        destruct (readOcrResponse plat (net call f)); eexists _, _;
          (split; [reflexivity|]); cbn [requests]; now constructor.
    + rewrite (processBody_unsupported plat f Himage Hother).
      eexists _, _. split; [reflexivity | constructor].
Qed.

End Requests.

(** ** Runs that overlap *)

Lemma advance_single_submission (plat : Platform) (f : File) (s0 : AppState) :
  singleSubmission plat f ->
  fst (advance (processOCR plat (Some f)) s0)
  = Fetch f (fun res =>
      tryFinally
        (tryCatch (bind (liftResult (readOcrResponse plat res))
                     (fun t => upd (SetText t)))
           (fun message => upd (SetError (Some message))))
        (bind (upd (SetIsProcessing false)) (fun _ => upd (SetStatusMessage None)))).
Proof.
  intros [[Htype Hsize] | [Htype [Hsize [n [Hload Hpages]]]]]; unfold processOCR.
  - now rewrite (processBody_image_fast plat f Htype Hsize).
  - now rewrite (processBody_pdf_fast plat f n Htype Hsize Hload Hpages).
Qed.

Lemma nth_error_replaceNth (A : Type) (l : list A) :
  forall i x y, nth_error l i = Some x -> nth_error (replaceNth i y l) i = Some y.
Proof.
  induction l as [|a l IH]; intros [|i] x y H; cbn in *; try discriminate; eauto.
Qed.

Section InFlight.

Variable plat : Platform.

Lemma selectFile_started (f : File) (sess : Session) :
  selectFile plat f sess
  = let s1 := apply (SetText "") (apply (SetError None)
                 (apply (SetFile (Some f)) (view sess))) in
    let started := advance (processOCR plat (Some f)) s1 in
    {| view := snd started;
       tasks := tasks sess ++ [{| generation := S (current sess); code := fst started |}];
       current := S (current sess) |}.
Proof. reflexivity. Qed.

(** A run up to its first suspension, when [view] is the state it
    starts in: it has ended, with or without an error, before sending
    anything; or it waits for the answer to its only submission; or it
    waits for the answer to the first chunk.  The file and the text are
    as they were, unless a document without pages gave the empty
    text. *)
Lemma processOCR_starts (f : File) (s0 : AppState) :
  let started := advance (processOCR plat (Some f)) s0 in
  file (snd started) = file s0
  /\ (text (snd started) = text s0 \/ text (snd started) = ""%string)
  /\ (fst started = Ret tt
      \/ ((exists body, fst started = awaitSingle plat body)
          \/ (exists chunk rest,
                 fst started = awaitChunk plat (S (length rest)) 0 chunk rest []))
         /\ error (snd started) = None).
Proof.
  assert (Hsplit : let started := advance (processOCR plat (Some f)) s0 in
                   processBody plat f = splitAndSubmit plat f ->
                   file (snd started) = file s0
                   /\ (text (snd started) = text s0 \/ text (snd started) = ""%string)
                   /\ (fst started = Ret tt
                       \/ ((exists body, fst started = awaitSingle plat body)
                           \/ (exists chunk rest,
                                  fst started
                                  = awaitChunk plat (S (length rest)) 0 chunk rest []))
                          /\ error (snd started) = None)).
  { intros started Hbody. unfold started, processOCR. rewrite Hbody. unfold splitAndSubmit.
    destruct (splitPdfForOcr_settles plat f) as [[[chunks pageCount] | m] ->].
    - cbn [liftFuel liftResult bind upd fst snd tryCatch tryFinally advance].
      destruct (OCR_PDF_PAGE_LIMIT <? pageCount);
        cbn [bind upd tryCatch tryFinally advance];
        (destruct chunks as [|chunk rest];
         [ cbn; split; [reflexivity | split; [now right | now left]]
         | cbn [submitChunks submitFileToOcr bind upd tryCatch tryFinally advance fst snd];
           split; [reflexivity | split; [now left|]];
           right; split; [|reflexivity];
           right; exists chunk, rest; reflexivity ]).
    - cbn. split; [reflexivity | split; [now left | now left]]. }
  intros started.
  destruct (Js.startsWith (type f) "image/") eqn:Himage.
  - unfold started, processOCR.
    destruct (compressImageForOcr plat f) as [f' | m] eqn:Hc.
    + rewrite (processBody_image plat f f' Himage Hc). cbn.
      split; [reflexivity | split; [now left|]].
      right. split; [|reflexivity]. left. now exists f'.
    + rewrite (processBody_image_failure plat f m Himage Hc). cbn.
      split; [reflexivity | split; [now left | now left]].
  - destruct (String.eqb_spec (type f) "application/pdf") as [Hpdf | Hother].
    + pose proof (processBody_pdf plat f Hpdf) as Hbody.
      destruct (OCR_PDF_LIMIT_BYTES <? size f)%N; [exact (Hsplit Hbody)|].
      destruct (pdfLoad plat f) as [message | n].
      * unfold started, processOCR. rewrite Hbody. cbn.
        split; [reflexivity | split; [now left | now left]].
      * destruct (n <=? OCR_PDF_PAGE_LIMIT); [|exact (Hsplit Hbody)].
        unfold started, processOCR. rewrite Hbody. cbn.
        split; [reflexivity | split; [now left|]].
        right. split; [|reflexivity]. left. now exists f.
    + unfold started, processOCR.
      rewrite (processBody_unsupported plat f Himage Hother). cbn.
      split; [reflexivity | split; [now left | now left]].
Qed.

End InFlight.

(** C4, as the code has it.  The code keeps no generation id and makes no
    check when a run ends.  Every run of [processOCR], whatever the
    file, has ended before it sends anything, or waits for the answer to
    its only submission (an image, compressed or not, or a PDF sent as
    it is), or waits for the answer to a chunk.  When that answer comes,
    in whatever state the page is then and whatever the number of the
    run is, the latest or not: a single submission stores its result
    (the text by [setText], or the error by [setError]) and clears the
    processing flag and the status line; a chunk that fails stores the
    error and clears them likewise; the last chunk stores the merged
    text and clears them; a chunk before the last leaves the page as it
    is and the run pauses, and when the pause ends the run writes its
    status line and submits the next chunk.  Selecting a file, which the
    page allows only while no file is set, sets the file, leaves the
    text empty, keeps the runs in flight and starts a new one; the
    error is cleared unless the new run has already failed.  Clearing,
    which the page allows only while a file is set, resets the file,
    the text, the status line and the error, keeps the runs in flight,
    and starts nothing but the call [processOCR(null)], which ends at
    once. *)
Theorem superseded_run_commits (plat : Platform) :
  (forall f s0,
      let started := fst (advance (processOCR plat (Some f)) s0) in
      started = Ret tt
      \/ (exists body, started = awaitSingle plat body)
      \/ (exists chunk rest, started = awaitChunk plat (S (length rest)) 0 chunk rest []))
  /\ (forall sess i g body res,
         nth_error (tasks sess) i
         = Some {| generation := g; code := awaitSingle plat body |} ->
         let sess' := react plat sess (Deliver i res) in
         view sess' = commit (readOcrResponse plat res) (view sess)
         /\ current sess' = current sess
         /\ nth_error (tasks sess') i = Some {| generation := g; code := Ret tt |})
  /\ (forall sess i g n j chunk rest ts res,
         nth_error (tasks sess) i
         = Some {| generation := g; code := awaitChunk plat n j chunk rest ts |} ->
         n = j + 1 + length rest ->
         let sess' := react plat sess (Deliver i res) in
         current sess' = current sess
         /\ match readOcrResponse plat res, rest with
            | Err m, _ =>
                view sess' = commit (Err m) (view sess)
                /\ nth_error (tasks sess') i = Some {| generation := g; code := Ret tt |}
            | Ok t, [] =>
                view sess' = commit (Ok (mergeTexts (ts ++ [t]))) (view sess)
                /\ nth_error (tasks sess') i = Some {| generation := g; code := Ret tt |}
            | Ok t, _ :: _ =>
                view sess' = view sess
                /\ nth_error (tasks sess') i
                   = Some {| generation := g;
                             code := pausing plat n (j + 1) rest (ts ++ [t]) |}
            end)
  /\ (forall sess i g n j chunk rest ts,
         nth_error (tasks sess) i
         = Some {| generation := g; code := pausing plat n j (chunk :: rest) ts |} ->
         let sess' := react plat sess (Wake i) in
         view sess' = apply (SetStatusMessage (Some (chunkStatus j n))) (view sess)
         /\ current sess' = current sess
         /\ nth_error (tasks sess') i
            = Some {| generation := g; code := awaitChunk plat n j chunk rest ts |})
  /\ (forall sess f,
         file (view sess) = None ->
         let sess' := react plat sess (Drop f) in
         file (view sess') = Some f
         /\ text (view sess') = ""%string
         /\ current sess' = S (current sess)
         /\ exists started,
              tasks sess' = tasks sess ++ [started]
              /\ generation started = S (current sess)
              /\ (code started = Ret tt \/ error (view sess') = None))
  /\ (forall sess f, file (view sess) <> None -> react plat sess (Drop f) = sess)
  /\ (forall sess,
         file (view sess) <> None ->
         let sess' := react plat sess Clear in
         file (view sess') = None
         /\ text (view sess') = ""%string
         /\ statusMessage (view sess') = None
         /\ error (view sess') = None
         /\ isProcessing (view sess') = isProcessing (view sess)
         /\ current sess' = S (current sess)
         /\ tasks sess'
            = tasks sess ++ [{| generation := S (current sess); code := Ret tt |}]).
Proof.
  split; [|split; [|split; [|split; [|split; [|split]]]]].
  - intros f s0 started. unfold started.
    destruct (processOCR_starts plat f s0) as [_ [_ [H | [H _]]]]; [now left | now right].
  - intros sess i g body res Hnth sess'. unfold sess'. cbn [react]. rewrite Hnth.
    unfold awaitSingle. cbn [resume view current tasks].
    split; [|split; [reflexivity|]].
    + destruct (readOcrResponse plat res) as [t | m]; reflexivity.
    + replace (fst (advance _ (view sess))) with (Ret tt : Prog unit)
        by (destruct (readOcrResponse plat res); reflexivity).
      exact (nth_error_replaceNth _ _ _ _ _ Hnth).
  - intros sess i g n j chunk rest ts res Hnth Hn sess'. unfold sess'. cbn [react].
    rewrite Hnth. unfold awaitChunk. cbn [resume view current tasks].
    split; [reflexivity|].
    destruct (readOcrResponse plat res) as [t | m]; [destruct rest as [|next rest]|].
    + cbn [length] in Hn. replace (j <? n - 1) with false
        by (symmetry; apply Nat.ltb_ge; lia).
      cbn. split; [reflexivity|]. exact (nth_error_replaceNth _ _ _ _ _ Hnth).
    + cbn [length] in Hn. replace (j <? n - 1) with true
        by (symmetry; apply Nat.ltb_lt; lia).
      cbn [liftResult bind sleep guarded tryCatch tryFinally advance fst snd].
      split; [reflexivity|]. exact (nth_error_replaceNth _ _ _ _ _ Hnth).
    + cbn. split; [reflexivity|]. exact (nth_error_replaceNth _ _ _ _ _ Hnth).
  - intros sess i g n j chunk rest ts Hnth sess'. unfold sess'. cbn [react].
    rewrite Hnth. unfold pausing. cbn [resume view current tasks].
    split; [reflexivity | split; [reflexivity|]].
    exact (nth_error_replaceNth _ _ _ _ _ Hnth).
  - intros sess f Hnone sess'. unfold sess'. cbn [react]. rewrite Hnone.
    rewrite selectFile_started. cbv zeta. cbn [view tasks current].
    destruct (processOCR_starts plat f
                (apply (SetText "") (apply (SetError None)
                   (apply (SetFile (Some f)) (view sess)))))
      as [Hfile [Htext Hcode]].
    split; [exact Hfile|]. split; [destruct Htext as [Htext | Htext]; exact Htext|].
    split; [reflexivity|].
    eexists. split; [reflexivity|]. split; [reflexivity|]. cbn [code].
    destruct Hcode as [H | [_ H]]; [now left | now right].
  - intros sess f Hsome. cbn [react]. destruct (file (view sess)); congruence.
  - intros sess Hsome sess'. unfold sess'. cbn [react].
    destruct (file (view sess)); [|congruence]. now repeat split.
Qed.

Lemma superseded_run_commits_witness :
  let plat := Sample.platform 0 0 in
  let sess := play plat [Drop (Sample.png 100); Clear; Drop (Sample.png 200)] in
  view (react plat sess (Deliver 0 (Sample.okText "stale")))
  = commit (Ok "stale"%string) (view sess).
Proof.
  intros plat sess.
  destruct (proj1 (proj2 (superseded_run_commits plat)) sess 0 1 (Sample.png 100)
              (Sample.okText "stale"))
    as [Hview _].
  - reflexivity.
  - exact Hview.
Defined.

(** C4, as stated, fails: a first file is selected, cleared while its
    submission is in flight, and a second file is selected; the run of
    the first file has generation 1 and the latest run is number 3.
    When the submission of the first file settles, its text is stored
    and shown for the second file, and the processing flag is cleared
    although the run of the second file is still waiting.  The same
    holds of a run in chunks: superseded after its first request, it
    goes on to write its status line over that of the new run, submits
    its other chunks, and stores its merged text for the second file. *)
Lemma superseded_run_is_not_discarded :
  let plat := Sample.platform 0 0 in
  let sess := play plat [Drop (Sample.png 100); Clear; Drop (Sample.png 200)] in
  let sess' := react plat sess (Deliver 0 (Sample.okText "stale")) in
  let chunked :=
    play Sample.threePages [Drop Sample.book; Clear; Drop (Sample.png 200);
                            Deliver 0 (Sample.okText "one"); Wake 0] in
  let chunked' :=
    fold_left (react Sample.threePages)
      [Deliver 0 (Sample.okText "two"); Wake 0; Deliver 0 (Sample.okText "three")]
      chunked in
  (option_map generation (nth_error (tasks sess) 0) = Some 1
   /\ current sess = 3
   /\ file (view sess) = Some (Sample.png 200)
   /\ text (view sess) = ""%string
   /\ isProcessing (view sess) = true
   /\ file (view sess') = Some (Sample.png 200)
   /\ text (view sess') = "stale"%string
   /\ isProcessing (view sess') = false
   /\ text (view sess') <> text (view sess))
  /\ (option_map generation (nth_error (tasks chunked) 0) = Some 1
      /\ current chunked = 3
      /\ file (view chunked) = Some (Sample.png 200)
      /\ statusMessage (view chunked) = Some "Processing PDF chunk 2/3..."%string
      /\ file (view chunked') = Some (Sample.png 200)
      /\ text (view chunked') = mergeTexts ["one"; "two"; "three"]%string
      /\ isProcessing (view chunked') = false).
Proof.
  vm_compute. repeat split. discriminate.
Qed.

(** X9.  [processOCR] always comes to an end and never lets an error
    out: for every file and platform, and every boundary whose requests
    settle (answered or rejected), the call returns, and when it does
    the processing flag is off and the status line is cleared, whether
    the run succeeded or failed.  Called without a file it does nothing
    at all. *)
Theorem processOCR_always_settles (plat : Platform) (net : Network) (w : World) :
  (forall f,
      let result := run net (processOCR plat (Some f)) w in
      fst result = Some (Ok tt)
      /\ isProcessing (ui (snd result)) = false
      /\ statusMessage (ui (snd result)) = None)
  /\ run net (processOCR plat None) w = (Some (Ok tt), w).
Proof.
  split; [|reflexivity].
  intros f result. unfold result. rewrite run_exec, exec_processOCR.
  destruct (exec_processBody_settles plat net f (calls w)) as [r [tr [Hexec _]]].
  rewrite Hexec.
  destruct r as [[] | m]; cbn [fst snd extend ui]; rewrite !replay_app;
    now repeat split.
Qed.

(** X10.  No request of the pipeline is over the size limit the route
    handler enforces for its type: every file [processOCR] sends, for
    any input, is at most 50 MiB when it is a PDF and at most 10 MiB
    otherwise. *)
Theorem processOCR_requests_accepted (plat : Platform) (net : Network) (f : File)
    (w : World) :
  exists tr,
    trace (snd (run net (processOCR plat (Some f)) w)) = trace w ++ tr
    /\ Forall (fun q => (Route.maxSizeOf q <? size q)%N = false) (requests tr).
Proof.
  rewrite run_exec, exec_processOCR.
  destruct (exec_processBody_settles plat net f (calls w)) as [r [tr [Hexec Hacc]]].
  rewrite Hexec.
  assert (Hacc' : Forall (fun q => (Route.maxSizeOf q <? size q)%N = false) (requests tr)).
  { eapply Forall_impl; [|exact Hacc]. intros q Hq. now apply N.ltb_ge. }
  destruct r as [[] | m]; cbn [fst snd extend trace]; eexists; (split; [reflexivity|]);
    rewrite !requests_app; cbn [requests prologue epilogue app]; now rewrite ?app_nil_r.
Qed.

(** X11.  A file that is neither an image nor a PDF is turned down at
    once: no request is sent, the text is left as it was, and the error
    shown is the message about the unsupported file type. *)
Theorem processOCR_unsupported (plat : Platform) (net : Network) (f : File) (w : World) :
  Js.startsWith (type f) "image/" = false ->
  type f <> "application/pdf"%string ->
  let result := run net (processOCR plat (Some f)) w in
  error (ui (snd result))
  = Some "Unsupported file type. Please upload an image or PDF."%string
  /\ text (ui (snd result)) = text (ui w)
  /\ calls (snd result) = calls w
  /\ exists tr, trace (snd result) = trace w ++ tr /\ requests tr = [].
Proof.
  intros Himage Hpdf result. unfold result.
  rewrite run_exec, exec_processOCR, (processBody_unsupported plat f Himage Hpdf).
  cbn [exec fst snd extend ui calls trace]. repeat split.
  - cbn. lia.
  - eexists. split; reflexivity.
Qed.

Lemma processOCR_unsupported_witness :
  let f := {| name := "notes.txt"; type := "text/plain"; size := 12; blob := UserBlob 3 |} in
  error (ui (snd (run Sample.answersAll (processOCR Sample.threePages (Some f))
                    initialWorld)))
  = Some "Unsupported file type. Please upload an image or PDF."%string.
Proof.
  intros f.
  apply (processOCR_unsupported Sample.threePages Sample.answersAll f initialWorld).
  - reflexivity.
  - discriminate.
Defined.

(** X12.  When the preparation of a file fails, nothing is submitted:
    for an image the compressor rejects, and for a PDF that does not
    take the single-submission path and that the splitter rejects (the
    document does not load, or a page is over the hard limit), the run
    sends no request, leaves the text as it was, and shows the message
    of the failure. *)
Theorem processOCR_preparation_failure (plat : Platform) (net : Network) (f : File)
    (w : World) (m : string) :
  (Js.startsWith (type f) "image/" = true /\ compressImageForOcr plat f = Err m)
  \/ (type f = "application/pdf"%string
      /\ splitPdfForOcr plat f = Some (Err m)
      /\ ((OCR_PDF_LIMIT_BYTES < size f)%N
          \/ forall n, pdfLoad plat f = inr n -> OCR_PDF_PAGE_LIMIT < n)) ->
  let result := run net (processOCR plat (Some f)) w in
  error (ui (snd result)) = Some m
  /\ text (ui (snd result)) = text (ui w)
  /\ calls (snd result) = calls w
  /\ exists tr, trace (snd result) = trace w ++ tr /\ requests tr = [].
Proof.
  intros Hfail result. unfold result. rewrite run_exec, exec_processOCR.
  assert (Hexec : exists tr,
             exec net (processBody plat f) (calls w) = (Some (Err m), tr)
             /\ requests tr = []
             /\ forall s, text (replay tr s) = text s).
  { destruct Hfail as [[Himage Hc] | [Hpdf [Hsplit Hpath]]].
    - rewrite (processBody_image_failure plat f m Himage Hc).
      exists []. now repeat split.
    - rewrite (processBody_pdf plat f Hpdf).
      destruct (OCR_PDF_LIMIT_BYTES <? size f)%N eqn:Hsize.
      + rewrite (exec_splitAndSubmit_failure plat net f m (calls w) Hsplit).
        eexists. now repeat split.
      + destruct Hpath as [Hbig | Hpages]; [apply N.ltb_lt in Hbig; congruence|].
        destruct (pdfLoad plat f) as [message | n] eqn:Hload.
        * unfold splitPdfForOcr in Hsplit. rewrite Hload in Hsplit.
          injection Hsplit as ->. exists []. now repeat split.
        * replace (n <=? OCR_PDF_PAGE_LIMIT) with false
            by (symmetry; apply Nat.leb_gt; now apply Hpages).
          rewrite (exec_splitAndSubmit_failure plat net f m (calls w) Hsplit).
          eexists. now repeat split. }
  destruct Hexec as [tr [-> [Hreq Htext]]].
  cbn [fst snd extend ui calls trace]. repeat split.
  - now rewrite !replay_app.
  - rewrite !replay_app. cbn [epilogue replay apply text]. now rewrite Htext.
  - rewrite !requests_app, Hreq. cbn. lia.
  - eexists. split; [reflexivity|]. rewrite !requests_app, Hreq. reflexivity.
Qed.

Lemma processOCR_preparation_failure_witness :
  error (ui (snd (run Sample.answersAll
                    (processOCR (Sample.platform 1 (55 * Sample.MiB)) (Some Sample.book))
                    initialWorld)))
  = Some singlePageMessage.
Proof.
  apply (processOCR_preparation_failure (Sample.platform 1 (55 * Sample.MiB))
           Sample.answersAll Sample.book initialWorld singlePageMessage).
  right. split; [reflexivity|]. split; [vm_compute; reflexivity|].
  left. vm_compute. reflexivity.
Defined.

(** X13.  The chunks of a split are submitted in list order without
    skipping any, up to and including the first one whose submission
    fails, and no further: when every submission succeeds every chunk
    is sent and no error is shown; when the submissions before a chunk
    succeed and that of the chunk fails, the chunks up to it are the
    ones sent and the error shown is the message of that failure.
    There is exactly one pause of 250 ms between two successive
    requests and none before the first or after the last.  The first
    chunk is always submitted, and when the run ends without an error
    every chunk was. *)
Theorem processOCR_paces_submissions (plat : Platform) (net : Network) (f : File)
    (w : World) (chunks : list File) (pageCount : nat) :
  type f = "application/pdf"%string ->
  needsSplit plat f ->
  splitPdfForOcr plat f = Some (Ok (chunks, pageCount)) ->
  let result := run net (processOCR plat (Some f)) w in
  let sent := submitted plat net (calls w) chunks in
  (exists tr,
      trace (snd result) = trace w ++ tr
      /\ requests tr = sent
      /\ requestsAndSleeps tr = paced sent)
  /\ (exists k,
         k <= length chunks /\ (chunks <> [] -> 1 <= k) /\ sent = firstn k chunks)
  /\ (forall ts,
         responses plat net (calls w) chunks = map Ok ts ->
         sent = chunks /\ error (ui (snd result)) = None)
  /\ (forall pre chunk post ts m,
         chunks = pre ++ chunk :: post ->
         responses plat net (calls w) pre = map Ok ts ->
         readOcrResponse plat (net (calls w + length pre) chunk) = Err m ->
         sent = pre ++ [chunk] /\ error (ui (snd result)) = Some m)
  /\ (error (ui (snd result)) = None -> sent = chunks).
Proof.
  intros Htype Hneeds Hsplit result sent.
  assert (Hok : forall ts,
             responses plat net (calls w) chunks = map Ok ts ->
             sent = chunks /\ error (ui (snd result)) = None
             /\ exists tr,
                  trace (snd result) = trace w ++ tr
                  /\ requests tr = sent
                  /\ requestsAndSleeps tr = paced sent).
  { intros ts Hts. unfold sent, result.
    rewrite (submitted_all plat net chunks (calls w) ts Hts).
    rewrite (run_split_success plat net f w chunks pageCount Htype Hneeds Hsplit ts Hts).
    cbn [fst snd extend ui trace]. split; [reflexivity|]. split.
    - rewrite !replay_app. cbn [epilogue replay apply error].
      rewrite (proj1 (proj2 (replay_loopTrace _ _ _ _))).
      rewrite (proj1 (proj2 (replay_splitStatus _ _ _))). reflexivity.
    - eexists. split; [reflexivity|].
      rewrite !requests_app, !requestsAndSleeps_app, requests_loopTrace.
      rewrite (proj1 (requests_splitStatus _ _)), (proj2 (requests_splitStatus _ _)).
      pose proof (paced_loopTrace chunks 0) as Hpaced. cbn [Nat.add] in Hpaced.
      rewrite Hpaced.
      cbn [requests requestsAndSleeps prologue epilogue app]. now rewrite !app_nil_r. }
  assert (Hfail : forall pre chunk post ts m,
             chunks = pre ++ chunk :: post ->
             responses plat net (calls w) pre = map Ok ts ->
             readOcrResponse plat (net (calls w + length pre) chunk) = Err m ->
             sent = pre ++ [chunk] /\ error (ui (snd result)) = Some m
             /\ exists tr,
                  trace (snd result) = trace w ++ tr
                  /\ requests tr = sent
                  /\ requestsAndSleeps tr = paced sent).
  { intros pre chunk post ts m Hchunks Hpre Hc.
    assert (Hsent : sent = pre ++ [chunk]).
    { unfold sent. rewrite Hchunks.
      exact (submitted_fail plat net pre (calls w) chunk post ts m Hpre Hc). }
    rewrite Hsent. unfold result.
    rewrite (run_split_failure plat net f w chunks pageCount Htype Hneeds Hsplit
               pre chunk post ts m Hchunks Hpre Hc).
    cbn [fst snd extend ui trace]. split; [reflexivity|]. split.
    - now rewrite !replay_app.
    - eexists. split; [reflexivity|].
      rewrite !requests_app, !requestsAndSleeps_app, requests_loopTrace.
      rewrite (proj1 (requests_splitStatus _ _)), (proj2 (requests_splitStatus _ _)).
      cbn [requests requestsAndSleeps prologue epilogue app]. rewrite !app_nil_r.
      split; [reflexivity|].
      apply (paced_loopTrace_fail pre chunk post 0).
      rewrite Hchunks, length_app. cbn [length]. lia. }
  destruct (responses_dichotomy plat net chunks (calls w))
    as [[ts Hts] | [pre [c [post [ts [m [Hchunks [Hpre Hc]]]]]]]].
  - destruct (Hok ts Hts) as [Hsent [Herror Htrace]].
    split; [exact Htrace|]. split; [|split; [|split]].
    + exists (length chunks). rewrite firstn_all, Hsent.
      repeat split; [lia|]. destruct chunks; [congruence | cbn; lia].
    + intros ts' Hts'. destruct (Hok ts' Hts') as [H1 [H2 _]]. now split.
    + intros pre chunk post ts' m Hchunks Hpre Hc.
      destruct (Hfail pre chunk post ts' m Hchunks Hpre Hc) as [H1 [H2 _]]. now split.
    + intros _. exact Hsent.
  - destruct (Hfail pre c post ts m Hchunks Hpre Hc) as [Hsent [Herror Htrace]].
    split; [exact Htrace|]. split; [|split; [|split]].
    + exists (S (length pre)). rewrite Hsent, Hchunks, length_app. cbn [length].
      repeat split; [lia | lia |].
      change (c :: post) with ([c] ++ post). rewrite app_assoc.
      replace (S (length pre)) with (length (pre ++ [c]))
        by (rewrite length_app; cbn; lia).
      now rewrite firstn_app, firstn_all, Nat.sub_diag, app_nil_r.
    + intros ts' Hts'. destruct (Hok ts' Hts') as [H1 [H2 _]]. now split.
    + intros pre' chunk post' ts' m' Hchunks' Hpre' Hc'.
      destruct (Hfail pre' chunk post' ts' m' Hchunks' Hpre' Hc') as [H1 [H2 _]].
      now split.
    + intros Hnone. rewrite Herror in Hnone. discriminate.
Qed.

Lemma processOCR_paces_submissions_witness :
  exists tr,
    trace (snd (run Sample.failsSecond (processOCR Sample.threePages (Some Sample.book))
                  initialWorld))
    = trace initialWorld ++ tr
    /\ requestsAndSleeps tr = [EvFetch (Sample.part 1); EvSleep 250; EvFetch (Sample.part 2)].
Proof.
  destruct (processOCR_paces_submissions Sample.threePages Sample.failsSecond Sample.book
              initialWorld [Sample.part 1; Sample.part 2; Sample.part 3] 3)
    as [[tr [Htrace [_ Hpaced]]] _].
  - reflexivity.
  - left. vm_compute. reflexivity.
  - vm_compute. reflexivity.
  - exists tr. split; [exact Htrace | exact Hpaced].
Defined.

(** X14.  An image the compressor accepts is submitted in one request,
    whose body is exactly what the compressor returned: the file itself
    when it is within the budget, the compressed file otherwise.  The
    status line says "Image compressed" exactly when the input was over
    the budget, and the run ends with the answer stored, the text on
    success and the error on failure. *)
Theorem processOCR_image (plat : Platform) (net : Network) (f f' : File) (w : World) :
  Js.startsWith (type f) "image/" = true ->
  compressImageForOcr plat f = Ok f' ->
  let result := run net (processOCR plat (Some f)) w in
  calls (snd result) = calls w + 1
  /\ ui (snd result)
     = commit (readOcrResponse plat (net (calls w) f')) (apply (SetError None) (ui w))
  /\ exists tr,
       trace (snd result) = trace w ++ tr
       /\ requests tr = [f']
       /\ statusMessages tr
          = [Some "Preparing file...";
             Some (if (size f <=? OCR_IMAGE_LIMIT_BYTES)%N
                   then "Processing image..."
                   else "Image compressed. Running OCR...");
             None]%string.
Proof.
  intros Htype Hc result. unfold result.
  rewrite run_exec, exec_processOCR, (processBody_image plat f f' Htype Hc), exec_single.
  destruct (readOcrResponse plat (net (calls w) f')) as [t | m];
    cbn [fst snd extend ui calls trace];
    (repeat split; [eexists; split; [reflexivity | now split]]).
Qed.

Lemma processOCR_image_witness :
  requests (trace (snd (run Sample.answersAll
                          (processOCR (Sample.platform 0 0)
                             (Some (Sample.png (12 * Sample.MiB))))
                          initialWorld)))
  = [{| name := "scan.jpg"; type := "image/jpeg"; size := 9600000;
        blob := CanvasJpeg (UserBlob 1) 4000 3000 8%N |}].
Proof.
  destruct (processOCR_image (Sample.platform 0 0) Sample.answersAll
              (Sample.png (12 * Sample.MiB))
              {| name := "scan.jpg"; type := "image/jpeg"; size := 9600000;
                 blob := CanvasJpeg (UserBlob 1) 4000 3000 8%N |}
              initialWorld)
    as [_ [_ [tr [Htrace [Hreq _]]]]].
  - reflexivity.
  - vm_compute. reflexivity.
  - rewrite Htrace. exact Hreq.
Defined.

Lemma compressImageForOcr_errors_witness :
  compressImageForOcr Sample2.blind (Sample.png (12 * Sample.MiB))
  = Err "Failed to decode image"%string.
Proof.
  apply (proj2 (compressImageForOcr_errors Sample2.blind (Sample.png (12 * Sample.MiB)))).
  - vm_compute. reflexivity.
  - reflexivity.
Defined.

(** ** Reading the response *)

Lemma length_append (a b : string) :
  String.length (a ++ b)%string = String.length a + String.length b.
Proof. induction a as [|c a IH]; cbn; now rewrite ?IH. Qed.

Lemma length_substring_0 (s : string) :
  forall n, n <= String.length s -> String.length (String.substring 0 n s) = n.
Proof.
  induction s as [|c s IH]; intros [|n] H; cbn in *; try reflexivity; try lia.
  rewrite IH; lia.
Qed.

Lemma orElse_truthy (a : option string) (b : string) :
  Js.truthy b = true -> Js.truthy (Js.orElse a b) = true.
Proof.
  intros Hb. unfold Js.orElse. destruct a as [s|]; [|exact Hb].
  destruct (Js.truthy s) eqn:Hs; [exact Hs | exact Hb].
Qed.

Lemma property_ok (plat : Platform) (key : string) (data : Json.Value) :
  data <> Json.JNull -> property plat key data = Ok (Json.member key data).
Proof. destruct data; try reflexivity; congruence. Qed.

Lemma shownOr_falsy (plat : Platform) (v : option Json.Value) (fallback : string) :
  Json.truthy v = false -> shownOr plat v fallback = Ok fallback.
Proof.
  intros H. unfold shownOr. destruct v as [value|]; [|reflexivity]. now rewrite H.
Qed.

Lemma shownOr_string (plat : Platform) (t fallback : string) :
  shownOr plat (Some (Json.JString t)) fallback = Ok (if Js.truthy t then t else fallback).
Proof. unfold shownOr. cbn [Json.truthy]. now destruct (Js.truthy t). Qed.

(** The value read when the response is not JSON. *)
Lemma dataOf_non_json (plat : Platform) (response : Response) :
  Js.includes (Js.orElse (contentType response) "") "application/json" = false
  \/ jsonParse plat (bodyText response) = None ->
  dataOf plat response
  = Json.JObject
      [("error", Json.JString ("Non-JSON response: " ++ excerptOf (bodyText response)))]%string.
Proof.
  unfold dataOf. intros [-> | ->]; [reflexivity|].
  now destruct (Js.includes (Js.orElse (contentType response) "") "application/json").
Qed.

(** X15.  The outcome of a submission.  A rejected fetch fails with the
    message of the rejection.  A response with a status outside 200 to
    299 always fails.  When the JSON body is [null] the submission
    fails, whatever the status, with the TypeError of reading a
    property of [null], and no status hint.  Otherwise, with a status
    outside 200 to 299 the message is "OCR processing failed" followed
    by the hint " (HTTP status)" when the body has no truthy [error],
    and that [error] followed by the hint when it is a string; and with
    a status from 200 to 299 the result is the empty text when the body
    has no truthy [text], in particular when the response is not JSON,
    and that [text] when it is a string.  A response with a status from
    200 to 299 fails only with one of the two TypeErrors: its body is
    [null], or its [text] cannot be made a string. *)
Theorem readOcrResponse_status (plat : Platform) :
  (forall m, readOcrResponse plat (Rejected m) = Err m)
  /\ (forall response,
         ok response = false ->
         exists m, readOcrResponse plat (Resolved response) = Err m)
  /\ (forall response,
         dataOf plat response = Json.JNull ->
         readOcrResponse plat (Resolved response)
         = Err (nullAccess plat (if ok response then "text" else "error")%string))
  /\ (forall response,
         ok response = false ->
         dataOf plat response <> Json.JNull ->
         (Json.truthy (Json.member "error" (dataOf plat response)) = false ->
          readOcrResponse plat (Resolved response)
          = Err ("OCR processing failed (HTTP " ++ Js.showN (status response) ++ ")")%string)
         /\ (forall e,
                Json.member "error" (dataOf plat response) = Some (Json.JString e) ->
                e <> ""%string ->
                readOcrResponse plat (Resolved response)
                = Err (e ++ " (HTTP " ++ Js.showN (status response) ++ ")")%string))
  /\ (forall response,
         ok response = true ->
         dataOf plat response <> Json.JNull ->
         (Json.truthy (Json.member "text" (dataOf plat response)) = false ->
          readOcrResponse plat (Resolved response) = Ok ""%string)
         /\ (forall t,
                Json.member "text" (dataOf plat response) = Some (Json.JString t) ->
                readOcrResponse plat (Resolved response) = Ok t))
  /\ (forall response,
         ok response = true ->
         Js.includes (Js.orElse (contentType response) "") "application/json" = false
         \/ jsonParse plat (bodyText response) = None ->
         readOcrResponse plat (Resolved response) = Ok ""%string)
  /\ (forall response m,
         ok response = true ->
         readOcrResponse plat (Resolved response) = Err m ->
         (dataOf plat response = Json.JNull /\ m = nullAccess plat "text")
         \/ m = notPrimitive plat).
Proof.
  split; [reflexivity|]. split; [|split; [|split; [|split; [|split]]]].
  - intros response Hok. rewrite readOcrResponse_resolved, Hok. cbn [negb].
    destruct (property plat "error" (dataOf plat response)) as [error | message];
      [|now eexists].
    destruct (shownOr plat error "OCR processing failed"); now eexists.
  - intros response Hnull. rewrite readOcrResponse_resolved, Hnull.
    now destruct (ok response).
  - intros response Hok Hdata. rewrite readOcrResponse_resolved, Hok. cbn [negb].
    rewrite (property_ok plat "error" _ Hdata). split.
    + intros Hfalsy. now rewrite (shownOr_falsy plat _ _ Hfalsy).
    + intros e -> He. rewrite shownOr_string.
      destruct e; [congruence | reflexivity].
  - intros response Hok Hdata. rewrite readOcrResponse_resolved, Hok. cbn [negb].
    rewrite (property_ok plat "text" _ Hdata). split.
    + intros Hfalsy. exact (shownOr_falsy plat _ _ Hfalsy).
    + intros t ->. rewrite shownOr_string. now destruct t.
  - intros response Hok Hnot. rewrite readOcrResponse_resolved, Hok. cbn [negb].
    now rewrite (dataOf_non_json plat response Hnot).
  - intros response m Hok Hread.
    destruct (readOcrResponse_error_shape plat response m Hread)
      as [[Hno _] | [[Hnull Hm] | Hm]]; [congruence | left | now right].
    rewrite Hok in Hm. now split.
Qed.

Lemma length_ellipsis : String.length Js.ellipsis = 1.
Proof. reflexivity. Qed.

(** X16.  What the page shows of a failed response that is not JSON (no
    JSON content type, or a body that does not parse) is bounded: the
    message is "Non-JSON response: ", an excerpt of the body and the
    status hint, where the excerpt is the whole body when it has at most
    500 code units, and its first 500 code units and the ellipsis, 501
    code units in all, otherwise. *)
Theorem readOcrResponse_non_json (plat : Platform) (response : Response) :
  ok response = false ->
  Js.includes (Js.orElse (contentType response) "") "application/json" = false
  \/ jsonParse plat (bodyText response) = None ->
  exists excerpt,
    readOcrResponse plat (Resolved response)
    = Err ("Non-JSON response: " ++ excerpt
           ++ " (HTTP " ++ Js.showN (status response) ++ ")")%string
    /\ String.length excerpt <= MAX_ERROR_BODY_LENGTH + 1
    /\ (String.length (bodyText response) <= MAX_ERROR_BODY_LENGTH ->
        excerpt = bodyText response)
    /\ (MAX_ERROR_BODY_LENGTH < String.length (bodyText response) ->
        excerpt = (String.substring 0 MAX_ERROR_BODY_LENGTH (bodyText response)
                   ++ Js.ellipsis)%string
        /\ String.length excerpt = MAX_ERROR_BODY_LENGTH + 1).
Proof.
  intros Hok Hnot. exists (excerptOf (bodyText response)).
  split; [|split; [|split]].
  - rewrite readOcrResponse_resolved, Hok, (dataOf_non_json plat response Hnot).
    cbn [negb property Json.member Json.lookup String.eqb Ascii.eqb Bool.eqb].
    rewrite shownOr_string. cbn [append Js.truthy]. reflexivity.
  - unfold excerptOf.
    destruct (MAX_ERROR_BODY_LENGTH <? String.length (bodyText response)) eqn:Hlong.
    + apply Nat.ltb_lt in Hlong. unfold Js.slice0.
      rewrite length_append, length_substring_0, length_ellipsis; lia.
    + apply Nat.ltb_ge in Hlong. lia.
  - intros Hshort. apply Nat.ltb_ge in Hshort. unfold excerptOf. now rewrite Hshort.
  - intros Hlong. pose proof Hlong as Hlt. apply Nat.ltb_lt in Hlong.
    unfold excerptOf. rewrite Hlong. split; [reflexivity|].
    unfold Js.slice0. rewrite length_append, length_substring_0, length_ellipsis; lia.
Qed.

Lemma readOcrResponse_non_json_witness :
  exists excerpt,
    readOcrResponse Sample.threePages
      (Resolved {| status := 502; contentType := Some "text/html"; bodyText := "Bad Gateway" |})
    = Err ("Non-JSON response: " ++ excerpt ++ " (HTTP " ++ Js.showN 502 ++ ")")%string
    /\ String.length excerpt <= MAX_ERROR_BODY_LENGTH + 1.
Proof.
  destruct (readOcrResponse_non_json Sample.threePages
              {| status := 502; contentType := Some "text/html"; bodyText := "Bad Gateway" |})
    as [excerpt [Hread [Hlen _]]].
  - reflexivity.
  - left. reflexivity.
  - exists excerpt. split; [exact Hread | exact Hlen].
Defined.

(** ** The merge *)

Lemma concat_truthy (sep : string) (l : list string) :
  Forall (fun t => Js.truthy t = true) l -> l <> [] ->
  Js.truthy (String.concat sep l) = true.
Proof.
  intros Hall Hne. destruct l as [|x l]; [congruence|].
  apply Forall_inv in Hall. cbn [String.concat].
  destruct l; [exact Hall|]. destruct x; [discriminate | reflexivity].
Qed.

(** X17.  The merged text is empty exactly when every fragment is
    empty (in particular when there is no fragment at all). *)
Theorem mergeTexts_empty_iff (chunkTexts : list string) :
  mergeTexts chunkTexts = ""%string <-> Forall (fun t => t = ""%string) chunkTexts.
Proof.
  unfold mergeTexts, Js.join. split.
  - intros Hempty.
    destruct (filter Js.truthy chunkTexts) as [|x l] eqn:Hfilter.
    + apply Forall_forall. intros t Hin.
      destruct t as [|c t]; [reflexivity|].
      assert (Hin' : In (String c t) (filter Js.truthy chunkTexts))
        by (apply filter_In; now split).
      rewrite Hfilter in Hin'. destruct Hin'.
    + assert (Htruthy : Js.truthy (String.concat (Js.newline ++ Js.newline) (x :: l)) = true).
      { apply concat_truthy; [|discriminate]. rewrite <- Hfilter.
        apply Forall_forall. intros t Hin. now apply filter_In in Hin. }
      rewrite Hempty in Htruthy. discriminate.
  - intros Hall. replace (filter Js.truthy chunkTexts) with (@nil string); [reflexivity|].
    symmetry. induction Hall as [|t l -> _ IH]; [reflexivity | exact IH].
Qed.

Lemma readOcrResponse_status_witness :
  readOcrResponse Sample.threePages (Sample.failure 500 "Internal server error")
  = Err ("Internal server error" ++ " (HTTP " ++ Js.showN 500 ++ ")")%string.
Proof.
  destruct (readOcrResponse_status Sample.threePages) as [_ [_ [_ [Hfailed _]]]].
  destruct (Hfailed {| status := 500; contentType := Sample.json;
                       bodyText := Sample.errorBody "Internal server error" |})
    as [_ Hstring].
  - reflexivity.
  - vm_compute. discriminate.
  - apply Hstring; [vm_compute; reflexivity | discriminate].
Defined.

(** ** Clearing and downloading *)

(** X18.  The Clear button empties the page but cancels nothing: the
    file, the text, the status line and the error are reset, the
    processing flag is left as it is, the runs in flight are kept, and
    the call it triggers, [processOCR(null)], ends at once.  When the
    submission of a single-submission run then settles, its result is
    stored in the cleared page. *)
Theorem clearFile_keeps_runs (plat : Platform) (sess : Session) :
  let sess' := clearFile plat sess in
  file (view sess') = None
  /\ text (view sess') = ""%string
  /\ statusMessage (view sess') = None
  /\ error (view sess') = None
  /\ isProcessing (view sess') = isProcessing (view sess)
  /\ tasks sess' = tasks sess ++ [{| generation := S (current sess); code := Ret tt |}]
  /\ (forall i g f s0 res,
         singleSubmission plat f ->
         nth_error (tasks sess) i
         = Some {| generation := g; code := fst (advance (processOCR plat (Some f)) s0) |} ->
         view (react plat sess' (Deliver i res))
         = commit (readOcrResponse plat res) (view sess')).
Proof.
  intros sess'. unfold sess'.
  repeat (split; [reflexivity|]).
  intros i g f s0 res Hsingle Hnth.
  rewrite (advance_single_submission plat f s0 Hsingle) in Hnth.
  cbn [react clearFile tasks].
  assert (Hin : i < length (tasks sess)) by (apply nth_error_Some; congruence).
  rewrite nth_error_app1, Hnth by exact Hin.
  cbn [resume view]. destruct (readOcrResponse plat res) as [t | m]; reflexivity.
Qed.

Lemma clearFile_keeps_runs_witness :
  let plat := Sample.platform 0 0 in
  let sess := clearFile plat (play plat [Drop (Sample.png 100)]) in
  view (react plat sess (Deliver 0 (Sample.okText "late")))
  = commit (Ok "late"%string) (view sess).
Proof.
  intros plat sess.
  apply (proj2 (proj2 (proj2 (proj2 (proj2 (proj2
           (clearFile_keeps_runs plat (play plat [Drop (Sample.png 100)])))))))
           0 1 (Sample.png 100)
           (apply (SetText "") (apply (SetError None)
              (apply (SetFile (Some (Sample.png 100))) initialState)))
           (Sample.okText "late")).
  - left. split; [reflexivity | vm_compute; discriminate].
  - reflexivity.
Defined.

(** X19.  The download is named after the file: the name of the file
    with its extension dropped, followed by ".md".  When nothing is
    left of the name once the extension is dropped (a name such as
    ".bashrc"), or when there is no file, the download is called
    "extracted.md"; it is never called just ".md". *)
Theorem downloadName_spec (s : AppState) :
  (file s = None -> downloadName s = "extracted.md"%string)
  /\ (forall f base ext,
         file s = Some f -> name f = (base ++ "." ++ ext)%string ->
         isExtension ext = true ->
         downloadName s = ((if Js.truthy base then base else "extracted") ++ ".md")%string)
  /\ (forall f,
         file s = Some f -> allChars notDot (name f) = true ->
         downloadName s = ((if Js.truthy (name f) then name f else "extracted") ++ ".md")%string)
  /\ downloadName s <> ".md"%string.
Proof.
  unfold downloadName. split; [|split; [|split]].
  - now intros ->.
  - intros f base ext -> -> Hext. now rewrite dropExtension_extension.
  - intros f -> Hplain. now rewrite (proj1 (dropExtension_no_dot (name f) Hplain)).
  - destruct (file s) as [f|]; [|discriminate].
    destruct (Js.dropExtension (name f)) as [|c stem]; cbn [Js.truthy]; [discriminate|].
    intros H. apply (f_equal String.length) in H.
    rewrite length_append in H. cbn in H. lia.
Qed.

Lemma downloadName_spec_witness :
  downloadName (apply (SetFile (Some (Sample.pdf 10))) initialState)
  = ((if Js.truthy "book" then "book" else "extracted") ++ ".md")%string.
Proof.
  apply (proj1 (proj2 (downloadName_spec
                         (apply (SetFile (Some (Sample.pdf 10))) initialState)))
           (Sample.pdf 10) "book" "pdf").
  - reflexivity.
  - reflexivity.
  - reflexivity.
Defined.

(** ** The route handler *)

Lemma innerLoop_spec (subArray : list Byte.byte) :
  forall chunk, Route.innerLoop subArray chunk = chunk ++ subArray.
Proof.
  induction subArray as [|b rest IH]; intros chunk; cbn [Route.innerLoop].
  - now rewrite app_nil_r.
  - rewrite IH, <- app_assoc. reflexivity.
Qed.

Lemma chunkSize_positive : 1 <= Route.chunkSize.
Proof. unfold Route.chunkSize. lia. Qed.

Lemma outerLoop_spec (bytes : list Byte.byte) (fuel : nat) :
  forall i binary,
    length bytes - i <= fuel ->
    Route.outerLoop fuel bytes i binary = Some (binary ++ skipn i bytes).
Proof.
  pose proof chunkSize_positive as Hpos.
  induction fuel as [|fuel IH]; intros i binary Hfuel.
  - cbn [Route.outerLoop].
    replace (i <? length bytes) with false by (symmetry; apply Nat.ltb_ge; lia).
    rewrite skipn_all2 by lia. now rewrite app_nil_r.
  - cbn [Route.outerLoop]. destruct (i <? length bytes) eqn:Hlt.
    + rewrite IH by lia. rewrite innerLoop_spec. cbn [app].
      rewrite <- app_assoc.
      rewrite Nat.add_comm, <- skipn_skipn, firstn_skipn. reflexivity.
    + apply Nat.ltb_ge in Hlt. rewrite skipn_all2 by lia. now rewrite app_nil_r.
Qed.

Lemma arrayBufferToBase64_helper (env : Route.Env) (buffer : list Byte.byte) :
  Route.arrayBufferToBase64 env buffer = Some (Route.btoa env buffer).
Proof.
  unfold Route.arrayBufferToBase64. rewrite outerLoop_spec by lia. reflexivity.
Qed.

(** X20.  [arrayBufferToBase64] always returns, and what it returns is
    [btoa] of the binary string whose code units are the bytes of the
    buffer, in order: building the string in pieces of 8192 bytes loses,
    repeats and reorders nothing, whatever the length of the buffer,
    and as many turns of the outer loop as the buffer has bytes, or
    more, always reach its end. *)
Theorem arrayBufferToBase64_spec (env : Route.Env) (buffer : list Byte.byte) :
  Route.arrayBufferToBase64 env buffer = Some (Route.btoa env buffer)
  /\ (forall fuel,
         length buffer <= fuel -> Route.outerLoop fuel buffer 0 [] = Some buffer).
Proof.
  split; [exact (arrayBufferToBase64_helper env buffer)|].
  intros fuel Hfuel. rewrite outerLoop_spec by lia. reflexivity.
Qed.

Lemma POST_answers (env : Route.Env) (formData : Result (option File)) :
  exists answer, Route.POST env formData = Some answer.
Proof.
  unfold Route.POST. destruct formData as [[file|] | message]; try (now eexists).
  destruct (Route.maxSizeOf file <? size file)%N; [now eexists|].
  rewrite (arrayBufferToBase64_helper env (Route.arrayBuffer env file)).
  destruct (Route.apiKey env) as [key|]; [|now eexists].
  destruct (negb (Js.truthy key)); [now eexists|].
  destruct (Route.upstream env key _) as [[status body] | message]; [|now eexists].
  destruct (negb _); now eexists.
Qed.

Lemma truthy_excerptOf (body : string) :
  Js.truthy (Route.excerptOf body) = Js.truthy body.
Proof.
  unfold Route.excerptOf.
  destruct (Route.MAX_ERROR_TEXT_LENGTH <? String.length body) eqn:Hlong; [|reflexivity].
  apply Nat.ltb_lt in Hlong. destruct body as [|c body]; [cbn in Hlong; lia|].
  reflexivity.
Qed.

(** The answer to an upstream failure, in terms of the excerpt. *)
Lemma upstreamFailure_shape (env : Route.Env) (status : N) (errorText : string) :
  exists error,
    Route.upstreamFailure env status errorText
    = {| Route.answerStatus := status;
         Route.answerBody :=
           Route.ErrorBody error (Some "OCR_API_ERROR"%string)
             (if Js.truthy errorText then Some (Route.excerptOf errorText) else None)
             false |}
    /\ Js.truthy error = true
    /\ error
       = Js.orElse
           (if Js.truthy errorText
            then match Route.parse env errorText with
                 | Some parsed =>
                     if Route.hasMessage parsed
                     then match Json.member "message" parsed with
                          | Some (Json.JString m) => Some m
                          | _ => None
                          end
                     else None
                 | None => None
                 end
            else None)
           (if Js.truthy errorText then Route.excerptOf errorText
            else "OCR processing failed"%string).
Proof.
  unfold Route.upstreamFailure. eexists. split; [|split].
  - f_equal. f_equal.
    destruct (Js.truthy errorText) eqn:Htruthy; cbn [negb]; [|reflexivity].
    fold (Route.excerptOf errorText). now rewrite truthy_excerptOf, Htruthy.
  - apply orElse_truthy. now apply orElse_truthy.
  - f_equal. destruct (Js.truthy errorText) eqn:Htruthy; cbn [negb]; [|reflexivity].
    fold (Route.excerptOf errorText). unfold Js.orElse at 1.
    now rewrite truthy_excerptOf, Htruthy.
Qed.

Lemma not_ok_not_200 (status : N) :
  negb ((200 <=? status) && (status <=? 299))%N = true -> status <> 200%N.
Proof. intros H ->. discriminate. Qed.

(** X21.  The handler always answers.  The status of the answer is 200
    exactly when its body is a result, not an error.  A result is only
    ever made of a successful upstream answer to the data URL of the
    file, whose body parses: its text is what that body holds as
    [md_results] when that is truthy, and the empty string otherwise, so
    it is never missing; its id and usage are those of that body. *)
Theorem POST_always_answers (env : Route.Env) (formData : Result (option File)) :
  exists answer,
    Route.POST env formData = Some answer
    /\ (Route.answerStatus answer = 200%N <-> Route.errorOf (Route.answerBody answer) = None)
    /\ (forall text id usage,
           Route.answerBody answer = Route.ResultBody text id usage ->
           (Json.truthy (Some text) = true \/ text = Json.JString "")
           /\ exists file key status body result,
                formData = Ok (Some file)
                /\ Route.apiKey env = Some key
                /\ Route.upstream env key
                     ("data:" ++ Route.mimeTypeOf env file ++ ";base64,"
                      ++ Route.btoa env (Route.arrayBuffer env file))%string
                   = Ok (status, body)
                /\ ((200 <=? status) && (status <=? 299))%N = true
                /\ Route.parse env body = Some result
                /\ text = match Json.member "md_results" result with
                          | Some v => if Json.truthy (Some v) then v else Json.JString ""
                          | None => Json.JString ""
                          end
                /\ id = Json.member "id" result
                /\ usage = Json.member "usage" result).
Proof.
  assert (Hplain : forall status message,
             status <> 200%N ->
             (Route.answerStatus (Route.plainError status message) = 200%N
              <-> Route.errorOf (Route.answerBody (Route.plainError status message)) = None)
             /\ (forall text id usage,
                    Route.answerBody (Route.plainError status message)
                    = Route.ResultBody text id usage -> False)).
  { intros status message Hs. cbn. split; [split; [congruence | discriminate] | discriminate]. }
  assert (Hwrap : forall answer (P : Json.Value -> option Json.Value -> option Json.Value
                                     -> Prop),
             (Route.answerStatus answer = 200%N
              <-> Route.errorOf (Route.answerBody answer) = None)
             /\ (forall text id usage,
                    Route.answerBody answer = Route.ResultBody text id usage -> False) ->
             (Route.answerStatus answer = 200%N
              <-> Route.errorOf (Route.answerBody answer) = None)
             /\ (forall text id usage,
                    Route.answerBody answer = Route.ResultBody text id usage ->
                    P text id usage)).
  { intros answer P [H1 H2]. split; [exact H1|]. intros text id usage H.
    destruct (H2 text id usage H). }
  unfold Route.POST. destruct formData as [[file|] | message].
  - destruct (Route.maxSizeOf file <? size file)%N.
    { eexists. split; [reflexivity|]. cbn.
      split; [split; discriminate | discriminate]. }
    rewrite (arrayBufferToBase64_helper env (Route.arrayBuffer env file)).
    destruct (Route.apiKey env) as [key|] eqn:Hkey;
      [|eexists; split; [reflexivity | now apply Hwrap, Hplain]].
    destruct (negb (Js.truthy key));
      [eexists; split; [reflexivity | now apply Hwrap, Hplain]|].
    destruct (Route.upstream env key _) as [[status body] | message] eqn:Hup;
      [|eexists; split; [reflexivity | now apply Hwrap, Hplain]].
    destruct (negb ((200 <=? status) && (status <=? 299))%N) eqn:Hok.
    + destruct (upstreamFailure_shape env status body) as [error [Heq _]].
      eexists. split; [reflexivity|]. rewrite Heq. cbn.
      apply not_ok_not_200 in Hok.
      split; [split; [congruence | discriminate] | discriminate].
    + apply negb_false_iff in Hok.
      eexists. split; [reflexivity|]. unfold Route.upstreamSuccess.
      destruct (Route.parse env body) as [result|] eqn:Hparse;
        [|now apply Hwrap, Hplain].
      assert (Hresult :
                forall text id usage,
                  Route.ResultBody
                    match Json.member "md_results" result with
                    | Some v => if Json.truthy (Some v) then v else Json.JString ""
                    | None => Json.JString ""
                    end (Json.member "id" result) (Json.member "usage" result)
                  = Route.ResultBody text id usage ->
                  (Json.truthy (Some text) = true \/ text = Json.JString "")
                  /\ exists file' key' status' body' result',
                       @Ok (option File) (Some file) = Ok (Some file')
                       /\ Some key = Some key'
                       /\ Route.upstream env key'
                            ("data:" ++ Route.mimeTypeOf env file' ++ ";base64,"
                             ++ Route.btoa env (Route.arrayBuffer env file'))%string
                          = Ok (status', body')
                       /\ ((200 <=? status') && (status' <=? 299))%N = true
                       /\ Route.parse env body' = Some result'
                       /\ text = match Json.member "md_results" result' with
                                 | Some v =>
                                     if Json.truthy (Some v) then v else Json.JString ""
                                 | None => Json.JString ""
                                 end
                       /\ id = Json.member "id" result'
                       /\ usage = Json.member "usage" result').
      { intros text id usage H. injection H as <- <- <-. split.
        - destruct (Json.member "md_results" result) as [v|]; [|now right].
          assert (Hcase : forall b : bool,
                     b = Json.truthy (Some v) ->
                     Json.truthy (Some (if b then v else Json.JString "")) = true
                     \/ (if b then v else Json.JString "") = Json.JString "").
          { intros [|] Hb; [left; now symmetry | now right]. }
          exact (Hcase _ eq_refl).
        - exists file, key, status, body, result. now repeat split. }
      destruct result as [| b | shown | s | items | members];
        [now apply Hwrap, Hplain | | | | |];
        (split; [now split | exact Hresult]).
  - eexists. split; [reflexivity | now apply Hwrap, Hplain].
  - eexists. split; [reflexivity | now apply Hwrap, Hplain].
Qed.

Lemma POST_always_answers_witness :
  exists answer,
    Route.POST (Sample2.env 200 (Sample2.mdBody "# Title"))
      (Ok (Some (Sample.png (2 * Sample.MiB)))) = Some answer
    /\ Route.answerBody answer = Route.ResultBody (Json.JString "# Title") None None.
Proof.
  destruct (POST_always_answers (Sample2.env 200 (Sample2.mdBody "# Title"))
              (Ok (Some (Sample.png (2 * Sample.MiB)))))
    as [answer [Hpost _]].
  exists answer. split; [exact Hpost|].
  vm_compute in Hpost. injection Hpost as <-. reflexivity.
Defined.

(** X22.  The handler turns a request down before doing any work on it:
    without a file it answers 400; for a file over the limit of its type
    it answers 400 with the code FILE_TOO_LARGE whatever the
    environment is (the bytes are not read and nothing is sent
    upstream); and for a file within the limit, without an API key (none,
    or an empty one) it answers 500 "API key not configured" whatever
    the upstream service would say. *)
Theorem POST_gates (env : Route.Env) (file : File) :
  Route.POST env (Ok None) = Some (Route.plainError 400 "No file provided")
  /\ ((Route.maxSizeOf file < size file)%N ->
      (forall env', Route.POST env' (Ok (Some file)) = Route.POST env (Ok (Some file)))
      /\ exists message,
           Route.POST env (Ok (Some file))
           = Some {| Route.answerStatus := 400;
                     Route.answerBody :=
                       Route.ErrorBody message (Some "FILE_TOO_LARGE"%string) None true |})
  /\ ((size file <= Route.maxSizeOf file)%N ->
      Route.apiKey env = None \/ Route.apiKey env = Some ""%string ->
      Route.POST env (Ok (Some file))
      = Some (Route.plainError 500 "API key not configured")).
Proof.
  split; [reflexivity|]. split.
  - intros Hbig. apply N.ltb_lt in Hbig. unfold Route.POST. rewrite Hbig.
    split; [reflexivity | now eexists].
  - intros Hfit Hkey. apply N.ltb_ge in Hfit. unfold Route.POST. rewrite Hfit.
    rewrite (arrayBufferToBase64_helper env (Route.arrayBuffer env file)).
    now destruct Hkey as [-> | ->].
Qed.

Lemma POST_gates_witness :
  exists message,
    Route.POST (Sample2.env 200 "") (Ok (Some (Sample.png (12 * Sample.MiB))))
    = Some {| Route.answerStatus := 400;
              Route.answerBody :=
                Route.ErrorBody message (Some "FILE_TOO_LARGE"%string) None true |}.
Proof.
  apply (proj1 (proj2 (POST_gates (Sample2.env 200 "") (Sample.png (12 * Sample.MiB))))).
  vm_compute. reflexivity.
Defined.



Lemma lastSegment_plain (ext : string) :
  forall seg,
    allChars notDot ext = true -> Route.lastSegment ext seg = (seg ++ ext)%string.
Proof.
  induction ext as [|c ext IH]; intros seg H; cbn [Route.lastSegment].
  - now rewrite append_nil_r.
  - cbn [allChars] in H. apply andb_true_iff in H. destruct H as [Hc Hext].
    unfold notDot in Hc. apply negb_true_iff in Hc. rewrite Hc.
    rewrite IH by exact Hext. now rewrite append_assoc.
Qed.

Lemma lastSegment_after_dot (base ext : string) :
  forall seg,
    allChars notDot ext = true ->
    Route.lastSegment (base ++ "." ++ ext)%string seg = ext.
Proof.
  induction base as [|c base IH]; intros seg Hext.
  - cbn [append Route.lastSegment]. cbn. now rewrite lastSegment_plain.
  - cbn [append Route.lastSegment]. destruct (Ascii.eqb c "."); now apply IH.
Qed.

Lemma mimeTypes_other (env : Route.Env) (key : string) :
  ~ In key ["png"; "jpg"; "jpeg"; "webp"; "pdf"]%string ->
  Route.mimeTypes env key = Route.inherited env key.
Proof.
  intros Hnot. unfold Route.mimeTypes.
  repeat match goal with
    | |- context [String.eqb key ?k] =>
        destruct (String.eqb_spec key k) as [-> | _];
        [exfalso; apply Hnot; cbn; tauto|]
    end.
  reflexivity.
Qed.

(** X24.  The mime type the handler sends upstream: the type of the
    file when it has one other than "application/octet-stream";
    otherwise the type its extension stands for, the extension being
    what follows the last dot of the name (the whole name when it has
    no dot), read without regard to upper and lower case (png, jpg,
    jpeg, webp, pdf).  For any other extension the table, being a plain
    object, gives what its prototype has under that name, as the data
    URL shows it (for the extension "constructor", the text of the
    function [Object]), and the type is "image/png" only when the
    prototype has nothing there: where the prototype has no lower-case
    names but [constructor] and [__proto__], for every extension other
    than these two and the five of the table. *)
Theorem mimeTypeOf_spec (env : Route.Env) (file : File) :
  (Js.truthy (type file) = true ->
   type file <> "application/octet-stream"%string ->
   Route.mimeTypeOf env file = type file)
  /\ (type file = ""%string \/ type file = "application/octet-stream"%string ->
      forall ext,
        (exists base, name file = (base ++ "." ++ ext)%string) \/ name file = ext ->
        allChars notDot ext = true ->
        (forall key found,
            Route.toLowerCase ext = key ->
            In (key, found)
              [("png", "image/png"); ("jpg", "image/jpeg"); ("jpeg", "image/jpeg");
               ("webp", "image/webp"); ("pdf", "application/pdf")]%string ->
            Route.mimeTypeOf env file = found)
        /\ (~ In (Route.toLowerCase ext) ["png"; "jpg"; "jpeg"; "webp"; "pdf"]%string ->
            Route.mimeTypeOf env file
            = match Route.inherited env (Route.toLowerCase ext) with
              | Some shown => shown
              | None => "image/png"%string
              end)
        /\ (~ In (Route.toLowerCase ext) ["png"; "jpg"; "jpeg"; "webp"; "pdf"]%string ->
            ~ In (Route.toLowerCase ext) Route.prototypeKeys ->
            (forall key, Route.inherited env key <> None -> In key Route.prototypeKeys) ->
            Route.mimeTypeOf env file = "image/png"%string)).
Proof.
  split.
  - intros Htruthy Hother. unfold Route.mimeTypeOf. rewrite Htruthy.
    apply String.eqb_neq in Hother. now rewrite Hother.
  - intros Htype ext Hname Hext.
    assert (Hmime : Route.mimeTypeOf env file =
                    match Route.mimeTypes env (Route.toLowerCase ext) with
                    | Some found => found
                    | None => "image/png"%string
                    end).
    { unfold Route.mimeTypeOf.
      replace (Route.lastSegment (name file) "") with ext.
      - now destruct Htype as [-> | ->].
      - destruct Hname as [[base ->] | ->].
        + now rewrite lastSegment_after_dot.
        + now rewrite lastSegment_plain. }
    split; [|split].
    + intros key found Hkey Hin. rewrite Hmime, Hkey.
      cbn [In] in Hin.
      destruct Hin as [H | [H | [H | [H | [H | []]]]]]; injection H as <- <-; reflexivity.
    + intros Hnot. now rewrite Hmime, (mimeTypes_other env _ Hnot).
    + intros Hnot Hproto Hstandard. rewrite Hmime, (mimeTypes_other env _ Hnot).
      destruct (Route.inherited env (Route.toLowerCase ext)) as [shown|] eqn:Hin;
        [|reflexivity].
      exfalso. apply Hproto, Hstandard. congruence.
Qed.

Lemma mimeTypeOf_spec_witness :
  Route.mimeTypeOf (Sample2.env 200 "")
    {| name := "Report.v2.PDF"; type := ""; size := 10; blob := UserBlob 4 |}
  = "application/pdf"%string.
Proof.
  destruct (mimeTypeOf_spec (Sample2.env 200 "")
              {| name := "Report.v2.PDF"; type := ""; size := 10; blob := UserBlob 4 |})
    as [_ Hext].
  destruct (Hext (or_introl eq_refl) "PDF"%string) as [Htable _].
  - left. now exists "Report.v2"%string.
  - reflexivity.
  - apply (Htable "pdf"%string); [reflexivity | cbn; tauto].
Defined.


